(** * doctor-k: the customer ordering page (src/app/order/page.tsx)

    A shallow embedding of the cart, order-submission and table-number logic
    of the [MenuContent] component, and the properties the specification
    states about it.

    Modelling conventions.
    - A JavaScript [number] is an IEEE-754 binary64 value: Rocq's primitive
      [float], whose operations are the kernel's and whose specification is
      [SpecFloat].  Equality of numbers in theorems is Leibniz equality
      (it separates [0] from [-0] and identifies all NaNs).
    - A JavaScript string is a [string]: a sequence of code units below 256.
    - React state setters are modelled by explicit state passing over the
      record [World]; a functional updater [setX(prev => ...)] reads the state
      current when it runs.  A handler runs on the current state: the
      component is taken to have rendered since the last state change.
    - [localStorage] and the Firestore [orders] collection are finite maps;
      a query lists the documents of the collection that match it.
    - An [async] handler is cut at its [await]: the part before, the answer of
      the backing store (an input), and the part after, which runs on the
      state it finds then.
    - Values the page does not compute ([uuidv4()], [Date.now()], the id a new
      document gets, errors) are inputs.

    The file has the definitions first (the primitives of the language the
    page relies on, the data model, the handlers), then the properties. *)

From Stdlib Require Import ZArith List Floats String Ascii Lia DecimalString.
From Stdlib Require DecimalN.
From stdpp Require Import base option list gmap strings fin_maps sorting.

Set Warnings "-inexact-float".
Set Default Proof Using "Type".

(** ** JavaScript numbers *)

Definition number : Set := float.

(** The Number value of a mathematical integer: round to nearest, ties to
    even, overflowing to an infinity. *)
Definition Z2Number (z : Z) : number :=
  SF2Prim (binary_normalize prec emax z 0 false).

Definition isFinite (x : number) : bool :=
  match Prim2SF x with
  | S754_zero _ | S754_finite _ _ _ => true
  | S754_infinity _ | S754_nan => false
  end.

(** *** [parseInt(string)] with no radix argument (ECMAScript 19.2.5) *)

Definition ascii_code (c : ascii) : Z := Z.of_nat (nat_of_ascii c).

(** White space and line terminators among the code units below 256:
    TAB, LF, VT, FF, CR, SP and NBSP. *)
Definition isStrWhiteSpaceChar (c : ascii) : bool :=
  let n := ascii_code c in
  ((9 <=? n) && (n <=? 13) || (n =? 32) || (n =? 160))%Z.

Fixpoint trimStart (s : string) : string :=
  match s with
  | String c rest => if isStrWhiteSpaceChar c then trimStart rest else s
  | EmptyString => s
  end.

(** The value of a code unit as a digit of the given radix, if it is one. *)
Definition digitValue (radix : Z) (c : ascii) : option Z :=
  let n := ascii_code c in
  let v :=
    if ((48 <=? n) && (n <=? 57))%Z then Some (n - 48)%Z
    else if ((97 <=? n) && (n <=? 122))%Z then Some (n - 87)%Z
    else if ((65 <=? n) && (n <=? 90))%Z then Some (n - 55)%Z
    else None in
  match v with
  | Some d => if (d <? radix)%Z then Some d else None
  | None => None
  end.

(** The longest prefix of radix digits, as an integer; [acc] is the value read
    so far, [None] while no digit has been read. *)
Fixpoint parseDigits (radix : Z) (s : string) (acc : option Z) : option Z :=
  match s with
  | String c rest =>
      match digitValue radix c with
      | Some d => parseDigits radix rest (Some (radix * default 0%Z acc + d)%Z)
      | None => acc
      end
  | EmptyString => acc
  end.

Definition stripSign (s : string) : bool * string :=
  match s with
  | String c rest =>
      if Ascii.eqb c "-" then (true, rest)
      else if Ascii.eqb c "+" then (false, rest)
      else (false, s)
  | EmptyString => (false, s)
  end.

Definition stripHexPrefix (s : string) : Z * string :=
  match s with
  | String c0 (String c1 rest) =>
      if Ascii.eqb c0 "0" && (Ascii.eqb c1 "x" || Ascii.eqb c1 "X")
      then (16%Z, rest) else (10%Z, s)
  | _ => (10%Z, s)
  end.

Definition parseInt (s : string) : number :=
  let '(negative, s1) := stripSign (trimStart s) in
  let '(radix, s2) := stripHexPrefix s1 in
  match parseDigits radix s2 None with
  | None => PrimFloat.nan
  | Some mathInt =>
      if (mathInt =? 0)%Z
      then (if negative then PrimFloat.neg_zero else PrimFloat.zero)
      else Z2Number (if negative then - mathInt else mathInt)
  end.

(** *** [Number::toString(x)] in radix 10 (ECMAScript 6.1.6.1.20)

    For a finite non-zero [x = m * 2^e] the digits are those of the integer
    [s] with the fewest digits such that [s * 10^t] rounds to [x]; among
    those the one nearest to [x]. *)

Definition ceilDiv (a b : Z) : Z := (- ((- a) / b))%Z.

(** The reals that round to the double [m * 2^e] form an interval; it is
    returned as [(lo, v, hi, den)]: the interval is from [lo/den] to
    [hi/den], the double itself is [v/den].  The end points belong to it when
    [m] is even. *)
Definition roundingInterval (m : positive) (e : Z) : Z * Z * Z * Z :=
  let mz := Zpos m in
  let closer_below := ((mz =? 2 ^ 52) && (-1074 <? e))%Z in
  let lo := (if closer_below then 4 * mz - 1 else 4 * mz - 2)%Z in
  let v := (4 * mz)%Z in
  let hi := (4 * mz + 2)%Z in
  if (2 <=? e)%Z
  then (lo * 2 ^ (e - 2), v * 2 ^ (e - 2), hi * 2 ^ (e - 2), 1)%Z
  else (lo, v, hi, 2 ^ (2 - e))%Z.

(** The integer [s] nearest to the double with [s * 10^t] in its interval,
    if there is one. *)
Definition digitsAt (iv : Z * Z * Z * Z) (closed : bool) (t : Z) : option Z :=
  let '(lo, v, hi, den) := iv in
  let '(lo, v, hi, unit) :=
    if (0 <=? t)%Z then (lo, v, hi, den * 10 ^ t)%Z
    else (lo * 10 ^ (- t), v * 10 ^ (- t), hi * 10 ^ (- t), den)%Z in
  let smin := (if closed then ceilDiv lo unit else lo / unit + 1)%Z in
  let smax := (if closed then hi / unit else ceilDiv hi unit - 1)%Z in
  if (smax <? smin)%Z then None
  else
    let q := (v / unit)%Z in
    let r := (v mod unit)%Z in
    let nearest :=
      if (2 * r <? unit)%Z then q
      else if (unit <? 2 * r)%Z then (q + 1)%Z
      else if Z.even q then q else (q + 1)%Z in
    Some (Z.max smin (Z.min smax nearest)).

(** The largest [t] at or below [t0] with a candidate, searched downwards. *)
Fixpoint shortestFrom (fuel : nat) (iv : Z * Z * Z * Z) (closed : bool) (t : Z)
  : option (Z * Z) :=
  match fuel with
  | O => None
  | S fuel' =>
      match digitsAt iv closed t with
      | Some s => Some (s, t)
      | None => shortestFrom fuel' iv closed (t - 1)%Z
      end
  end.

Definition shortestDigits (m : positive) (e : Z) : option (Z * Z) :=
  let iv := roundingInterval m e in
  let '(_, _, hi, den) := iv in
  let t0 := (Z.log2 (hi / den) / 3 + 1)%Z in
  shortestFrom 420 iv (Z.even (Zpos m)) t0.

Definition decimalOfZ (z : Z) : string :=
  NilZero.string_of_uint (N.to_uint (Z.to_N z)).

Fixpoint zeros (n : nat) : string :=
  match n with
  | O => EmptyString
  | S n' => String "0" (zeros n')
  end.

Definition formatDigits (digits : string) (n : Z) : string :=
  let k := Z.of_nat (String.length digits) in
  if ((k <=? n) && (n <=? 21))%Z then
    digits +:+ zeros (Z.to_nat (n - k))
  else if ((0 <? n) && (n <=? 21))%Z then
    substring 0 (Z.to_nat n) digits +:+ "." +:+
    substring (Z.to_nat n) (Z.to_nat (k - n)) digits
  else if ((-6 <? n) && (n <=? 0))%Z then
    "0." +:+ zeros (Z.to_nat (- n)) +:+ digits
  else
    let e := (n - 1)%Z in
    let exponent := (if (e <? 0)%Z then "e-" else "e+") +:+ decimalOfZ (Z.abs e) in
    if (k =? 1)%Z then digits +:+ exponent
    else substring 0 1 digits +:+ "." +:+
         substring 1 (Z.to_nat (k - 1)) digits +:+ exponent.

Definition Number_toString (x : number) : string :=
  match Prim2SF x with
  | S754_nan => "NaN"
  | S754_zero _ => "0"
  | S754_infinity s => if s then "-Infinity" else "Infinity"
  | S754_finite s m e =>
      match shortestDigits m e with
      | Some (digits, t) =>
          let ds := decimalOfZ digits in
          (if s then "-" else "") +:+
          formatDigits ds (Z.of_nat (String.length ds) + t)
      | None => "NaN"
      end
  end.

(** ** [JSON.stringify] on the values the page compares *)

Definition dquote : ascii := "034"%char.
Definition backslash : ascii := "092"%char.

Definition hexDigit (n : Z) : ascii :=
  ascii_of_nat (Z.to_nat (if (n <? 10)%Z then 48 + n else 87 + n)%Z).

Definition escape2 (c : ascii) : string := String backslash (String c EmptyString).

(** [QuoteJSONString] on one code unit (ECMAScript 25.5.2.3, Table 75). *)
Definition escapeChar (c : ascii) : string :=
  let n := ascii_code c in
  if (n =? 8)%Z then escape2 "b"
  else if (n =? 9)%Z then escape2 "t"
  else if (n =? 10)%Z then escape2 "n"
  else if (n =? 12)%Z then escape2 "f"
  else if (n =? 13)%Z then escape2 "r"
  else if (n =? 34)%Z then escape2 dquote
  else if (n =? 92)%Z then escape2 backslash
  else if (n <? 32)%Z then
    String backslash
      (String "u" (String "0" (String "0"
         (String (hexDigit (n / 16)) (String (hexDigit (n mod 16)) EmptyString)))))
  else String c EmptyString.

Fixpoint escapeString (s : string) : string :=
  match s with
  | EmptyString => EmptyString
  | String c rest => escapeChar c +:+ escapeString rest
  end.

Definition QuoteJSONString (s : string) : string :=
  String dquote (escapeString s +:+ String dquote EmptyString).

(** A number serializes as [Number::toString] when finite, else as [null]. *)
Definition JSON_number (x : number) : string :=
  if isFinite x then Number_toString x else "null".

(** Reads a quoted JSON string back from the front of a text: the string and
    the rest of the text after the closing quote. *)
Definition unescape2 (c : ascii) : option ascii :=
  let n := ascii_code c in
  if (n =? 98)%Z then Some (ascii_of_nat 8)
  else if (n =? 116)%Z then Some (ascii_of_nat 9)
  else if (n =? 110)%Z then Some (ascii_of_nat 10)
  else if (n =? 102)%Z then Some (ascii_of_nat 12)
  else if (n =? 114)%Z then Some (ascii_of_nat 13)
  else if (n =? 34)%Z then Some dquote
  else if (n =? 92)%Z then Some backslash
  else None.

Definition hexValue (c : ascii) : option Z := digitValue 16 c.

Fixpoint unescapeString (s : string) : option (string * string) :=
  match s with
  | EmptyString => None
  | String c rest =>
      if Ascii.eqb c dquote then Some (EmptyString, rest)
      else if Ascii.eqb c backslash then
        match rest with
        | String e rest1 =>
            if Ascii.eqb e "u" then
              match rest1 with
              | String _ (String _ (String h1 (String h0 rest2))) =>
                  match hexValue h1, hexValue h0, unescapeString rest2 with
                  | Some v1, Some v0, Some (str, after) =>
                      Some (String (ascii_of_nat (Z.to_nat (16 * v1 + v0))) str, after)
                  | _, _, _ => None
                  end
              | _ => None
              end
            else
              match unescape2 e, unescapeString rest1 with
              | Some ch, Some (str, after) => Some (String ch str, after)
              | _, _ => None
              end
        | EmptyString => None
        end
      else
        match unescapeString rest with
        | Some (str, after) => Some (String c str, after)
        | None => None
        end
  end.

Definition readJSONString (s : string) : option (string * string) :=
  match s with
  | String c rest => if Ascii.eqb c dquote then unescapeString rest else None
  | EmptyString => None
  end.

(** ** Data model (the exported interfaces of page.tsx) *)

Module SelectedOption.
Record t : Set := mk { id : string; name : string; price : number }.
End SelectedOption.

Module OptionSpec.
Record t : Set := mk {
  id : string;
  name : string;
  isRequired : bool;
  maxSelections : option number;
  price : number
}.
End OptionSpec.

Module MenuItem.
Record t : Set := mk {
  id : string;
  name : string;
  price : number;
  category : string;
  imageUrl : option string;
  options : option (list OptionSpec.t)
}.
End MenuItem.

(** [interface CartItem extends MenuItem]: the fields of the item, flat, with
    the quantity and the selected options. *)
Module CartItem.
Record t : Set := mk {
  id : string;
  name : string;
  price : number;
  category : string;
  imageUrl : option string;
  options : option (list OptionSpec.t);
  quantity : number;
  selectedOptions : list SelectedOption.t
}.

(** [{ ...item, quantity: q, selectedOptions }] *)
Definition ofMenuItem (item : MenuItem.t) (q : number)
    (selected : list SelectedOption.t) : t :=
  mk (MenuItem.id item) (MenuItem.name item) (MenuItem.price item)
     (MenuItem.category item) (MenuItem.imageUrl item) (MenuItem.options item)
     q selected.

(** [{ ...cartItem, quantity: q }] *)
Definition withQuantity (q : number) (c : t) : t :=
  mk (id c) (name c) (price c) (category c) (imageUrl c) (options c)
     q (selectedOptions c).

Definition withSelectedOptions (selected : list SelectedOption.t) (c : t) : t :=
  mk (id c) (name c) (price c) (category c) (imageUrl c) (options c)
     (quantity c) selected.
End CartItem.

Inductive Status : Set := pending | completed | cancelled.
Inductive PaymentMethod : Set := cash | gcash.

(** A value held by a field of a stored document.  The interface types
    [tableNumber] as a number; the page also writes a string there. *)
Inductive FieldValue : Set :=
  | FNumber (n : number)
  | FString (s : string).

(** [Omit<Order, "id">]: what is handed to the store and kept there. *)
Module OrderData.
Record t : Set := mk {
  deviceId : string;
  tableNumber : FieldValue;
  items : list CartItem.t;
  total : number;
  status : Status;
  createdAt : number;
  paymentMethod : option PaymentMethod
}.

Definition withTableNumber (v : FieldValue) (d : t) : t :=
  mk (deviceId d) v (items d) (total d) (status d) (createdAt d)
     (paymentMethod d).
End OrderData.

(** [Order]: the stored fields together with the optional document id
    ([{ ...newOrder, id }], [{ id: doc.id, ...doc.data() }]). *)
Module Order.
Record t : Set := mk { id : option string; data : OrderData.t }.
End Order.

(** ** The key of a cart line *)

Definition stringifyOption (o : SelectedOption.t) : string :=
  "{" +:+ QuoteJSONString "id" +:+ ":" +:+ QuoteJSONString (SelectedOption.id o)
  +:+ "," +:+ QuoteJSONString "name" +:+ ":"
  +:+ QuoteJSONString (SelectedOption.name o)
  +:+ "," +:+ QuoteJSONString "price" +:+ ":"
  +:+ JSON_number (SelectedOption.price o) +:+ "}".

Fixpoint joinComma (l : list string) : string :=
  match l with
  | [] => EmptyString
  | [x] => x
  | x :: rest => x +:+ "," +:+ joinComma rest
  end.

(** [JSON.stringify(selectedOptions)]: every option is built by the page as
    the literal [{ id, name, price }], so its keys come in this order. *)
Definition JSON_stringify (selected : list SelectedOption.t) : string :=
  "[" +:+ joinComma (List.map stringifyOption selected) +:+ "]".

(** [cartItem.id === itemId &&
     JSON.stringify(cartItem.selectedOptions) === JSON.stringify(selectedOptions)] *)
Definition sameLine (itemId : string) (selected : list SelectedOption.t)
    (cartItem : CartItem.t) : bool :=
  String.eqb (CartItem.id cartItem) itemId
  && String.eqb (JSON_stringify (CartItem.selectedOptions cartItem))
                (JSON_stringify selected).

(** ** The cart *)

Abbreviation Cart := (list CartItem.t).

(** The updater [handlePlaceOrder] passes to [setCart]. *)
Definition placeOrderUpdate (item : MenuItem.t)
    (selected : list SelectedOption.t) (currentCart : Cart) : Cart :=
  match List.find (sameLine (MenuItem.id item) selected) currentCart with
  | Some existingItem =>
      List.map
        (fun cartItem =>
           if sameLine (MenuItem.id item) selected cartItem
           then CartItem.withQuantity (CartItem.quantity cartItem + 1)%float cartItem
           else cartItem)
        currentCart
  | None =>
      currentCart ++ [CartItem.ofMenuItem item 1%float selected]
  end.

(** The updater [handleUpdateQuantity] passes to [setCart]. *)
Definition updateQuantityUpdate (itemId : string) (newQuantity : number)
    (selected : list SelectedOption.t) (currentCart : Cart) : Cart :=
  if (newQuantity <? 1)%float then
    List.filter (fun item => negb (sameLine itemId selected item)) currentCart
  else
    List.map
      (fun item =>
         if sameLine itemId selected item
         then CartItem.withQuantity newQuantity item
         else item)
      currentCart.

(** [cart.reduce((total, item) => total + item.price * item.quantity, 0)] *)
Definition cartTotal (cart : Cart) : number :=
  List.fold_left
    (fun total item => (total + CartItem.price item * CartItem.quantity item)%float)
    cart 0%float.

(** The total as the specification words it: every line contributes its
    price plus the prices of its selected options, times its quantity. *)
Definition optionsPrice (selected : list SelectedOption.t) : number :=
  List.fold_left (fun sum o => (sum + SelectedOption.price o)%float) selected 0%float.

Definition specTotal (cart : Cart) : number :=
  List.fold_left
    (fun total item =>
       (total + (CartItem.price item + optionsPrice (CartItem.selectedOptions item))
                * CartItem.quantity item)%float)
    cart 0%float.

(** ** The component state and its surroundings *)

(** The state of [MenuContent] the handlers touch, [localStorage], the
    console, the alerts shown, and the [orders] collection of the store. *)
Record World : Type := mkWorld {
  cart : Cart;
  isSubmitting : bool;
  orders : list Order.t;
  isLoadingOrders : bool;
  tableNumber : string;
  showTableModal : bool;
  localStorage : gmap string string;
  console : list (string * string);
  alerts : list string;
  ordersCollection : gmap string OrderData.t
}.

(** The state of a freshly mounted component (the [useState] initial values). *)
Definition initialWorld (storage : gmap string string)
    (store : gmap string OrderData.t) : World :=
  mkWorld [] false [] true "" true storage [] [] store.

Definition setCart (f : Cart -> Cart) (w : World) : World :=
  mkWorld (f (cart w)) (isSubmitting w) (orders w) (isLoadingOrders w)
    (tableNumber w) (showTableModal w) (localStorage w) (console w) (alerts w)
    (ordersCollection w).

Definition setIsSubmitting (b : bool) (w : World) : World :=
  mkWorld (cart w) b (orders w) (isLoadingOrders w)
    (tableNumber w) (showTableModal w) (localStorage w) (console w) (alerts w)
    (ordersCollection w).

Definition setOrders (f : list Order.t -> list Order.t) (w : World) : World :=
  mkWorld (cart w) (isSubmitting w) (f (orders w)) (isLoadingOrders w)
    (tableNumber w) (showTableModal w) (localStorage w) (console w) (alerts w)
    (ordersCollection w).

Definition setIsLoadingOrders (b : bool) (w : World) : World :=
  mkWorld (cart w) (isSubmitting w) (orders w) b
    (tableNumber w) (showTableModal w) (localStorage w) (console w) (alerts w)
    (ordersCollection w).

Definition setTableNumber (t : string) (w : World) : World :=
  mkWorld (cart w) (isSubmitting w) (orders w) (isLoadingOrders w)
    t (showTableModal w) (localStorage w) (console w) (alerts w)
    (ordersCollection w).

Definition setShowTableModal (b : bool) (w : World) : World :=
  mkWorld (cart w) (isSubmitting w) (orders w) (isLoadingOrders w)
    (tableNumber w) b (localStorage w) (console w) (alerts w)
    (ordersCollection w).

Definition setLocalStorage (f : gmap string string -> gmap string string)
    (w : World) : World :=
  mkWorld (cart w) (isSubmitting w) (orders w) (isLoadingOrders w)
    (tableNumber w) (showTableModal w) (f (localStorage w)) (console w)
    (alerts w) (ordersCollection w).

(** [localStorage.setItem(key, value)] *)
Definition setItem (key value : string) : World -> World :=
  setLocalStorage (fun storage => <[key := value]> storage).

(** [console.error(label, error)] *)
Definition console_error (label error : string) (w : World) : World :=
  mkWorld (cart w) (isSubmitting w) (orders w) (isLoadingOrders w)
    (tableNumber w) (showTableModal w) (localStorage w)
    (console w ++ [(label, error)]) (alerts w) (ordersCollection w).

Definition alert (message : string) (w : World) : World :=
  mkWorld (cart w) (isSubmitting w) (orders w) (isLoadingOrders w)
    (tableNumber w) (showTableModal w) (localStorage w) (console w)
    (alerts w ++ [message]) (ordersCollection w).

Definition setOrdersCollection
    (f : gmap string OrderData.t -> gmap string OrderData.t) (w : World) : World :=
  mkWorld (cart w) (isSubmitting w) (orders w) (isLoadingOrders w)
    (tableNumber w) (showTableModal w) (localStorage w) (console w) (alerts w)
    (f (ordersCollection w)).

(** A string in a condition: every string but the empty one is truthy. *)
Definition truthy (s : string) : bool := negb (String.eqb s "").

(** A [string | null] in a condition. *)
Definition truthyOpt (s : option string) : bool :=
  match s with
  | Some s => truthy s
  | None => false
  end.

(** [getDeviceId()]; [uuid] is the value [uuidv4()] would return. *)
Definition getDeviceId (uuid : string) (w : World) : string * World :=
  match localStorage w !! "device_id" with
  | Some deviceId =>
      if truthy deviceId then (deviceId, w)
      else (uuid, setItem "device_id" uuid w)
  | None => (uuid, setItem "device_id" uuid w)
  end.

(** ** Cart handlers *)

Definition handlePlaceOrder (item : MenuItem.t)
    (selected : list SelectedOption.t) : World -> World :=
  setCart (placeOrderUpdate item selected).

Definition handleUpdateQuantity (itemId : string) (newQuantity : number)
    (selected : list SelectedOption.t) : World -> World :=
  setCart (updateQuantityUpdate itemId newQuantity selected).

(** ** Table number *)

(** The effect run on [searchParams]: [tableFromUrl] is
    [searchParams.get("table")]. *)
Definition resolveTable (tableFromUrl : option string) (w : World) : World :=
  let savedTableNumber := localStorage w !! "table_number" in
  if truthyOpt tableFromUrl then
    let t := default "" tableFromUrl in
    setShowTableModal false (setItem "table_number" t (setTableNumber t w))
  else if truthyOpt savedTableNumber then
    setShowTableModal false (setTableNumber (default "" savedTableNumber) w)
  else w.

(** An [updateDoc(ref, data)] call: the document and the fields given. *)
Record Write : Set := mkWrite {
  write_doc : string;
  write_data : list (string * FieldValue)
}.

(** What the store answers: whether the read of a query is refused, and
    whether the update of a given document is. *)
Record StoreAnswers : Type := mkAnswers {
  readError : option string;
  updateError : string -> option string
}.

Definition isPendingOf (deviceId : string) (d : OrderData.t) : bool :=
  String.eqb (OrderData.deviceId d) deviceId
  && match OrderData.status d with pending => true | _ => false end.

(** [query(ordersRef, where("deviceId", "==", deviceId),
          where("status", "==", "pending"))]: the matching documents, in the
    order of the listing of the collection. *)
Definition pendingOrdersQuery (deviceId : string)
    (store : gmap string OrderData.t) : list (string * OrderData.t) :=
  List.filter (fun doc => isPendingOf deviceId (snd doc)) (map_to_list store).

(** The fields of an order a write can name; [tableNumber] is the only one
    this page writes. *)
Definition applyField (field : string * FieldValue) (d : OrderData.t)
  : OrderData.t :=
  if String.eqb (fst field) "tableNumber"
  then OrderData.withTableNumber (snd field) d
  else d.

Definition applyData (data : list (string * FieldValue)) (d : OrderData.t)
  : OrderData.t :=
  List.fold_left (fun d field => applyField field d) data d.

(** The store's part of [updateDoc]: a refused update changes nothing. *)
Definition updateDoc (answers : StoreAnswers) (wr : Write)
    (store : gmap string OrderData.t) : gmap string OrderData.t :=
  match updateError answers (write_doc wr) with
  | Some _ => store
  | None => alter (applyData (write_data wr)) (write_doc wr) store
  end.

(** The first refusal among the updates, if any: what [Promise.all] rejects
    with. *)
Definition firstError (answers : StoreAnswers) (writes : list Write)
  : option string :=
  List.fold_right
    (fun wr later =>
       match updateError answers (write_doc wr) with
       | Some e => Some e
       | None => later
       end)
    None writes.

(** The [updateDoc] calls [updateTableNumberInFirestore] issues on the
    documents its query returned. *)
Definition tableNumberWrites (newTableNumber : string)
    (docs : list (string * OrderData.t)) : list Write :=
  List.map
    (fun doc => mkWrite (fst doc) [("tableNumber", FString newTableNumber)])
    docs.

(** [updateTableNumberInFirestore(newTableNumber, deviceId)]: the world
    after, the updates issued, and the error thrown if any. *)
Definition updateTableNumberInFirestore (answers : StoreAnswers)
    (newTableNumber deviceId : string) (w : World)
  : World * list Write * option string :=
  match readError answers with
  | Some e => (console_error "Error updating table numbers:" e w, [], Some e)
  | None =>
      let writes :=
        tableNumberWrites newTableNumber
          (pendingOrdersQuery deviceId (ordersCollection w)) in
      let w1 :=
        setOrdersCollection
          (fun store => List.fold_left (fun s wr => updateDoc answers wr s) writes store)
          w in
      match firstError answers writes with
      | Some e => (console_error "Error updating table numbers:" e w1, writes, Some e)
      | None => (w1, writes, None)
      end
  end.

Definition trim (s : string) : string :=
  String.rev (trimStart (String.rev (trimStart s))).

(** [handleTableNumberSubmit]: returns the world and the updates issued. *)
Definition handleTableNumberSubmit (answers : StoreAnswers) (uuid : string)
    (w : World) : World * list Write :=
  if negb (truthy (trim (tableNumber w))) then (w, [])
  else
    let w1 := setItem "table_number" (tableNumber w) w in
    let '(deviceId, w2) := getDeviceId uuid w1 in
    match updateTableNumberInFirestore answers (tableNumber w) deviceId w2 with
    | (w3, writes, None) => (setShowTableModal false w3, writes)
    | (w3, writes, Some e) =>
        (alert "Failed to update table number. Please try again."
           (console_error "Error updating table number:" e w3), writes)
    end.

(** ** Order submission *)

(** What [addDoc] answers: the id of the new document, or an error. *)
Inductive AddDocAnswer : Set :=
  | DocAdded (id : string)
  | AddDocFailed (error : string).

(** The store's part of [addDoc(collection(db, "orders"), order)]. *)
Definition addDoc (answer : AddDocAnswer) (order : OrderData.t)
    (store : gmap string OrderData.t) : gmap string OrderData.t :=
  match answer with
  | DocAdded id => <[id := order]> store
  | AddDocFailed _ => store
  end.

(** [handleOrderNow] up to its [await]: [None] when the guard returns, else
    the order handed to [saveOrder].  [uuid] is what [uuidv4()] would return
    and [now] is [Date.now()]. *)
Definition handleOrderNow_call (uuid : string) (now : number) (w : World)
  : World * option OrderData.t :=
  if (length (cart w) =? 0)%nat || isSubmitting w || negb (truthy (tableNumber w))
  then (w, None)
  else
    let w1 := setIsSubmitting true w in
    let '(deviceId, w2) := getDeviceId uuid w1 in
    let newOrder :=
      OrderData.mk deviceId (FNumber (parseInt (tableNumber w))) (cart w)
        (cartTotal (cart w)) pending now (Some cash) in
    (w2, Some newOrder).

(** [saveOrder] once [addDoc] has answered: the id, or the error logged and
    thrown again. *)
Definition saveOrder_settle (answer : AddDocAnswer) (w : World)
  : World * (string + string) :=
  match answer with
  | DocAdded id => (w, inl id)
  | AddDocFailed e => (console_error "Error saving order: " e w, inr e)
  end.

Definition hasId (orderId : string) (order : Order.t) : bool :=
  match Order.id order with
  | Some id => String.eqb id orderId
  | None => false
  end.

(** The updater passed to [setOrders] after a successful save. *)
Definition mergeOrder (newOrder : OrderData.t) (orderId : string)
    (prevOrders : list Order.t) : list Order.t :=
  if List.existsb (hasId orderId) prevOrders then prevOrders
  else Order.mk (Some orderId) newOrder :: prevOrders.

(** [handleOrderNow] after its [await], on the state current then. *)
Definition handleOrderNow_settle (newOrder : OrderData.t)
    (saved : string + string) (w : World) : World :=
  let w1 :=
    match saved with
    | inl orderId =>
        setCart (fun _ => []) (setOrders (mergeOrder newOrder orderId) w)
    | inr e => console_error "Error placing order:" e w
    end in
  setIsSubmitting false w1.

(** The world the continuation of [handleOrderNow] resumes on: the call has
    run, the store has taken the document if it accepts it, and [during]
    (whatever else happened while the handler was waiting) has run. *)
Definition worldAtAnswer (uuid : string) (now : number) (answer : AddDocAnswer)
    (during : World -> World) (w : World) : World :=
  match handleOrderNow_call uuid now w with
  | (w1, None) => w1
  | (w1, Some newOrder) => during (setOrdersCollection (addDoc answer newOrder) w1)
  end.

(** [handleOrderNow], from the click to the end of its [finally]. *)
Definition handleOrderNow (uuid : string) (now : number) (answer : AddDocAnswer)
    (during : World -> World) (w : World) : World :=
  match handleOrderNow_call uuid now w with
  | (w1, None) => w1
  | (w1, Some newOrder) =>
      let w2 := during (setOrdersCollection (addDoc answer newOrder) w1) in
      let '(w3, saved) := saveOrder_settle answer w2 in
      handleOrderNow_settle newOrder saved w3
  end.

(** The order [handleOrderNow] builds in a world that passes its guard. *)
Definition newOrderOf (uuid : string) (now : number) (w : World) : OrderData.t :=
  OrderData.mk (fst (getDeviceId uuid w)) (FNumber (parseInt (tableNumber w)))
    (cart w) (cartTotal (cart w)) pending now (Some cash).

(** ** The live subscription *)

(** [orderBy("createdAt", "desc")]: a later document comes first. *)
Definition newestFirst (a b : string * OrderData.t) : Prop :=
  Is_true (OrderData.createdAt (snd b) <=? OrderData.createdAt (snd a))%float.

(** [query(ordersRef, where("deviceId", "==", deviceId),
          orderBy("createdAt", "desc"))]: the documents of the device,
    newest first (documents created at the same time come in no stated
    order). *)
Definition deviceOrdersQuery (deviceId : string)
    (store : gmap string OrderData.t) : list (string * OrderData.t) :=
  merge_sort newestFirst
    (List.filter (fun doc => String.eqb (OrderData.deviceId (snd doc)) deviceId)
       (map_to_list store)).

(** [snapshot.docs.map((doc) => ({ id: doc.id, ...doc.data() }))] *)
Definition snapshotOrders (docs : list (string * OrderData.t)) : list Order.t :=
  List.map (fun doc => Order.mk (Some (fst doc)) (snd doc)) docs.

(** The [onSnapshot] callback on a delivered snapshot. *)
Definition onSnapshot_next (docs : list (string * OrderData.t)) (w : World) : World :=
  setIsLoadingOrders false (setOrders (fun _ => snapshotOrders docs) w).

(** The snapshot delivered for the store as it is now. *)
Definition deliverSnapshot (deviceId : string) (w : World) : World :=
  onSnapshot_next (deviceOrdersQuery deviceId (ordersCollection w)) w.

(** How many orders of a list carry the given id. *)
Definition countId (orderId : string) (l : list Order.t) : nat :=
  length (List.filter (hasId orderId) l).

(** ** Auxiliary definitions used by the statements *)

(** What a line adds to the total. *)
Definition lineAmount (item : CartItem.t) : number :=
  (CartItem.price item * CartItem.quantity item)%float.

(** A cart of one line: an item priced 100 with one selected option priced
    20, ordered once. *)
Definition cartWithOption : Cart :=
  [CartItem.mk "latte" "Latte" 100%float "coffee" None None 1%float
     [SelectedOption.mk "oat" "Oat milk" 20%float]].

(** What follows the id in the serialization of an option. *)
Definition afterId (o : SelectedOption.t) : string :=
  "," +:+ QuoteJSONString "name" +:+ ":"
  +:+ QuoteJSONString (SelectedOption.name o)
  +:+ "," +:+ QuoteJSONString "price" +:+ ":"
  +:+ JSON_number (SelectedOption.price o) +:+ "}".


(** How many of the updates issued address the given document. *)
Definition writesTo (id : string) (writes : list Write) : nat :=
  length (List.filter (fun wr => String.eqb (write_doc wr) id) writes).

(** The world, the updates issued and the error of
    [updateTableNumberInFirestore]. *)
Definition worldAfter {A B : Type} (r : World * A * B) : World := fst (fst r).
Definition writesOf {A B : Type} (r : A * list Write * B) : list Write := snd (fst r).
Definition errorOf {A B : Type} (r : A * B * option string) : option string := snd r.

(** Whether some update of the list addresses [id] and is accepted by the
    store. *)
Definition accepted (answers : StoreAnswers) (id : string) (writes : list Write)
  : bool :=
  List.existsb
    (fun wr => String.eqb (write_doc wr) id
               && match updateError answers (write_doc wr) with
                  | None => true
                  | Some _ => false
                  end)
    writes.

(** A string with no integer at its front for [parseInt] to read: after the
    leading white space and an optional sign comes no decimal digit. *)
Definition isDecimalDigit (c : ascii) : bool :=
  ((48 <=? ascii_code c) && (ascii_code c <=? 57))%Z.

Definition hasNoLeadingInteger (t : string) : bool :=
  match snd (stripSign (trimStart t)) with
  | String c _ => negb (isDecimalDigit c)
  | EmptyString => true
  end.

(** The significand and exponent of a positive integer below [2^53] as a
    double. *)
Definition intSF (n : positive) : spec_float :=
  let '(m, e) := shl_align n 0 (Zpos (digits2_pos n) - prec) in
  S754_finite false m e.

(** The integer part of a finite number (0 for the others). *)
Definition truncZ (x : number) : Z :=
  match Prim2SF x with
  | S754_finite s m e =>
      let v := (if 0 <=? e then Zpos m * 2 ^ e else Zpos m / 2 ^ (- e))%Z in
      if s then (- v)%Z else v
  | _ => 0%Z
  end.

(** A number that is a whole number from 0 to [2^53 - 1]. *)
Definition wholeNumber (x : number) : Prop :=
  x = Z2Number (truncZ x) /\ (0 <= truncZ x < 2 ^ 53)%Z.

(** The exact amount of a line and of a cart, as integers. *)
Definition exactLine (line : CartItem.t) : Z :=
  (truncZ (CartItem.price line) * truncZ (CartItem.quantity line))%Z.

Definition exactTotal (cart : Cart) : Z :=
  List.fold_right (fun line sum => (exactLine line + sum)%Z) 0%Z cart.

(** Three lines priced 0.1, 0.2 and 0.3, ordered once each, in two orders. *)
Definition lineOf (id : string) (price : number) : CartItem.t :=
  CartItem.mk id id price "drinks" None None 1%float [].

Definition cartAscending : Cart :=
  [lineOf "a" 0.1%float; lineOf "b" 0.2%float; lineOf "c" 0.3%float].

Definition cartDescending : Cart :=
  [lineOf "c" 0.3%float; lineOf "b" 0.2%float; lineOf "a" 0.1%float].

(** A line whose price and quantity are whole numbers. *)
Definition wholeLine (line : CartItem.t) : Prop :=
  wholeNumber (CartItem.price line) /\ wholeNumber (CartItem.quantity line).

(** ** Sample data for the worked instances *)

Definition espresso : MenuItem.t :=
  MenuItem.mk "espresso" "Espresso" 120%float "coffee" None
    (Some [OptionSpec.mk "oat" "Oat milk" false None 20%float;
           OptionSpec.mk "soy" "Soy milk" false None 15%float]).

Definition oatMilk : SelectedOption.t := SelectedOption.mk "oat" "Oat milk" 20%float.
Definition soyMilk : SelectedOption.t := SelectedOption.mk "soy" "Soy milk" 15%float.

Definition lineWith (id : string) (price quantity : number) : CartItem.t :=
  CartItem.mk id id price "drinks" None None quantity [].

Definition cartOfWholes : Cart :=
  [lineWith "a" 120%float 2%float; lineWith "b" 85%float 1%float;
   lineWith "c" 40%float 3%float].

Definition sampleOrder (deviceId : string) (status : Status) : OrderData.t :=
  OrderData.mk deviceId (FNumber 3%float) [lineWith "a" 120%float 2%float]
    240%float status 1700000000000%float (Some cash).

Definition sampleStore : gmap string OrderData.t :=
  {[ "o1" := sampleOrder "dev-1" pending;
     "o2" := sampleOrder "dev-1" completed;
     "o3" := sampleOrder "dev-2" pending ]}.

(** A customer of table 5 with two espressos in the cart. *)
Definition sampleWorld : World :=
  mkWorld [CartItem.ofMenuItem espresso 2%float []] false [] false "5" false
    {[ "device_id" := "dev-1" ]} [] [] sampleStore.

Definition allAccepted : StoreAnswers := mkAnswers None (fun _ => None).

(** The key of a cart line: the item id and the serialized options. *)
Definition lineKey (line : CartItem.t) : string * string :=
  (CartItem.id line, JSON_stringify (CartItem.selectedOptions line)).

(** The carts the page can hold: the empty cart of a fresh component (and of
    a cleared one), and what the two cart handlers make of such a cart. *)
Inductive reachableCart : Cart -> Prop :=
  | reachable_empty : reachableCart []
  | reachable_place (item : MenuItem.t) (selected : list SelectedOption.t)
      (currentCart : Cart) :
      reachableCart currentCart ->
      reachableCart (placeOrderUpdate item selected currentCart)
  | reachable_update (itemId : string) (newQuantity : number)
      (selected : list SelectedOption.t) (currentCart : Cart) :
      reachableCart currentCart ->
      reachableCart (updateQuantityUpdate itemId newQuantity selected currentCart).

(** ** The rest of the page: catalogue, category filter, modal, listener *)

(** [interface Category] and the stored data of a category and of an item. *)
Module Category.
Record t : Set := mk { id : string; name : string }.
End Category.

Module CategoryData.
Record t : Set := mk { name : string }.
End CategoryData.

Module MenuItemData.
Record t : Set := mk {
  name : string;
  price : number;
  category : string;
  imageUrl : option string;
  options : option (list OptionSpec.t)
}.
End MenuItemData.

(** What [getDocs] answers: the documents of the collection, or an error. *)
Inductive GetDocsAnswer (A : Type) : Type :=
  | DocsRead (docs : list (string * A))
  | ReadFailed (error : string).
Arguments DocsRead {A} docs.
Arguments ReadFailed {A} error.

(** [x || ""] on an optional string. *)
Definition orEmptyString (s : option string) : string :=
  match s with
  | Some s => if truthy s then s else ""
  | None => ""
  end.

(** [x || []] on an optional array (an array, even empty, is truthy). *)
Definition orEmptyList {A : Type} (l : option (list A)) : list A :=
  match l with
  | Some l => l
  | None => []
  end.

(** [{ id: doc.id, name: (doc.data() as CategoryData).name }] *)
Definition categoryOfDoc (doc : string * CategoryData.t) : Category.t :=
  Category.mk (fst doc) (CategoryData.name (snd doc)).

(** [{ id: doc.id, ...doc.data(), imageUrl: data.imageUrl || "",
       options: data.options || [] }], for data that has the fields of
    [MenuItemData]. *)
Definition menuItemOfDoc (doc : string * MenuItemData.t) : MenuItem.t :=
  let data := snd doc in
  MenuItem.mk (fst doc) (MenuItemData.name data) (MenuItemData.price data)
    (MenuItemData.category data)
    (Some (orEmptyString (MenuItemData.imageUrl data)))
    (Some (orEmptyList (MenuItemData.options data))).

(** [fetchMenuData()]: the two reads in turn; the first error is logged and
    an empty catalogue returned. *)
Definition fetchMenuData (categoriesAnswer : GetDocsAnswer CategoryData.t)
    (menuItemsAnswer : GetDocsAnswer MenuItemData.t) (w : World)
  : list Category.t * list MenuItem.t * World :=
  match categoriesAnswer with
  | ReadFailed e => ([], [], console_error "Error fetching data: " e w)
  | DocsRead categoryDocs =>
      match menuItemsAnswer with
      | ReadFailed e => ([], [], console_error "Error fetching data: " e w)
      | DocsRead menuItemDocs =>
          (List.map categoryOfDoc categoryDocs,
           List.map menuItemOfDoc menuItemDocs, w)
      end
  end.

(** [handleCategoryClick(categoryId)] on the state [selectedCategory]. *)
Definition handleCategoryClick (categoryId : string)
    (selectedCategory : option string) : option string :=
  match selectedCategory with
  | Some selected =>
      if String.eqb selected categoryId then None else Some categoryId
  | None => Some categoryId
  end.

(** [selectedCategory ? menuItems.filter(...) : menuItems] *)
Definition filteredMenuItems (selectedCategory : option string)
    (menuItems : list MenuItem.t) : list MenuItem.t :=
  if truthyOpt selectedCategory then
    List.filter
      (fun item => String.eqb (MenuItem.category item) (default "" selectedCategory))
      menuItems
  else menuItems.

(** The price shown for an option of an item:
    [item.options?.find((opt) => opt.id === option.id)?.price ?? 0] *)
Definition optionPrice (item : MenuItem.t) (option : OptionSpec.t) : number :=
  match MenuItem.options item with
  | Some options =>
      match List.find (fun opt => String.eqb (OptionSpec.id opt) (OptionSpec.id option))
              options with
      | Some opt => OptionSpec.price opt
      | None => 0%float
      end
  | None => 0%float
  end.

(** The option a checked box places: [{ id, name, price: optionPrice }]. *)
Definition selectedOptionOf (item : MenuItem.t) (option : OptionSpec.t)
  : SelectedOption.t :=
  SelectedOption.mk (OptionSpec.id option) (OptionSpec.name option)
    (optionPrice item option).

(** [handleTableNumberClick] *)
Definition handleTableNumberClick : World -> World := setShowTableModal true.

(** The error callback of [onSnapshot]. *)
Definition onSnapshot_error (error : string) (w : World) : World :=
  setIsLoadingOrders false (console_error "Error listening to orders:" error w).

(** A string of white space only (the empty string included). *)
Fixpoint allWhiteSpace (s : string) : bool :=
  match s with
  | EmptyString => true
  | String c rest => isStrWhiteSpaceChar c && allWhiteSpace rest
  end.

(** What may follow a decimal numeral at the front of a string without
    changing what [parseInt] reads: nothing, or a character that is neither a
    digit nor [x] or [X] (which after a lone [0] would announce a
    hexadecimal numeral). *)
Definition endsNumeral (rest : string) : bool :=
  match rest with
  | EmptyString => true
  | String c _ => negb (isDecimalDigit c || Ascii.eqb c "x" || Ascii.eqb c "X")
  end.

(** Whether [parseInt] finds no integer at the front of a string: after the
    leading white space, an optional sign and an optional [0x] prefix, the
    string is at its end or goes on with a character that is not a digit of
    the radix. *)
Definition noIntegerAtFront (t : string) : bool :=
  let '(radix, s2) := stripHexPrefix (snd (stripSign (trimStart t))) in
  match s2 with
  | EmptyString => true
  | String c _ =>
      match digitValue radix c with
      | Some _ => false
      | None => true
      end
  end.

(** A string made of decimal digits only. *)
Fixpoint allDecimalDigits (s : string) : bool :=
  match s with
  | EmptyString => true
  | String c rest => isDecimalDigit c && allDecimalDigits rest
  end.

(** What the key of a line reads of an option: its id, its name and its
    price as printed. *)
Definition optionFields (o : SelectedOption.t) : string * string * string :=
  (SelectedOption.id o, SelectedOption.name o, JSON_number (SelectedOption.price o)).

(** The characters a printed number is made of. *)
Definition isNumberChar (c : ascii) : bool :=
  isDecimalDigit c
  || List.existsb (Ascii.eqb c)
       ["."; "e"; "+"; "-"; "N"; "a"; "I"; "n"; "f"; "i"; "t"; "y"; "u"; "l"]%char.

Fixpoint allNumberChars (s : string) : bool :=
  match s with
  | EmptyString => true
  | String c rest => isNumberChar c && allNumberChars rest
  end.

(** ** The order history (src/unnamed/part_000) *)

(** The state of [OrderHistory] and its console. *)
Record History : Set := mkHistory {
  selectedOrder : option Order.t;
  showPaymentModal : bool;
  historyLog : list string
}.

(** A number in a condition: 0, -0 and NaN are falsy. *)
Definition truthyNumber (x : number) : bool :=
  negb ((x =? 0)%float || PrimFloat.is_nan x).

(** [handlePaymentSubmit(method)] *)
Definition handlePaymentSubmit (method : string) (h : History) : History :=
  match selectedOrder h with
  | Some order =>
      match Order.id order with
      | Some id =>
          if truthy id then
            mkHistory (selectedOrder h) (showPaymentModal h)
              (historyLog h
               ++ ["Payment processed for order " +:+ id +:+ " with " +:+ method])
          else h
      | None => h
      end
  | None => h
  end.

(** [handlePaymentClick(order)] *)
Definition handlePaymentClick (order : Order.t) (h : History) : History :=
  mkHistory (Some order) true (historyLog h).

(** [handleCloseModal()] *)
Definition handleCloseModal (h : History) : History :=
  mkHistory None false (historyLog h).

(** The [orderTotal] handed to the payment modal:
    [selectedOrder?.total || 0]. *)
Definition orderTotal (h : History) : number :=
  match selectedOrder h with
  | Some order =>
      let total := OrderData.total (Order.data order) in
      if truthyNumber total then total else 0%float
  | None => 0%float
  end.

(** ** Sample data for the worked instances *)

(** A store that answers queries and refuses the update of one document. *)
Definition refusing (doc error : string) : StoreAnswers :=
  mkAnswers None (fun id => if String.eqb id doc then Some error else None).

(** A store out of reach: queries fail. *)
Definition unreachable (error : string) : StoreAnswers :=
  mkAnswers (Some error) (fun _ => None).

(** The sample store with a second pending order of the first device. *)
Definition busyStore : gmap string OrderData.t :=
  <["o4" := sampleOrder "dev-1" pending]> sampleStore.

Definition busyWorld : World := setOrdersCollection (fun _ => busyStore) sampleWorld.

Definition oatOption : OptionSpec.t := OptionSpec.mk "oat" "Oat milk" false None 20%float.

Definition sampleCatalogue : list (string * MenuItemData.t) :=
  [("espresso", MenuItemData.mk "Espresso" 120%float "coffee" None None);
   ("scone", MenuItemData.mk "Scone" 85%float "pastry" (Some "/scone.png") (Some []))].

(** An item that lists two options under one id, at 1 and at 2. *)
Definition cheapOption : OptionSpec.t := OptionSpec.mk "x" "Small" false None 1%float.
Definition dearOption : OptionSpec.t := OptionSpec.mk "x" "Large" false None 2%float.

Definition twoPrices : MenuItem.t :=
  MenuItem.mk "tea" "Tea" 90%float "tea" None (Some [cheapOption; dearOption]).

(** A chosen order whose stored total is NaN. *)
Definition brokenOrder : Order.t :=
  Order.mk (Some "o5")
    (OrderData.mk "dev-1" (FNumber 3%float) [] PrimFloat.nan completed
       1700000000000%float (Some cash)).

(** * Properties *)

(** ** The primitives on sample inputs *)

Example Number_toString_samples :
  List.map Number_toString
    [0.1; 0.1 + 0.2; 120; 15.5; 1e21; 0.0000001; -0.5; 0 / 0]%float
  = ["0.1"; "0.30000000000000004"; "120"; "15.5"; "1e+21"; "1e-7"; "-0.5"; "NaN"].
Proof. vm_compute. reflexivity. Qed.

Example parseInt_samples :
  List.map parseInt ["5"; " 12abc"; "0x1F"; "-7.9"; "abc"; " "; "0x"; "Infinity"]
  = [5; 12; 31; -7; PrimFloat.nan; PrimFloat.nan; PrimFloat.nan; PrimFloat.nan]%float.
Proof. vm_compute. reflexivity. Qed.

Example parseInt_negative_zero : parseInt "-0" = PrimFloat.neg_zero.
Proof. vm_compute. reflexivity. Qed.

Example Z2Number_rounds : Z2Number 9007199254740993 = 9007199254740992%float.
Proof. vm_compute. reflexivity. Qed.

Example JSON_stringify_sample :
  let q := QuoteJSONString in
  JSON_stringify [oatMilk; soyMilk]
  = "[{" +:+ q "id" +:+ ":" +:+ q "oat" +:+ "," +:+ q "name" +:+ ":"
    +:+ q "Oat milk" +:+ "," +:+ q "price" +:+ ":20},{"
    +:+ q "id" +:+ ":" +:+ q "soy" +:+ "," +:+ q "name" +:+ ":"
    +:+ q "Soy milk" +:+ "," +:+ q "price" +:+ ":15}]".
Proof. vm_compute. reflexivity. Qed.

Example QuoteJSONString_sample :
  QuoteJSONString (String "a" (String dquote (String (ascii_of_nat 10) "b")))
  = String dquote
      (String "a" (String backslash (String dquote (String backslash
         (String "n" (String "b" (String dquote EmptyString))))))).
Proof. vm_compute. reflexivity. Qed.

Example JSON_stringify_empty : JSON_stringify [] = "[]".
Proof. reflexivity. Qed.

(** ** Strings and the serialized key *)

Lemma append_cons (x : ascii) (a b : string) :
  String x a +:+ b = String x (a +:+ b).
Proof. reflexivity. Qed.

Lemma append_nil (b : string) : EmptyString +:+ b = b.
Proof. reflexivity. Qed.

Lemma append_assoc (a b c : string) : (a +:+ b) +:+ c = a +:+ (b +:+ c).
Proof.
  induction a as [|x a IH]; [done|].
  by rewrite !append_cons, IH.
Qed.

Ltac push_append :=
  repeat (rewrite append_assoc || rewrite append_cons || rewrite append_nil).

(** One escaped code unit is read back as that code unit. *)
Lemma unescapeString_escapeChar (c : ascii) (tail : string) :
  unescapeString (escapeChar c +:+ tail)
  = match unescapeString tail with
    | Some (str, after) => Some (String c str, after)
    | None => None
    end.
Proof. destruct c as [[] [] [] [] [] [] [] []]; reflexivity. Qed.

Lemma unescapeString_escapeString (s rest : string) :
  unescapeString (escapeString s +:+ String dquote rest) = Some (s, rest).
Proof.
  induction s as [|c s IH]; [done|].
  cbn [escapeString]. rewrite append_assoc.
  by rewrite unescapeString_escapeChar, IH.
Qed.

(** Round trip: a quoted string followed by any text is read back whole. *)
Lemma readJSONString_quote (s rest : string) :
  readJSONString (QuoteJSONString s +:+ rest) = Some (s, rest).
Proof.
  unfold QuoteJSONString. push_append.
  cbn [readJSONString]. change (Ascii.eqb dquote dquote) with true. cbn iota.
  apply unescapeString_escapeString.
Qed.

Lemma QuoteJSONString_prefix_free (s1 s2 rest1 rest2 : string) :
  QuoteJSONString s1 +:+ rest1 = QuoteJSONString s2 +:+ rest2 ->
  s1 = s2 /\ rest1 = rest2.
Proof.
  intros Heq. apply (f_equal readJSONString) in Heq.
  rewrite !readJSONString_quote in Heq. by inversion Heq.
Qed.

(** The serialization of an option starts with its quoted id. *)
Lemma stringifyOption_id (o : SelectedOption.t) (tail : string) :
  stringifyOption o +:+ tail
  = String "{" (QuoteJSONString "id" +:+ String ":"
      (QuoteJSONString (SelectedOption.id o) +:+ afterId o +:+ tail)).
Proof.
  unfold stringifyOption, afterId.
  generalize (JSON_number (SelectedOption.price o)) as price.
  generalize (QuoteJSONString (SelectedOption.id o)) as qid.
  generalize (QuoteJSONString (SelectedOption.name o)) as qname.
  generalize (QuoteJSONString "id") as kid.
  generalize (QuoteJSONString "name") as kname.
  generalize (QuoteJSONString "price") as kprice.
  intros. push_append. reflexivity.
Qed.

(** The key is sensitive to the order of the options: two options with
    different ids, listed in the two orders, serialize differently. *)
Lemma JSON_stringify_order (a b : SelectedOption.t) :
  SelectedOption.id a <> SelectedOption.id b ->
  JSON_stringify [a; b] <> JSON_stringify [b; a].
Proof.
  intros Hid Heq. apply Hid.
  unfold JSON_stringify in Heq. cbn [List.map joinComma] in Heq.
  repeat (rewrite append_assoc in Heq || rewrite append_cons in Heq
          || rewrite append_nil in Heq).
  rewrite !stringifyOption_id in Heq.
  injection Heq as Heq.
  repeat (rewrite append_assoc in Heq || rewrite append_cons in Heq
          || rewrite append_nil in Heq).
  apply (f_equal unescapeString) in Heq.
  rewrite !unescapeString_escapeString in Heq. by inversion Heq.
Qed.

(** ** Integers as doubles *)

Section Digits.
Local Open Scope Z_scope.

Lemma digits2_pos_size (p : positive) : digits2_pos p = Pos.size p.
Proof. induction p as [p IH|p IH|]; simpl; by rewrite ?IH. Qed.

Lemma digits_bounds (p : positive) :
  2 ^ (Zpos (digits2_pos p) - 1) <= Zpos p < 2 ^ Zpos (digits2_pos p).
Proof.
  rewrite digits2_pos_size. split.
  - pose proof (Pos.size_le p) as Hle.
    apply (Pos2Z.pos_le_pos) in Hle. rewrite Pos2Z.inj_pow in Hle.
    change (Zpos p~0) with (2 * Zpos p) in Hle.
    replace (Zpos (Pos.size p)) with (Zpos (Pos.size p) - 1 + 1) in Hle by lia.
    rewrite Z.pow_add_r, Z.pow_1_r in Hle by lia. lia.
  - pose proof (Pos.size_gt p) as Hgt.
    apply (Pos2Z.pos_lt_pos) in Hgt. by rewrite Pos2Z.inj_pow in Hgt.
Qed.

Lemma digits_le (p : positive) (d : Z) :
  Zpos p < 2 ^ d -> Zpos (digits2_pos p) <= d.
Proof.
  intros Hlt. destruct (digits_bounds p) as [Hlo _].
  destruct (Z_le_gt_dec (Zpos (digits2_pos p)) d) as [|Hgt]; [done|].
  assert (2 ^ d <= 2 ^ (Zpos (digits2_pos p) - 1)); [|lia].
  destruct (Z_lt_le_dec d 0) as [Hd|Hd].
  - rewrite (Z.pow_neg_r 2 d Hd). apply Z.pow_nonneg. lia.
  - apply Z.pow_le_mono_r; lia.
Qed.

Lemma digits_ge (p : positive) (d : Z) :
  2 ^ (d - 1) <= Zpos p -> d <= Zpos (digits2_pos p).
Proof.
  intros Hle. destruct (digits_bounds p) as [_ Hhi].
  destruct (Z_le_gt_dec d (Zpos (digits2_pos p))) as [|Hgt]; [done|].
  assert (2 ^ Zpos (digits2_pos p) <= 2 ^ (d - 1)); [|lia].
  apply Z.pow_le_mono_r; lia.
Qed.

Lemma Zpos_iter_xO (m k : positive) :
  Zpos (Pos.iter xO m k) = Zpos m * 2 ^ Zpos k.
Proof.
  induction k as [|k IH] using Pos.peano_ind.
  - simpl. lia.
  - rewrite Pos.iter_succ, Pos2Z.inj_xO, IH, Pos2Z.inj_succ, Z.pow_succ_r; lia.
Qed.

Lemma digits_iter_xO (m k : positive) :
  digits2_pos (Pos.iter xO m k) = (digits2_pos m + k)%positive.
Proof.
  induction k as [|k IH] using Pos.peano_ind.
  - simpl. lia.
  - rewrite Pos.iter_succ. simpl. rewrite IH. lia.
Qed.

Lemma iter_pos_iter {A : Type} (f : A -> A) (p : positive) (x : A) :
  SpecFloat.iter_pos f p x = Pos.iter f x p.
Proof.
  revert x. induction p as [p IH|p IH|]; intros x; simpl; [|by rewrite !IH|done].
  by rewrite !IH, <- !Pos.iter_swap.
Qed.

(** Shifting out the zeros that were shifted in is exact. *)
Lemma shr_iter_xO (m k : positive) :
  SpecFloat.iter_pos shr_1 k (Build_shr_record (Zpos (Pos.iter xO m k)) false false)
  = Build_shr_record (Zpos m) false false.
Proof.
  rewrite iter_pos_iter.
  induction k as [|k IH] using Pos.peano_ind; [done|].
  by rewrite Pos.iter_succ_r, Pos.iter_succ.
Qed.
End Digits.

Section Rounding.
Local Open Scope Z_scope.

Lemma shr_fexp_canonical (m : positive) (e : Z) :
  fexp prec emax (Zpos (digits2_pos m) + e) = e ->
  shr_fexp prec emax (Zpos m) e loc_Exact
  = (Build_shr_record (Zpos m) false false, e).
Proof.
  intros Hcanon. unfold shr_fexp. cbn [Zdigits2 shr_record_of_loc].
  by rewrite Hcanon, Z.sub_diag.
Qed.

Lemma shr_fexp_shift (m k : positive) (e : Z) :
  fexp prec emax (Zpos (digits2_pos m) + (e + Zpos k)) = e + Zpos k ->
  shr_fexp prec emax (Zpos (Pos.iter xO m k)) e loc_Exact
  = (Build_shr_record (Zpos m) false false, e + Zpos k).
Proof.
  intros Hcanon. unfold shr_fexp. cbn [Zdigits2 shr_record_of_loc].
  rewrite digits_iter_xO.
  replace (Zpos (digits2_pos m + k) + e)
    with (Zpos (digits2_pos m) + (e + Zpos k)) by lia.
  rewrite Hcanon.
  replace (e + Zpos k - e) with (Zpos k) by lia.
  cbn [shr]. by rewrite shr_iter_xO.
Qed.

(** A significand that is already in place is left alone. *)
Lemma binary_round_aux_canonical (s : bool) (m : positive) (e : Z) :
  canonical_mantissa prec emax m e = true -> e <= emax - prec ->
  binary_round_aux prec emax s (Zpos m) e loc_Exact = S754_finite s m e.
Proof.
  unfold canonical_mantissa. intros Hcanon%Z.eqb_eq He.
  unfold binary_round_aux. rewrite (shr_fexp_canonical m e Hcanon).
  cbn [shr_m loc_of_shr_record round_nearest_even].
  rewrite (shr_fexp_canonical m e Hcanon). cbn [shr_m].
  by rewrite (proj2 (Z.leb_le _ _) He).
Qed.

(** A significand with [k] zeros too many at its end loses exactly them. *)
Lemma binary_round_aux_shift (s : bool) (m k : positive) (e : Z) :
  canonical_mantissa prec emax m (e + Zpos k) = true ->
  e + Zpos k <= emax - prec ->
  binary_round_aux prec emax s (Zpos (Pos.iter xO m k)) e loc_Exact
  = S754_finite s m (e + Zpos k).
Proof.
  unfold canonical_mantissa. intros Hcanon%Z.eqb_eq He.
  unfold binary_round_aux. rewrite (shr_fexp_shift m k e Hcanon).
  cbn [shr_m loc_of_shr_record round_nearest_even].
  rewrite (shr_fexp_canonical m _ Hcanon). cbn [shr_m].
  by rewrite (proj2 (Z.leb_le _ _) He).
Qed.

Lemma fexp_small (d : Z) : 0 <= d -> fexp prec emax d = d - 53.
Proof. intros Hd. unfold fexp, SpecFloat.emin, prec, emax. lia. Qed.

(** The pair [shl_align] builds for an integer of at most 53 bits. *)
Lemma shl_align_int (n : positive) :
  Zpos (digits2_pos n) <= 53 ->
  exists m : positive,
    shl_align n 0 (Zpos (digits2_pos n) - prec) = (m, Zpos (digits2_pos n) - 53)
    /\ Zpos m = Zpos n * 2 ^ (53 - Zpos (digits2_pos n))
    /\ Zpos (digits2_pos m) = 53.
Proof.
  intros Hd. unfold shl_align, prec.
  destruct (Zpos (digits2_pos n) - 53 - 0) as [|k|k] eqn:Hk; [|lia|].
  - exists n. replace (Zpos (digits2_pos n) - 53) with 0 by lia.
    replace (53 - Zpos (digits2_pos n)) with 0 by lia.
    repeat split; lia.
  - exists (Pos.iter xO n k). repeat split.
    + rewrite Zpos_iter_xO. do 2 f_equal. lia.
    + rewrite digits_iter_xO. lia.
Qed.

Lemma intSF_spec (n : positive) :
  Zpos (digits2_pos n) <= 53 ->
  exists m : positive,
    intSF n = S754_finite false m (Zpos (digits2_pos n) - 53)
    /\ Zpos m = Zpos n * 2 ^ (53 - Zpos (digits2_pos n))
    /\ canonical_mantissa prec emax m (Zpos (digits2_pos n) - 53) = true.
Proof.
  intros Hd. destruct (shl_align_int n Hd) as (m & Hs & Hm & Hdm).
  exists m. unfold intSF. rewrite Hs. repeat split; [done|].
  unfold canonical_mantissa. apply Z.eqb_eq. rewrite Hdm.
  rewrite fexp_small; lia.
Qed.

(** Rounding [n * 2^j] at exponent [-j], for an integer [n] of at most 53
    bits, gives [n] itself. *)
Lemma binary_round_aux_int (M n : positive) (j : Z) :
  Zpos M = Zpos n * 2 ^ j -> 0 <= j ->
  Zpos (digits2_pos n) <= 53 -> 53 <= Zpos (digits2_pos n) + j ->
  binary_round_aux prec emax false (Zpos M) (- j) loc_Exact = intSF n.
Proof.
  intros HM Hj Hd Hdj.
  destruct (intSF_spec n Hd) as (m & -> & Hm & Hcanon).
  set (d := Zpos (digits2_pos n)) in *.
  destruct (Z.eq_dec (j - (53 - d)) 0) as [Hk|Hk].
  - replace (- j) with (d - 53) by lia.
    assert (M = m) as ->.
    { apply Pos2Z.inj. rewrite HM, Hm. do 2 f_equal. lia. }
    apply binary_round_aux_canonical; [done|]. unfold emax, prec. lia.
  - destruct (j - (53 - d)) as [|k|k] eqn:Hjk; [done| |lia].
    assert (M = Pos.iter xO m k) as ->.
    { apply Pos2Z.inj. rewrite Zpos_iter_xO, HM, Hm, <- Z.mul_assoc.
      rewrite <- Z.pow_add_r by lia. do 2 f_equal. lia. }
    replace (d - 53) with (- j + Zpos k) by lia.
    apply binary_round_aux_shift.
    + by replace (- j + Zpos k) with (d - 53) by lia.
    + unfold emax, prec. lia.
Qed.
End Rounding.

Section IntegerArithmetic.
Local Open Scope Z_scope.

Lemma digits_mul_pow2 (M n : positive) (j : Z) :
  Zpos M = Zpos n * 2 ^ j -> 0 <= j ->
  Zpos (digits2_pos M) = Zpos (digits2_pos n) + j.
Proof.
  intros HM Hj. destruct (digits_bounds n) as [Hlo Hhi].
  assert (0 < 2 ^ j) by (apply Z.pow_pos_nonneg; lia).
  apply Z.le_antisymm.
  - apply digits_le. rewrite HM, Z.pow_add_r by lia. nia.
  - apply digits_ge. rewrite HM.
    replace (Zpos (digits2_pos n) + j - 1) with (Zpos (digits2_pos n) - 1 + j) by lia.
    rewrite Z.pow_add_r by lia. nia.
Qed.

Lemma shl_align_fst (m : positive) (e e' : Z) :
  e' <= e -> Zpos (fst (shl_align m e e')) = Zpos m * 2 ^ (e - e').
Proof.
  intros He. unfold shl_align.
  destruct (e' - e) as [|k|k] eqn:Hk; [|lia|]; cbn [fst].
  - replace (e - e') with 0 by lia. lia.
  - rewrite Zpos_iter_xO. do 2 f_equal. lia.
Qed.

Lemma shl_align_noop (m : positive) (e e' : Z) :
  e <= e' -> shl_align m e e' = (m, e).
Proof.
  intros He. unfold shl_align. destruct (e' - e) as [|k|k] eqn:Hk; [done|done|lia].
Qed.

Lemma binary_normalize_int (n : positive) :
  Zpos (digits2_pos n) <= 53 ->
  binary_normalize prec emax (Zpos n) 0 false = intSF n.
Proof.
  intros Hd. unfold binary_normalize, binary_round, intSF.
  rewrite Z.add_0_r, fexp_small by lia.
  destruct (shl_align_int n Hd) as (m & Hs & Hm & Hdm).
  change prec with 53 in Hs |- *. rewrite Hs.
  apply binary_round_aux_canonical; [|unfold emax, prec; lia].
  unfold canonical_mantissa. apply Z.eqb_eq. rewrite Hdm, fexp_small; lia.
Qed.

(** Rounding [n * 2^j] at exponent [-j] through [binary_normalize]. *)
Lemma binary_normalize_scaled (M n : positive) (j : Z) :
  Zpos M = Zpos n * 2 ^ j -> 0 <= j ->
  Zpos (digits2_pos n) <= 53 -> 53 <= Zpos (digits2_pos n) + j ->
  binary_normalize prec emax (Zpos M) (- j) false = intSF n.
Proof.
  intros HM Hj Hd Hdj. unfold binary_normalize, binary_round.
  rewrite (digits_mul_pow2 M n j HM Hj).
  rewrite shl_align_noop.
  - by apply binary_round_aux_int.
  - rewrite fexp_small; lia.
Qed.

Lemma SFadd_int (a b : positive) :
  Zpos a + Zpos b < 2 ^ 53 ->
  SF64add (intSF a) (intSF b) = intSF (a + b).
Proof.
  intros Hsum.
  assert (Hda : Zpos (digits2_pos a) <= 53) by (apply digits_le; lia).
  assert (Hdb : Zpos (digits2_pos b) <= 53) by (apply digits_le; lia).
  assert (Hdc : Zpos (digits2_pos (a + b)) <= 53) by (apply digits_le; lia).
  destruct (intSF_spec a Hda) as (ma & -> & Hma & _).
  destruct (intSF_spec b Hdb) as (mb & -> & Hmb & _).
  set (da := Zpos (digits2_pos a)) in *. set (db := Zpos (digits2_pos b)) in *.
  unfold SF64add, SFadd. cbn [cond_Zopp].
  set (ez := Z.min (da - 53) (db - 53)).
  assert (Hj : 0 <= - ez) by lia.
  pose proof (shl_align_fst ma (da - 53) ez ltac:(lia)) as Ha.
  pose proof (shl_align_fst mb (db - 53) ez ltac:(lia)) as Hb.
  set (xa := fst (shl_align ma (da - 53) ez)) in *.
  set (xb := fst (shl_align mb (db - 53) ez)) in *.
  change (Zpos xa + Zpos xb) with (Zpos (xa + xb)).
  assert (HM : Zpos (xa + xb) = Zpos (a + b) * 2 ^ (- ez)).
  { rewrite !Pos2Z.inj_add, Ha, Hb, Hma, Hmb, <- !Z.mul_assoc.
    rewrite <- !Z.pow_add_r by lia.
    replace (53 - da + (da - 53 - ez)) with (- ez) by lia.
    replace (53 - db + (db - 53 - ez)) with (- ez) by lia. lia. }
  assert (Hda' : da <= Zpos (digits2_pos (a + b))).
  { apply digits_ge. pose proof (digits_bounds a) as [Hlo _].
    fold da in Hlo. rewrite Pos2Z.inj_add. lia. }
  assert (Hdb' : db <= Zpos (digits2_pos (a + b))).
  { apply digits_ge. pose proof (digits_bounds b) as [Hlo _].
    fold db in Hlo. rewrite Pos2Z.inj_add. lia. }
  pose proof (binary_normalize_scaled (xa + xb) (a + b) (- ez) HM Hj Hdc
                ltac:(lia)) as Hnorm.
  by rewrite Z.opp_involutive in Hnorm.
Qed.

Lemma SFmul_int (a b : positive) :
  Zpos a * Zpos b < 2 ^ 53 ->
  SF64mul (intSF a) (intSF b) = intSF (a * b).
Proof.
  intros Hprod.
  assert (Hda : Zpos (digits2_pos a) <= 53) by (apply digits_le; nia).
  assert (Hdb : Zpos (digits2_pos b) <= 53) by (apply digits_le; nia).
  assert (Hdc : Zpos (digits2_pos (a * b)) <= 53) by (apply digits_le; lia).
  destruct (intSF_spec a Hda) as (ma & -> & Hma & _).
  destruct (intSF_spec b Hdb) as (mb & -> & Hmb & _).
  set (da := Zpos (digits2_pos a)) in *. set (db := Zpos (digits2_pos b)) in *.
  unfold SF64mul, SFmul. cbn [xorb].
  replace (da - 53 + (db - 53)) with (- (106 - da - db)) by lia.
  assert (1 <= da) by (unfold da; lia). assert (1 <= db) by (unfold db; lia).
  apply binary_round_aux_int; [|lia|done|].
  - rewrite !Pos2Z.inj_mul, Hma, Hmb.
    replace (106 - da - db) with ((53 - da) + (53 - db)) by lia.
    rewrite Z.pow_add_r by lia. lia.
  - assert (da + db - 1 <= Zpos (digits2_pos (a * b))); [|lia].
    apply digits_ge. rewrite Pos2Z.inj_mul.
    replace (da + db - 1 - 1) with ((da - 1) + (db - 1)) by lia.
    rewrite Z.pow_add_r by lia.
    pose proof (digits_bounds a) as [Hloa _]. pose proof (digits_bounds b) as [Hlob _].
    fold da in Hloa. fold db in Hlob.
    assert (0 < 2 ^ (da - 1)) by (apply Z.pow_pos_nonneg; lia).
    assert (0 < 2 ^ (db - 1)) by (apply Z.pow_pos_nonneg; lia).
    nia.
Qed.
End IntegerArithmetic.

Section IntegerNumbers.
Local Open Scope Z_scope.

Lemma Prim2SF_Z2Number_pos (n : positive) :
  Zpos n < 2 ^ 53 -> Prim2SF (Z2Number (Zpos n)) = intSF n.
Proof.
  intros Hn. assert (Hd : Zpos (digits2_pos n) <= 53) by (by apply digits_le).
  unfold Z2Number. rewrite (binary_normalize_int n Hd).
  apply Prim2SF_SF2Prim.
  destruct (intSF_spec n Hd) as (m & -> & _ & Hcanon).
  cbn [valid_binary]. unfold bounded. rewrite Hcanon. cbn [andb].
  apply Z.leb_le. unfold emax, prec. lia.
Qed.

Lemma Prim2SF_Z2Number_zero : Prim2SF (Z2Number 0) = S754_zero false.
Proof. reflexivity. Qed.

(** Adding two non-negative integers as doubles is exact as long as the
    sum stays below [2^53]. *)
Lemma Z2Number_add (a b : Z) :
  0 <= a -> 0 <= b -> a + b < 2 ^ 53 ->
  (Z2Number a + Z2Number b)%float = Z2Number (a + b).
Proof.
  intros Ha Hb Hsum. apply Prim2SF_inj. rewrite add_spec.
  destruct a as [|a|a], b as [|b|b]; try lia.
  - reflexivity.
  - rewrite Prim2SF_Z2Number_zero, Z.add_0_l, Prim2SF_Z2Number_pos by lia.
    assert (Hd : Zpos (digits2_pos b) <= 53) by (apply digits_le; lia).
    by destruct (intSF_spec b Hd) as (m & -> & _).
  - rewrite Prim2SF_Z2Number_zero, Z.add_0_r, Prim2SF_Z2Number_pos by lia.
    assert (Hd : Zpos (digits2_pos a) <= 53) by (apply digits_le; lia).
    by destruct (intSF_spec a Hd) as (m & -> & _).
  - change (Zpos a + Zpos b) with (Zpos (a + b)).
    rewrite !Prim2SF_Z2Number_pos by lia. by apply SFadd_int.
Qed.

(** Multiplying two non-negative integers below [2^53] as doubles is exact
    as long as the product stays below [2^53]. *)
Lemma Z2Number_mul (a b : Z) :
  0 <= a < 2 ^ 53 -> 0 <= b < 2 ^ 53 -> a * b < 2 ^ 53 ->
  (Z2Number a * Z2Number b)%float = Z2Number (a * b).
Proof.
  intros Ha Hb Hprod. apply Prim2SF_inj. rewrite mul_spec.
  destruct a as [|a|a], b as [|b|b]; try lia.
  - reflexivity.
  - rewrite Z.mul_0_l, Prim2SF_Z2Number_zero.
    rewrite Prim2SF_Z2Number_pos by lia.
    assert (Hd : Zpos (digits2_pos b) <= 53) by (apply digits_le; lia).
    by destruct (intSF_spec b Hd) as (m & -> & _).
  - rewrite Z.mul_0_r, Prim2SF_Z2Number_zero.
    rewrite Prim2SF_Z2Number_pos by lia.
    assert (Hd : Zpos (digits2_pos a) <= 53) by (apply digits_le; lia).
    by destruct (intSF_spec a Hd) as (m & -> & _).
  - change (Zpos a * Zpos b) with (Zpos (a * b)).
    rewrite !Prim2SF_Z2Number_pos by lia. by apply SFmul_int.
Qed.
End IntegerNumbers.

(** ** The cart total *)

Section CartTotal.
Local Open Scope float_scope.

Lemma cartTotal_from (cart : Cart) (start : number) :
  List.fold_left (fun total item => total + CartItem.price item * CartItem.quantity item)
    cart start
  = List.fold_left PrimFloat.add (List.map lineAmount cart) start.
Proof.
  revert start. induction cart as [|item cart IH]; intros start; simpl; [done|].
  by rewrite IH.
Qed.

Lemma cartTotal_amounts (cart : Cart) :
  cartTotal cart = List.fold_left PrimFloat.add (List.map lineAmount cart) 0.
Proof. apply cartTotal_from. Qed.

Lemma cartTotal_snoc (cart : Cart) (line : CartItem.t) :
  cartTotal (cart ++ [line]) = cartTotal cart + lineAmount line.
Proof. unfold cartTotal. by rewrite List.fold_left_app. Qed.

Lemma lineAmount_withSelectedOptions selected (line : CartItem.t) :
  lineAmount (CartItem.withSelectedOptions selected line) = lineAmount line.
Proof. done. Qed.
End CartTotal.

(** C1, as stated, fails: on [cartWithOption] the page's total is 100 while
    the sum that counts option prices is 120. *)
Lemma cartTotal_omits_option_prices :
  cartTotal cartWithOption = 100%float
  /\ specTotal cartWithOption = 120%float
  /\ cartTotal cartWithOption <> specTotal cartWithOption.
Proof. vm_compute. repeat split; discriminate. Qed.

(** C1, amended: the cart total is the sum, line after line from 0, of
    [item.price * item.quantity]: it is 0 for the empty cart and a line added
    at the end adds its price times its quantity.  The selected options
    of a line do not contribute: replacing them leaves the total as it is. *)
Theorem cartTotal_is_sum_of_price_times_quantity :
  (forall cart : Cart,
     cartTotal cart
     = List.fold_left PrimFloat.add
         (List.map (fun line => (CartItem.price line * CartItem.quantity line)%float) cart)
         0%float)
  /\ cartTotal [] = 0%float
  /\ (forall (cart : Cart) (line : CartItem.t),
        cartTotal (cart ++ [line])
        = (cartTotal cart + CartItem.price line * CartItem.quantity line)%float)
  /\ (forall (cart : Cart) (reselect : CartItem.t -> list SelectedOption.t),
        cartTotal
          (List.map (fun line => CartItem.withSelectedOptions (reselect line) line) cart)
        = cartTotal cart).
Proof.
  split; [exact cartTotal_amounts|]. split; [done|]. split.
  - intros cart line. apply cartTotal_snoc.
  - intros cart reselect. rewrite !cartTotal_amounts. f_equal.
    rewrite List.map_map. apply List.map_ext. intros line.
    apply lineAmount_withSelectedOptions.
Qed.

(** ** Reordering the cart *)

Section Reordering.
Local Open Scope Z_scope.

Lemma exactTotal_Permutation (cart cart' : Cart) :
  cart ≡ₚ cart' -> exactTotal cart = exactTotal cart'.
Proof.
  unfold exactTotal.
  induction 1 as [|line l l' _ IH|x y l|l1 l2 l3 _ IH1 _ IH2]; simpl; lia.
Qed.

Lemma exactLine_nonneg (line : CartItem.t) :
  wholeLine line -> 0 <= exactLine line.
Proof. intros [[_ Hp] [_ Hq]]. unfold exactLine. nia. Qed.

Lemma exactTotal_nonneg (cart : Cart) :
  (forall line, In line cart -> wholeLine line) -> 0 <= exactTotal cart.
Proof.
  induction cart as [|line cart IH]; intros Hwhole; simpl; [done|].
  pose proof (exactLine_nonneg line (Hwhole line (or_introl eq_refl))).
  assert (0 <= exactTotal cart) by (apply IH; intros l Hl; apply Hwhole; by right).
  lia.
Qed.

(** The amount of a line of whole numbers is computed exactly. *)
Lemma lineAmount_exact (line : CartItem.t) :
  wholeLine line -> exactLine line < 2 ^ 53 ->
  lineAmount line = Z2Number (exactLine line).
Proof.
  intros [[Hp Hpr] [Hq Hqr]] Hlt. unfold lineAmount, exactLine in *.
  rewrite Hp, Hq at 1. by apply Z2Number_mul.
Qed.

(** So is the running total, from any exact start. *)
Lemma fold_total_exact (cart : Cart) (start : Z) :
  (forall line, In line cart -> wholeLine line) ->
  0 <= start -> start + exactTotal cart < 2 ^ 53 ->
  List.fold_left
    (fun total item => (total + CartItem.price item * CartItem.quantity item)%float)
    cart (Z2Number start)
  = Z2Number (start + exactTotal cart).
Proof.
  revert start. induction cart as [|line cart IH]; intros start Hwhole Hs Hlt.
  - simpl. by rewrite Z.add_0_r.
  - cbn [List.fold_left exactTotal List.fold_right] in *.
    fold (exactTotal cart) in *.
    assert (Hline : wholeLine line) by (apply Hwhole; by left).
    assert (Hrest : forall l, In l cart -> wholeLine l)
      by (intros l Hl; apply Hwhole; by right).
    pose proof (exactLine_nonneg line Hline).
    pose proof (exactTotal_nonneg cart Hrest).
    change (CartItem.price line * CartItem.quantity line)%float
      with (lineAmount line).
    rewrite (lineAmount_exact line Hline) by lia.
    rewrite Z2Number_add by lia.
    rewrite IH by (done || lia). f_equal. lia.
Qed.

Lemma cartTotal_exact (cart : Cart) :
  (forall line, In line cart -> wholeLine line) ->
  exactTotal cart < 2 ^ 53 ->
  cartTotal cart = Z2Number (exactTotal cart).
Proof.
  intros Hwhole Hlt. unfold cartTotal.
  change 0%float with (Z2Number 0).
  by rewrite fold_total_exact.
Qed.
End Reordering.

(** C9, as stated, fails: the lines priced 0.1, 0.2 and 0.3 total
    0.6000000000000001 in this order and 0.6 in the reverse order, the sums
    being rounded at each step. *)
Lemma cartTotal_depends_on_order :
  cartDescending ≡ₚ cartAscending
  /\ cartTotal cartAscending = 0.6000000000000001%float
  /\ cartTotal cartDescending = 0.6%float
  /\ cartTotal cartDescending <> cartTotal cartAscending.
Proof.
  split; [|vm_compute; repeat split; discriminate].
  change cartDescending with (List.rev cartAscending).
  symmetry. apply Permutation_rev.
Qed.

(** C9, amended: when every price and every quantity of the cart is a whole
    number from 0 to [2^53 - 1] and the exact total is below [2^53], the
    total computed is that exact total, and so the total of any reordering
    of the cart is the same. *)
Theorem cartTotal_reordering_of_whole_amounts (cart cart' : Cart) :
  (forall line, In line cart ->
     wholeNumber (CartItem.price line) /\ wholeNumber (CartItem.quantity line)) ->
  (exactTotal cart < 2 ^ 53)%Z ->
  cart ≡ₚ cart' ->
  cartTotal cart' = cartTotal cart
  /\ cartTotal cart = Z2Number (exactTotal cart).
Proof.
  intros Hwhole Hlt Hperm.
  assert (Hwhole' : forall line, In line cart' -> wholeLine line).
  { intros line Hin. apply Hwhole. apply list_elem_of_In.
    rewrite Hperm. by apply list_elem_of_In. }
  rewrite (cartTotal_exact cart Hwhole Hlt).
  rewrite (cartTotal_exact cart' Hwhole').
  - by rewrite (exactTotal_Permutation _ _ Hperm).
  - by rewrite <- (exactTotal_Permutation _ _ Hperm).
Qed.

(** ** Comparisons of numbers *)

Lemma SFcompare_antisym (x y : spec_float) :
  SFcompare y x = option_map CompOpp (SFcompare x y).
Proof.
  destruct x as [sx|sx| |sx mx ex], y as [sy|sy| |sy my ey];
    try destruct sx; try destruct sy; try reflexivity; simpl;
    rewrite (Z.compare_antisym ex ey);
    destruct (ex ?= ey)%Z; simpl; try reflexivity;
    rewrite ?CompOpp_involutive, Pos.compare_cont_antisym; reflexivity.
Qed.

(** [1 <= x] excludes [x < 1], as for the reals; a NaN satisfies neither. *)
Lemma leb_one_not_ltb (x : number) :
  (1 <=? x)%float = true -> (x <? 1)%float = false.
Proof.
  rewrite leb_spec, ltb_spec. unfold SFleb, SFltb.
  rewrite (SFcompare_antisym (Prim2SF 1%float) (Prim2SF x)).
  by destruct (SFcompare (Prim2SF 1%float) (Prim2SF x)) as [[]|].
Qed.

(** ** Cart lines *)

Section CartLines.
Variables (itemId : string) (selected : list SelectedOption.t).

Let key := sameLine itemId selected.

Lemma find_key_None (currentCart : Cart) :
  (forall line, In line currentCart -> key line = false) ->
  List.find key currentCart = None.
Proof.
  induction currentCart as [|line rest IH]; intros Hno; simpl; [done|].
  rewrite (Hno line) by (by left). apply IH. intros l Hl. apply Hno. by right.
Qed.

Lemma find_key_Some (currentCart : Cart) :
  (exists line, In line currentCart /\ key line = true) ->
  exists found, List.find key currentCart = Some found.
Proof.
  intros (line & Hin & Hkey).
  destruct (List.find key currentCart) as [found|] eqn:Hfind; [eauto|].
  by rewrite (List.find_none _ _ Hfind line Hin) in Hkey.
Qed.

Lemma map_key_id (f : CartItem.t -> CartItem.t) (currentCart : Cart) :
  (forall line, In line currentCart -> key line = false) ->
  List.map (fun line => if key line then f line else line) currentCart
  = currentCart.
Proof.
  induction currentCart as [|line rest IH]; intros Hno; simpl; [done|].
  rewrite (Hno line) by (by left). f_equal. apply IH.
  intros l Hl. apply Hno. by right.
Qed.

Lemma filter_key_id (currentCart : Cart) :
  (forall line, In line currentCart -> key line = false) ->
  List.filter (fun line => negb (key line)) currentCart = currentCart.
Proof.
  induction currentCart as [|line rest IH]; intros Hno; simpl; [done|].
  rewrite (Hno line) by (by left). simpl. f_equal. apply IH.
  intros l Hl. apply Hno. by right.
Qed.

Lemma lookup_map_key (f : CartItem.t -> CartItem.t) (currentCart : Cart)
    (i : nat) (line : CartItem.t) :
  currentCart !! i = Some line ->
  List.map (fun line => if key line then f line else line) currentCart !! i
  = Some (if key line then f line else line).
Proof.
  intros Hi.
  change (List.map ?g currentCart) with (g <$> currentCart).
  by rewrite list_lookup_fmap, Hi.
Qed.
End CartLines.

Lemma sameLine_ofMenuItem (item : MenuItem.t) (q : number)
    (selected : list SelectedOption.t) :
  sameLine (MenuItem.id item) selected (CartItem.ofMenuItem item q selected) = true.
Proof. unfold sameLine. simpl. by rewrite !String.eqb_refl. Qed.


(** ** One line per key *)

Lemma sameLine_lineKey (itemId : string) (selected : list SelectedOption.t)
    (line : CartItem.t) :
  sameLine itemId selected line = true
  <-> lineKey line = (itemId, JSON_stringify selected).
Proof.
  unfold sameLine, lineKey. rewrite andb_true_iff, !String.eqb_eq.
  split; [intros [H1 H2]; by rewrite H1, H2|]. intros Heq.
  split; [exact (f_equal fst Heq)|exact (f_equal snd Heq)].
Qed.

Lemma lineKey_withQuantity (q : number) (line : CartItem.t) :
  lineKey (CartItem.withQuantity q line) = lineKey line.
Proof. reflexivity. Qed.

Lemma map_lineKey_requantify (f : CartItem.t -> number) (key : CartItem.t -> bool)
    (cart : Cart) :
  List.map lineKey
    (List.map (fun line => if key line then CartItem.withQuantity (f line) line
                           else line) cart)
  = List.map lineKey cart.
Proof.
  rewrite List.map_map. apply List.map_ext. intros line.
  by destruct (key line).
Qed.

Lemma NoDup_map_filter {A B : Type} (g : A -> B) (f : A -> bool) (l : list A) :
  NoDup (List.map g l) -> NoDup (List.map g (List.filter f l)).
Proof.
  induction l as [|x l IH]; simpl; [done|].
  rewrite NoDup_cons. intros [Hx Hl]. destruct (f x); simpl; [|by apply IH].
  apply NoDup_cons. split; [|by apply IH].
  intros Hin. apply Hx. apply list_elem_of_In in Hin. apply list_elem_of_In.
  apply List.in_map_iff in Hin as (y & Hy & Hiny).
  apply List.in_map_iff. exists y. split; [done|].
  by apply List.filter_In in Hiny as [? _].
Qed.

(** Invariant: a cart the page can hold has no two lines with the same key. *)
Lemma reachableCart_keys_unique (cart : Cart) :
  reachableCart cart -> NoDup (List.map lineKey cart).
Proof.
  induction 1 as [|item selected cart _ IH|itemId q selected cart _ IH].
  - apply NoDup_nil_2.
  - unfold placeOrderUpdate.
    destruct (List.find (sameLine (MenuItem.id item) selected) cart) eqn:Hfind.
    + by rewrite (map_lineKey_requantify
                    (fun line => (CartItem.quantity line + 1)%float)).
    + rewrite List.map_app. cbn [List.map].
      apply NoDup_app. split; [done|]. split; [|apply NoDup_singleton].
      intros key Hin ->%list_elem_of_singleton.
      apply list_elem_of_In, List.in_map_iff in Hin as (line & Hkey & Hline).
      assert (sameLine (MenuItem.id item) selected line = true) as Hsame.
      { apply sameLine_lineKey. rewrite Hkey. reflexivity. }
      by rewrite (List.find_none _ _ Hfind line Hline) in Hsame.
  - unfold updateQuantityUpdate. destruct (q <? 1)%float.
    + by apply NoDup_map_filter.
    + by rewrite (map_lineKey_requantify (fun _ => q)).
Qed.

Lemma filter_sameLine_absent (itemId : string) (selected : list SelectedOption.t)
    (cart : Cart) :
  (itemId, JSON_stringify selected) ∉ List.map lineKey cart ->
  List.filter (sameLine itemId selected) cart = [].
Proof.
  induction cart as [|line cart IH]; simpl; [done|].
  rewrite not_elem_of_cons. intros [Hline Hrest].
  destruct (sameLine itemId selected line) eqn:Hsame; [|by apply IH].
  apply sameLine_lineKey in Hsame. congruence.
Qed.

(** With unique keys, at most one line answers to a key. *)
Lemma count_sameLine_unique (itemId : string) (selected : list SelectedOption.t)
    (cart : Cart) :
  NoDup (List.map lineKey cart) ->
  length (List.filter (sameLine itemId selected) cart) <= 1.
Proof.
  induction cart as [|line cart IH]; simpl; [lia|].
  rewrite NoDup_cons. intros [Hline Hrest].
  destruct (sameLine itemId selected line) eqn:Hsame; [|by apply IH].
  apply sameLine_lineKey in Hsame. rewrite Hsame in Hline.
  rewrite (filter_sameLine_absent _ _ _ Hline). simpl. lia.
Qed.

Lemma count_sameLine_present (itemId : string) (selected : list SelectedOption.t)
    (cart : Cart) :
  (exists line, In line cart /\ sameLine itemId selected line = true) ->
  1 <= length (List.filter (sameLine itemId selected) cart).
Proof.
  intros (line & Hin & Hsame).
  assert (In line (List.filter (sameLine itemId selected) cart)) as Hf
    by (by apply List.filter_In).
  destruct (List.filter (sameLine itemId selected) cart); [done|simpl; lia].
Qed.

(** In a cart the page can hold, the line of a key is one line: exactly one
    line answers to a key that is present. *)
Lemma reachableCart_one_line (itemId : string) (selected : list SelectedOption.t)
    (cart : Cart) :
  reachableCart cart ->
  (exists line, In line cart /\ sameLine itemId selected line = true) ->
  length (List.filter (sameLine itemId selected) cart) = 1.
Proof.
  intros Hreach Hex.
  pose proof (count_sameLine_unique itemId selected cart
                (reachableCart_keys_unique cart Hreach)).
  pose proof (count_sameLine_present itemId selected cart Hex). lia.
Qed.

(** C2: [handlePlaceOrder] on a cart that has a line with the same item id
    and an equally serialized option set adds 1 to the quantity of such a
    line, leaves the other lines as they are and adds no line; on a cart
    with no such line it appends the item as a new last line with quantity
    1, and placing the same order again makes that one line's quantity 2.
    The key depends on the order of the options: the same two options
    (of different ids) in the other order make a second line.  Adding 1 is
    the addition of doubles; on a quantity that is a whole number from 0 to
    [2^53 - 2] it gives the next whole number.  In a cart the page can hold
    the line with the key is one line. *)
Theorem handlePlaceOrder_increments_or_appends
    (item : MenuItem.t) (selected : list SelectedOption.t) (currentCart : Cart) :
  let key := sameLine (MenuItem.id item) selected in
  let placed := placeOrderUpdate item selected currentCart in
  ((exists line, In line currentCart /\ key line = true) ->
     length placed = length currentCart
     /\ forall (i : nat) (line : CartItem.t),
          currentCart !! i = Some line ->
          placed !! i
          = Some (if key line
                  then CartItem.withQuantity (CartItem.quantity line + 1)%float line
                  else line))
  /\ ((forall line, In line currentCart -> key line = false) ->
        placed = currentCart ++ [CartItem.ofMenuItem item 1%float selected]
        /\ placeOrderUpdate item selected placed
           = currentCart ++ [CartItem.ofMenuItem item 2%float selected])
  /\ (forall a b : SelectedOption.t,
        SelectedOption.id a <> SelectedOption.id b ->
        JSON_stringify [a; b] <> JSON_stringify [b; a]
        /\ placeOrderUpdate item [b; a] (placeOrderUpdate item [a; b] [])
           = [CartItem.ofMenuItem item 1%float [a; b];
              CartItem.ofMenuItem item 1%float [b; a]])
  /\ (forall (line : CartItem.t) (q : Z),
        CartItem.quantity line = Z2Number q -> (0 <= q < 2 ^ 53 - 1)%Z ->
        (CartItem.quantity line + 1)%float = Z2Number (q + 1))
  /\ (reachableCart currentCart ->
      (exists line, In line currentCart /\ key line = true) ->
      length (List.filter key currentCart) = 1).
Proof.
  intros key placed. split; [|split; [|split; [|split]]]; cycle 3.
  { intros line q -> Hq. change 1%float with (Z2Number 1).
    apply Z2Number_add; lia. }
  { apply reachableCart_one_line. }
  - intros Hex. subst placed. unfold placeOrderUpdate.
    destruct (find_key_Some _ _ _ Hex) as [found ->]. split.
    + apply List.length_map.
    + intros i line Hi.
      by apply (lookup_map_key _ _
                  (fun l => CartItem.withQuantity (CartItem.quantity l + 1)%float l)).
  - intros Hno.
    assert (Hplaced : placed = currentCart ++ [CartItem.ofMenuItem item 1%float selected]).
    { subst placed. unfold placeOrderUpdate. by rewrite (find_key_None _ _ _ Hno). }
    split; [done|]. rewrite Hplaced. unfold placeOrderUpdate.
    assert (Hfind : exists found,
               List.find (sameLine (MenuItem.id item) selected)
                 (currentCart ++ [CartItem.ofMenuItem item 1%float selected])
               = Some found).
    { apply find_key_Some. eexists. split; [apply List.in_or_app; right; by left|].
      apply sameLine_ofMenuItem. }
    destruct Hfind as [found ->].
    rewrite List.map_app. rewrite (map_key_id _ _ _ _ Hno). simpl.
    by rewrite sameLine_ofMenuItem.
  - intros a b Hid. pose proof (JSON_stringify_order a b Hid) as Hne.
    split; [done|].
    assert (Hk : sameLine (MenuItem.id item) [b; a]
                   (CartItem.ofMenuItem item 1%float [a; b]) = false).
    { unfold sameLine.
      cbn [CartItem.selectedOptions CartItem.ofMenuItem CartItem.id].
      rewrite String.eqb_refl. cbn [andb]. by apply String.eqb_neq. }
    change (placeOrderUpdate item [a; b] [])
      with [CartItem.ofMenuItem item 1%float [a; b]].
    unfold placeOrderUpdate. cbn [List.find]. by rewrite Hk.
Qed.

(** C5: [handleUpdateQuantity] with a quantity below 1 removes the lines
    matching the item id and the serialized option set, and only those: the
    result is the cart without them, every other line kept as it is and in
    place.  With a quantity of 1 or more it sets the quantity of the
    matching lines and keeps every other line and the number of lines.  On
    a cart with no matching line it changes nothing, whatever the quantity.
    In a cart the page can hold the matching line is one line, so that a
    quantity below 1 removes exactly one line. *)
Theorem handleUpdateQuantity_removes_or_sets
    (itemId : string) (newQuantity : number)
    (selected : list SelectedOption.t) (currentCart : Cart) :
  let key := sameLine itemId selected in
  let updated := updateQuantityUpdate itemId newQuantity selected currentCart in
  ((newQuantity <? 1)%float = true ->
     (forall line, In line updated <-> In line currentCart /\ key line = false)
     /\ updated = List.filter (fun line => negb (key line)) currentCart
     /\ List.filter (fun line => negb (key line)) updated
        = List.filter (fun line => negb (key line)) currentCart)
  /\ ((1 <=? newQuantity)%float = true ->
        length updated = length currentCart
        /\ forall (i : nat) (line : CartItem.t),
             currentCart !! i = Some line ->
             updated !! i
             = Some (if key line then CartItem.withQuantity newQuantity line
                     else line))
  /\ ((forall line, In line currentCart -> key line = false) ->
        updated = currentCart)
  /\ (reachableCart currentCart ->
      (exists line, In line currentCart /\ key line = true) ->
      length (List.filter key currentCart) = 1
      /\ ((newQuantity <? 1)%float = true ->
          S (length updated) = length currentCart)).
Proof.
  intros key updated. subst key updated. unfold updateQuantityUpdate.
  split; [|split; [|split]]; cycle 3.
  { intros Hreach Hex.
    pose proof (reachableCart_one_line itemId selected currentCart Hreach Hex) as H1.
    split; [done|]. intros ->.
    pose proof (List.filter_length (sameLine itemId selected) currentCart). lia. }
  - intros ->. split; [|split].
    + intros line. rewrite List.filter_In.
      destruct (sameLine itemId selected line); simpl; intuition congruence.
    + done.
    + induction currentCart as [|line rest IH]; simpl; [done|].
      destruct (sameLine itemId selected line) eqn:Hk; simpl; [done|].
      rewrite Hk. simpl. by rewrite IH.
  - intros Hge. rewrite (leb_one_not_ltb _ Hge). split.
    + apply List.length_map.
    + intros i line Hi.
      by apply (lookup_map_key _ _ (CartItem.withQuantity newQuantity)).
  - intros Hno. destruct (newQuantity <? 1)%float.
    + by apply filter_key_id.
    + by apply map_key_id.
Qed.

(** ** Resolving the table number at load *)

Lemma truthy_true (s : string) : truthy s = true <-> s <> "".
Proof.
  unfold truthy. rewrite negb_true_iff. apply String.eqb_neq.
Qed.

Lemma truthy_false (s : string) : truthy s = false <-> s = "".
Proof.
  unfold truthy. rewrite negb_false_iff. apply String.eqb_eq.
Qed.

(** C6, as stated, fails when the URL carries an empty [table] parameter:
    with the parameter present and empty and ["3"] stored, the page takes
    the stored ["3"] and leaves the storage as it is, where the claim has it
    take the parameter and overwrite the stored value with it. *)
Lemma resolveTable_empty_parameter_is_ignored :
  let w := resolveTable (Some "")
             (initialWorld {["table_number" := "3"]} ∅) in
  tableNumber w = "3"
  /\ localStorage w !! "table_number" = Some "3"
  /\ tableNumber w <> ""
  /\ localStorage w !! "table_number" <> Some "".
Proof. vm_compute. repeat split; discriminate. Qed.

(** C6, amended: a URL parameter that is present and not empty is taken as
    the table number and also written to the storage, and the modal is
    closed; otherwise (no parameter, or an empty one) a stored value that is
    present and not empty is taken, the storage is left as it is and the
    modal is closed; otherwise (nothing stored, or the empty string) nothing
    changes: on a fresh component the table stays unset and the modal open.
    With the parameter "5" and "3" stored the table is "5" and the storage
    holds "5". *)
Theorem resolveTable_precedence
    (tableFromUrl : option string) (w : World) :
  (forall t, tableFromUrl = Some t -> t <> "" ->
     resolveTable tableFromUrl w
     = setShowTableModal false (setItem "table_number" t (setTableNumber t w))
     /\ tableNumber (resolveTable tableFromUrl w) = t
     /\ localStorage (resolveTable tableFromUrl w) !! "table_number" = Some t
     /\ showTableModal (resolveTable tableFromUrl w) = false)
  /\ (tableFromUrl = None \/ tableFromUrl = Some "" ->
      forall s, localStorage w !! "table_number" = Some s -> s <> "" ->
        resolveTable tableFromUrl w
        = setShowTableModal false (setTableNumber s w)
        /\ tableNumber (resolveTable tableFromUrl w) = s
        /\ localStorage (resolveTable tableFromUrl w) = localStorage w
        /\ showTableModal (resolveTable tableFromUrl w) = false)
  /\ (tableFromUrl = None \/ tableFromUrl = Some "" ->
      localStorage w !! "table_number" = None
      \/ localStorage w !! "table_number" = Some "" ->
        resolveTable tableFromUrl w = w)
  /\ (forall store,
        let fresh := initialWorld {["table_number" := "3"]} store in
        tableNumber (resolveTable (Some "5") fresh) = "5"
        /\ localStorage (resolveTable (Some "5") fresh) !! "table_number" = Some "5")
  /\ (forall store,
        let fresh := initialWorld ∅ store in
        tableNumber (resolveTable None fresh) = ""
        /\ showTableModal (resolveTable None fresh) = true).
Proof.
  split; [|split; [|split; [|split]]].
  - intros t -> Ht. unfold resolveTable. cbn [truthyOpt default].
    rewrite (proj2 (truthy_true t) Ht). repeat split.
    cbn. apply lookup_insert_eq.
  - intros Hurl s Hs Hne. unfold resolveTable.
    assert (truthyOpt tableFromUrl = false) as -> by (by destruct Hurl as [-> | ->]).
    rewrite Hs. cbn [truthyOpt default].
    by rewrite (proj2 (truthy_true s) Hne).
  - intros Hurl Hstored. unfold resolveTable.
    assert (truthyOpt tableFromUrl = false) as -> by (by destruct Hurl as [-> | ->]).
    by destruct Hstored as [-> | ->].
  - intros store fresh. split; [done|]. cbn. apply lookup_insert_eq.
  - done.
Qed.

(** At a parameter and a stored value chosen by hand: ["7"] in the URL over
    ["3"] in the storage. *)
Lemma resolveTable_precedence_witness :
  let w := initialWorld {["table_number" := "3"]} ∅ in
  tableNumber (resolveTable (Some "7") w) = "7"
  /\ localStorage (resolveTable (Some "7") w) !! "table_number" = Some "7".
Proof.
  intros w.
  destruct (resolveTable_precedence (Some "7") w) as [Hurl _].
  destruct (Hurl "7" eq_refl) as (_ & Ht & Hs & _); [discriminate|].
  by split.
Defined.

(** ** Listings of the store *)

Section Listings.
Context {V : Type}.
Variables (P : string * V -> bool) (id : string).

Let isKey (doc : string * V) : bool := String.eqb (fst doc) id.

Lemma count_key_absent (l : list (string * V)) :
  id ∉ l.*1 -> length (List.filter isKey (List.filter P l)) = 0.
Proof.
  induction l as [|[k v] l IH]; [done|].
  rewrite fmap_cons, not_elem_of_cons. intros [Hk Hl]. cbn [List.filter].
  destruct (P (k, v)); [|by apply IH]. cbn [List.filter].
  unfold isKey at 1. cbn [fst].
  destruct (String.eqb_spec k id) as [->|_]; [done|]. by apply IH.
Qed.

Lemma count_key_present (l : list (string * V)) (v : V) :
  NoDup l.*1 -> (id, v) ∈ l ->
  length (List.filter isKey (List.filter P l)) = if P (id, v) then 1 else 0.
Proof.
  induction l as [|[k w] l IH]; [by intros _ ?%elem_of_nil|].
  rewrite fmap_cons, NoDup_cons, elem_of_cons. cbn [fst].
  intros [Hk Hnd] [Heq | Hin].
  - injection Heq as <- <-. cbn [List.filter].
    destruct (P (id, v)).
    + cbn [List.filter]. unfold isKey at 1. cbn [fst].
      rewrite String.eqb_refl. cbn [length]. by rewrite count_key_absent.
    + by apply count_key_absent.
  - assert (k <> id) as Hne.
    { intros ->. apply Hk. apply list_elem_of_fmap. by exists (id, v). }
    cbn [List.filter]. destruct (P (k, w)); [|by apply IH].
    cbn [List.filter]. unfold isKey at 1. cbn [fst].
    destruct (String.eqb_spec k id) as [?|_]; [done|]. by apply IH.
Qed.

(** In a listing of a collection filtered by [P], a document id occurs
    once when the document is in the collection and passes [P], and not at
    all otherwise. *)
Lemma count_key_map_to_list (m : gmap string V) :
  length (List.filter isKey (List.filter P (map_to_list m)))
  = match m !! id with
    | Some v => if P (id, v) then 1 else 0
    | None => 0
    end.
Proof.
  destruct (m !! id) as [v|] eqn:Hm.
  - apply count_key_present; [apply NoDup_fst_map_to_list|].
    by apply elem_of_map_to_list.
  - apply count_key_absent. intros ((k & v) & Hk & Hin)%list_elem_of_fmap.
    cbn in Hk. subst k. apply elem_of_map_to_list in Hin. congruence.
Qed.
End Listings.

Lemma countId_snapshotOrders (id : string) (docs : list (string * OrderData.t)) :
  countId id (snapshotOrders docs)
  = length (List.filter (fun doc => String.eqb (fst doc) id) docs).
Proof.
  unfold countId, snapshotOrders.
  induction docs as [|[k d] docs IH]; [done|].
  cbn [List.map List.filter fst snd]. unfold hasId at 1. cbn [Order.id].
  destruct (String.eqb k id); cbn [length]; by rewrite IH.
Qed.

Lemma filter_length_Permutation {A : Type} (f : A -> bool) (l l' : list A) :
  l ≡ₚ l' -> length (List.filter f l) = length (List.filter f l').
Proof.
  induction 1 as [|x l l' _ IH|x y l|l1 l2 l3 _ IH1 _ IH2]; simpl.
  - done.
  - destruct (f x); simpl; by rewrite IH.
  - by destruct (f x), (f y).
  - by rewrite IH1.
Qed.

(** A snapshot of the device's orders lists an order of the device once. *)
Lemma countId_deviceOrdersQuery (deviceId id : string)
    (store : gmap string OrderData.t) (d : OrderData.t) :
  store !! id = Some d -> OrderData.deviceId d = deviceId ->
  countId id (snapshotOrders (deviceOrdersQuery deviceId store)) = 1.
Proof.
  intros Hd Hdev. rewrite countId_snapshotOrders. unfold deviceOrdersQuery.
  rewrite (filter_length_Permutation _ _ _ (merge_sort_Permutation _ _)).
  rewrite (count_key_map_to_list
             (fun doc => String.eqb (OrderData.deviceId (snd doc)) deviceId) id store).
  rewrite Hd. cbn [snd]. by rewrite Hdev, String.eqb_refl.
Qed.

(** ** Submitting an order *)

Lemma getDeviceId_setIsSubmitting (uuid : string) (b : bool) (w : World) :
  fst (getDeviceId uuid (setIsSubmitting b w)) = fst (getDeviceId uuid w).
Proof.
  unfold getDeviceId. cbn [localStorage setIsSubmitting].
  destruct (localStorage w !! "device_id") as [d|]; [|done].
  by destruct (truthy d).
Qed.

(** [getDeviceId] touches nothing but the storage. *)
Lemma getDeviceId_frame (uuid : string) (w : World) :
  let w' := snd (getDeviceId uuid w) in
  cart w' = cart w /\ isSubmitting w' = isSubmitting w /\ orders w' = orders w
  /\ tableNumber w' = tableNumber w /\ console w' = console w
  /\ ordersCollection w' = ordersCollection w.
Proof.
  unfold getDeviceId.
  destruct (localStorage w !! "device_id") as [d|]; [|done].
  by destruct (truthy d).
Qed.

Lemma guard_passes (w : World) :
  cart w <> [] -> isSubmitting w = false -> tableNumber w <> "" ->
  (length (cart w) =? 0)%nat || isSubmitting w || negb (truthy (tableNumber w))
  = false.
Proof.
  intros Hcart -> Htable. rewrite (proj2 (truthy_true _) Htable).
  by destruct (cart w).
Qed.

Lemma guard_blocks (w : World) :
  cart w = [] \/ tableNumber w = "" \/ isSubmitting w = true ->
  (length (cart w) =? 0)%nat || isSubmitting w || negb (truthy (tableNumber w))
  = true.
Proof.
  intros [-> | [-> | ->]]; [done| |].
  - by rewrite !orb_true_r.
  - by rewrite orb_true_r.
Qed.

(** Past the guard, the call raises the flag, reads the device id and hands
    [newOrderOf] to the store. *)
Lemma handleOrderNow_call_passes (uuid : string) (now : number) (w : World) :
  cart w <> [] -> isSubmitting w = false -> tableNumber w <> "" ->
  handleOrderNow_call uuid now w
  = (snd (getDeviceId uuid (setIsSubmitting true w)), Some (newOrderOf uuid now w)).
Proof.
  intros Hcart Hsub Htable. unfold handleOrderNow_call.
  rewrite (guard_passes w Hcart Hsub Htable).
  unfold newOrderOf. rewrite <- (getDeviceId_setIsSubmitting uuid true w).
  by destruct (getDeviceId uuid (setIsSubmitting true w)).
Qed.

(** C8: when the cart is empty, or no table number is set, or a submission
    is in flight, [handleOrderNow] returns at its guard: nothing is handed to
    the store and the world (cart, order list, flag, storage, console and
    store) is exactly as before, whatever the store would have answered. *)
Theorem handleOrderNow_guard_is_noop
    (uuid : string) (now : number) (answer : AddDocAnswer)
    (during : World -> World) (w : World) :
  cart w = [] \/ tableNumber w = "" \/ isSubmitting w = true ->
  handleOrderNow_call uuid now w = (w, None)
  /\ handleOrderNow uuid now answer during w = w.
Proof.
  intros Hguard. unfold handleOrderNow, handleOrderNow_call.
  by rewrite (guard_blocks w Hguard).
Qed.

Section Merge.
Variables (newOrder : OrderData.t) (orderId : string).

Lemma hasId_mk : hasId orderId (Order.mk (Some orderId) newOrder) = true.
Proof. unfold hasId. simpl. apply String.eqb_refl. Qed.

Lemma countId_existsb (l : list Order.t) :
  List.existsb (hasId orderId) l = false -> countId orderId l = 0.
Proof.
  unfold countId. induction l as [|o l IH]; simpl; [done|].
  intros [Ho Hl]%orb_false_iff. rewrite Ho. by apply IH.
Qed.

Lemma existsb_countId (l : list Order.t) :
  List.existsb (hasId orderId) l = true -> 1 <= countId orderId l.
Proof.
  unfold countId. induction l as [|o l IH]; simpl; [done|].
  destruct (hasId orderId o); simpl; [intros _; lia|]. apply IH.
Qed.

(** After the merge the id is in the list; once, if it was there at most
    once. *)
Lemma mergeOrder_count (prevOrders : list Order.t) :
  1 <= countId orderId (mergeOrder newOrder orderId prevOrders)
  /\ (countId orderId prevOrders <= 1 ->
      countId orderId (mergeOrder newOrder orderId prevOrders) = 1).
Proof.
  unfold mergeOrder.
  destruct (List.existsb (hasId orderId) prevOrders) eqn:Hex.
  - pose proof (existsb_countId _ Hex). cbn iota. lia.
  - pose proof (countId_existsb _ Hex) as H0.
    cbn iota. unfold countId in *. cbn [List.filter].
    rewrite hasId_mk. simpl. lia.
Qed.
End Merge.

Lemma worldAtAnswer_passes (uuid : string) (now : number) (answer : AddDocAnswer)
    (during : World -> World) (w : World) :
  cart w <> [] -> isSubmitting w = false -> tableNumber w <> "" ->
  worldAtAnswer uuid now answer during w
  = during (setOrdersCollection (addDoc answer (newOrderOf uuid now w))
              (snd (getDeviceId uuid (setIsSubmitting true w)))).
Proof.
  intros Hcart Hsub Htable. unfold worldAtAnswer.
  by rewrite (handleOrderNow_call_passes uuid now w Hcart Hsub Htable).
Qed.

Lemma handleOrderNow_passes (uuid : string) (now : number) (answer : AddDocAnswer)
    (during : World -> World) (w : World) :
  cart w <> [] -> isSubmitting w = false -> tableNumber w <> "" ->
  handleOrderNow uuid now answer during w
  = let '(w3, saved) :=
      saveOrder_settle answer (worldAtAnswer uuid now answer during w) in
    handleOrderNow_settle (newOrderOf uuid now w) saved w3.
Proof.
  intros Hcart Hsub Htable.
  rewrite (worldAtAnswer_passes uuid now answer during w Hcart Hsub Htable).
  unfold handleOrderNow.
  by rewrite (handleOrderNow_call_passes uuid now w Hcart Hsub Htable).
Qed.

(** The store right after an accepted [addDoc]. *)
Lemma ordersCollection_sent (uuid : string) (now : number) (orderId : string)
    (w : World) :
  cart w <> [] -> isSubmitting w = false -> tableNumber w <> "" ->
  ordersCollection (worldAtAnswer uuid now (DocAdded orderId) (fun w => w) w)
  = <[orderId := newOrderOf uuid now w]> (ordersCollection w).
Proof.
  intros Hcart Hsub Htable.
  rewrite (worldAtAnswer_passes _ _ _ _ w Hcart Hsub Htable).
  cbn [setOrdersCollection ordersCollection addDoc].
  by destruct (getDeviceId_frame uuid (setIsSubmitting true w))
    as (_ & _ & _ & _ & _ & ->).
Qed.

(** C3: with a cart that is not empty, a table number set and no submission
    in flight, [handleOrderNow] hands the store an order with status
    [pending], [createdAt] the current time, payment method [cash] and the
    cart as its items; when the store accepts it under [orderId], the
    document is in the store, and once the handler has resumed the cart is
    empty, the flag is down, and the order list is the list found on
    resuming with the new order put in front unless an order with this id is
    already there.  So the id occurs once in the order list whenever it
    occurred at most once when the handler resumed; in particular when the
    subscription delivered the new document while the handler was waiting,
    and also when it delivers it afterwards. *)
Theorem handleOrderNow_success
    (uuid : string) (now : number) (orderId : string)
    (during : World -> World) (w : World) :
  cart w <> [] -> tableNumber w <> "" -> isSubmitting w = false ->
  let newOrder := newOrderOf uuid now w in
  let sent := worldAtAnswer uuid now (DocAdded orderId) (fun w => w) w in
  let resumed := worldAtAnswer uuid now (DocAdded orderId) during w in
  let final := handleOrderNow uuid now (DocAdded orderId) during w in
  let deviceId := OrderData.deviceId newOrder in
  (snd (handleOrderNow_call uuid now w) = Some newOrder
   /\ OrderData.status newOrder = pending
   /\ OrderData.createdAt newOrder = now
   /\ OrderData.paymentMethod newOrder = Some cash
   /\ OrderData.items newOrder = cart w)
  /\ (ordersCollection sent !! orderId = Some newOrder
      /\ forall k, k <> orderId ->
           ordersCollection sent !! k = ordersCollection w !! k)
  /\ (cart final = []
      /\ isSubmitting final = false
      /\ orders final
         = (if List.existsb (hasId orderId) (orders resumed) then orders resumed
            else Order.mk (Some orderId) newOrder :: orders resumed)
      /\ final
         = setIsSubmitting false
             (setCart (fun _ => []) (setOrders (mergeOrder newOrder orderId) resumed)))
  /\ (1 <= countId orderId (orders final)
      /\ (countId orderId (orders resumed) <= 1 ->
          countId orderId (orders final) = 1))
  /\ (let delivered :=
        handleOrderNow uuid now (DocAdded orderId) (deliverSnapshot deviceId) w in
      countId orderId (orders delivered) = 1
      /\ orders delivered
         = snapshotOrders
             (deviceOrdersQuery deviceId (<[orderId := newOrder]> (ordersCollection w))))
  /\ (during = (fun w => w) ->
      countId orderId (orders (deliverSnapshot deviceId final)) = 1).
Proof.
  intros Hcart Htable Hsub newOrder sent resumed final deviceId.
  assert (Hfinal : final
            = setIsSubmitting false
                (setCart (fun _ => [])
                   (setOrders (mergeOrder newOrder orderId) resumed))).
  { subst final. by rewrite (handleOrderNow_passes _ _ _ _ w Hcart Hsub Htable). }
  assert (Hsent : ordersCollection sent
                  = <[orderId := newOrder]> (ordersCollection w)).
  { by apply ordersCollection_sent. }
  split; [|split; [|split; [|split; [|split]]]].
  - by rewrite (handleOrderNow_call_passes _ _ w Hcart Hsub Htable).
  - rewrite Hsent. split; [apply lookup_insert_eq|].
    intros k Hk. by apply lookup_insert_ne.
  - by rewrite Hfinal.
  - rewrite Hfinal. cbn [orders setIsSubmitting setCart setOrders].
    apply mergeOrder_count.
  - cbn zeta.
    rewrite (handleOrderNow_passes _ _ _ _ w Hcart Hsub Htable).
    rewrite (worldAtAnswer_passes _ _ _ _ w Hcart Hsub Htable).
    cbn [saveOrder_settle handleOrderNow_settle deliverSnapshot onSnapshot_next
         orders setIsSubmitting setCart setOrders setIsLoadingOrders
         setOrdersCollection ordersCollection addDoc].
    destruct (getDeviceId_frame uuid (setIsSubmitting true w))
      as (_ & _ & _ & _ & _ & ->).
    cbn [ordersCollection setIsSubmitting].
    fold newOrder.
    set (snapshot :=
           snapshotOrders
             (deviceOrdersQuery deviceId
                (<[orderId := newOrder]> (ordersCollection w)))).
    assert (Hcount : countId orderId snapshot = 1).
    { apply (countId_deviceOrdersQuery _ _ _ newOrder); [apply lookup_insert_eq|done]. }
    unfold mergeOrder.
    destruct (List.existsb (hasId orderId) snapshot) eqn:Hex; [done|].
    apply countId_existsb in Hex. lia.
  - intros ->. rewrite Hfinal.
    cbn [deliverSnapshot onSnapshot_next orders setIsSubmitting setCart setOrders
         setIsLoadingOrders ordersCollection].
    change (ordersCollection resumed) with (ordersCollection sent).
    rewrite Hsent.
    apply (countId_deviceOrdersQuery _ _ _ newOrder); [apply lookup_insert_eq|done].
Qed.

(** C4: when the store refuses the order, [handleOrderNow] leaves the cart
    and the order list as it finds them on resuming, writes nothing to the
    store, logs the error (once in [saveOrder], once in its own handler) and
    lowers the flag; with nothing else happening meanwhile the cart, the
    order list, the table number and the store are those of before the
    click, so the guard lets a second attempt through. *)
Theorem handleOrderNow_failure
    (uuid : string) (now : number) (error : string)
    (during : World -> World) (w : World) :
  cart w <> [] -> tableNumber w <> "" -> isSubmitting w = false ->
  let resumed := worldAtAnswer uuid now (AddDocFailed error) during w in
  let final := handleOrderNow uuid now (AddDocFailed error) during w in
  let undisturbed :=
    handleOrderNow uuid now (AddDocFailed error) (fun w => w) w in
  (cart final = cart resumed
   /\ orders final = orders resumed
   /\ ordersCollection final = ordersCollection resumed
   /\ console final
      = console resumed
        ++ [("Error saving order: ", error); ("Error placing order:", error)]
   /\ isSubmitting final = false)
  /\ (cart undisturbed = cart w
      /\ orders undisturbed = orders w
      /\ tableNumber undisturbed = tableNumber w
      /\ ordersCollection undisturbed = ordersCollection w
      /\ isSubmitting undisturbed = false
      /\ forall uuid' now',
           snd (handleOrderNow_call uuid' now' undisturbed)
           = Some (newOrderOf uuid' now' undisturbed)).
Proof.
  intros Hcart Htable Hsub resumed final undisturbed.
  split.
  - subst final. rewrite (handleOrderNow_passes _ _ _ _ w Hcart Hsub Htable).
    fold resumed.
    cbn [saveOrder_settle handleOrderNow_settle console_error setIsSubmitting
         cart orders ordersCollection console isSubmitting].
    by rewrite <- app_assoc.
  - assert (Hund : cart undisturbed = cart w /\ orders undisturbed = orders w
                   /\ tableNumber undisturbed = tableNumber w
                   /\ ordersCollection undisturbed = ordersCollection w
                   /\ isSubmitting undisturbed = false).
    { subst undisturbed.
      rewrite (handleOrderNow_passes _ _ _ _ w Hcart Hsub Htable).
      rewrite (worldAtAnswer_passes _ _ _ _ w Hcart Hsub Htable).
      cbn [saveOrder_settle handleOrderNow_settle console_error setIsSubmitting
           setOrdersCollection addDoc
           cart orders ordersCollection console isSubmitting tableNumber].
      by destruct (getDeviceId_frame uuid (setIsSubmitting true w))
        as (-> & _ & -> & -> & _ & ->). }
    destruct Hund as (Hc & Ho & Ht & Hs & Hf). repeat split; try done.
    intros uuid' now'.
    rewrite (handleOrderNow_call_passes uuid' now' undisturbed); [done| | |].
    + by rewrite Hc.
    + done.
    + by rewrite Ht.
Qed.

(** ** Confirming a table number *)

Lemma isPendingOf_true (deviceId : string) (d : OrderData.t) :
  isPendingOf deviceId d = true
  <-> OrderData.deviceId d = deviceId /\ OrderData.status d = pending.
Proof.
  unfold isPendingOf. rewrite andb_true_iff, String.eqb_eq.
  destruct (OrderData.status d); intuition congruence.
Qed.

Lemma isPendingOf_false (deviceId : string) (d : OrderData.t) :
  isPendingOf deviceId d = false
  <-> OrderData.deviceId d <> deviceId \/ OrderData.status d <> pending.
Proof.
  unfold isPendingOf. rewrite andb_false_iff, String.eqb_neq.
  destruct (OrderData.status d); intuition congruence.
Qed.

Section TableNumberWrites.
Variables (answers : StoreAnswers) (newTableNumber : string).

Let tableData : list (string * FieldValue) :=
  [("tableNumber", FString newTableNumber)].

Lemma applyData_tableNumber (d : OrderData.t) :
  applyData tableData d = OrderData.withTableNumber (FString newTableNumber) d.
Proof. reflexivity. Qed.

Lemma writesTo_tableNumberWrites (id : string)
    (docs : list (string * OrderData.t)) :
  writesTo id (tableNumberWrites newTableNumber docs)
  = length (List.filter (fun doc => String.eqb (fst doc) id) docs).
Proof.
  unfold writesTo, tableNumberWrites.
  induction docs as [|doc docs IH]; [done|].
  cbn [List.map List.filter write_doc].
  destruct (String.eqb (fst doc) id); cbn [length]; by rewrite IH.
Qed.

Lemma tableNumberWrites_data (docs : list (string * OrderData.t)) (wr : Write) :
  In wr (tableNumberWrites newTableNumber docs) -> write_data wr = tableData.
Proof.
  unfold tableNumberWrites. rewrite List.in_map_iff.
  by intros (doc & <- & _).
Qed.

(** The store after the updates: a document is changed when an accepted
    update addresses it, and then only in its [tableNumber]. *)
Lemma lookup_after_writes (docs : list (string * OrderData.t))
    (store : gmap string OrderData.t) (id : string) :
  List.fold_left (fun s wr => updateDoc answers wr s)
    (tableNumberWrites newTableNumber docs) store !! id
  = if accepted answers id (tableNumberWrites newTableNumber docs)
    then OrderData.withTableNumber (FString newTableNumber) <$> store !! id
    else store !! id.
Proof.
  revert store. induction docs as [|[k d] docs IH]; intros store; [done|].
  cbn [tableNumberWrites List.map List.fold_left fst].
  fold (tableNumberWrites newTableNumber docs). rewrite IH.
  unfold accepted at 2. cbn [List.existsb write_doc].
  fold (accepted answers id (tableNumberWrites newTableNumber docs)).
  unfold updateDoc. cbn [write_doc write_data].
  destruct (updateError answers k) as [e|].
  - by rewrite andb_false_r.
  - rewrite andb_true_r, lookup_alter.
    destruct (String.eqb_spec k id) as [->|Hne].
    + rewrite decide_True by done. cbn [orb].
      destruct (accepted answers id (tableNumberWrites newTableNumber docs)); [|done].
      by destruct (store !! id).
    + by rewrite decide_False by done.
Qed.

Lemma accepted_false (id : string) (writes : list Write) :
  writesTo id writes = 0 -> accepted answers id writes = false.
Proof.
  unfold writesTo, accepted. induction writes as [|wr writes IH]; [done|].
  cbn [List.filter List.existsb].
  destruct (String.eqb (write_doc wr) id); [done|]. apply IH.
Qed.

Lemma accepted_true (id : string) (writes : list Write) :
  writesTo id writes <> 0 -> updateError answers id = None ->
  accepted answers id writes = true.
Proof.
  unfold writesTo, accepted. intros Hn Hok.
  induction writes as [|wr writes IH]; [done|].
  cbn [List.filter List.existsb] in *.
  destruct (String.eqb_spec (write_doc wr) id) as [->|_].
  - by rewrite Hok.
  - by apply IH.
Qed.

Lemma accepted_refused (id : string) (writes : list Write) :
  updateError answers id <> None -> accepted answers id writes = false.
Proof.
  unfold accepted. intros Herr. induction writes as [|wr writes IH]; [done|].
  cbn [List.existsb]. rewrite IH, orb_false_r.
  destruct (String.eqb_spec (write_doc wr) id) as [->|_]; [|done].
  by destruct (updateError answers id).
Qed.
End TableNumberWrites.

(** C7: when the query of [updateTableNumberInFirestore] is answered, the
    function issues one update for every order of the store that belongs to
    the device and is pending, and none for any other order; every update
    names the field [tableNumber] alone.  In the store afterwards the
    orders of other devices, the orders that are not pending and the ids
    that hold no order are as before, and a pending order of the device
    differs from before in its [tableNumber] only, and only if the store
    accepted its update. *)
Theorem updateTableNumberInFirestore_writes
    (answers : StoreAnswers) (newTableNumber deviceId : string) (w : World) :
  readError answers = None ->
  let result := updateTableNumberInFirestore answers newTableNumber deviceId w in
  let store := ordersCollection w in
  let store' := ordersCollection (worldAfter result) in
  (forall id,
     writesTo id (writesOf result)
     = match store !! id with
       | Some d => if isPendingOf deviceId d then 1 else 0
       | None => 0
       end)
  /\ (forall wr, In wr (writesOf result) ->
        write_data wr = [("tableNumber", FString newTableNumber)])
  /\ (forall id d,
        store !! id = Some d ->
        OrderData.deviceId d <> deviceId \/ OrderData.status d <> pending ->
        writesTo id (writesOf result) = 0 /\ store' !! id = Some d)
  /\ (forall id, store !! id = None -> store' !! id = None)
  /\ (forall id d,
        store !! id = Some d ->
        OrderData.deviceId d = deviceId -> OrderData.status d = pending ->
        writesTo id (writesOf result) = 1
        /\ store' !! id
           = Some (match updateError answers id with
                   | None => OrderData.withTableNumber (FString newTableNumber) d
                   | Some _ => d
                   end)).
Proof.
  intros Hread result store store'.
  set (docs := pendingOrdersQuery deviceId store).
  set (writes := tableNumberWrites newTableNumber docs).
  assert (Hwrites : writesOf result = writes).
  { subst result. unfold updateTableNumberInFirestore. rewrite Hread.
    fold store docs writes. by destruct (firstError answers writes). }
  assert (Hstore : store'
            = List.fold_left (fun s wr => updateDoc answers wr s) writes store).
  { subst store' result. unfold updateTableNumberInFirestore. rewrite Hread.
    fold store docs writes. by destruct (firstError answers writes). }
  assert (Hcount : forall id,
            writesTo id writes
            = match store !! id with
              | Some d => if isPendingOf deviceId d then 1 else 0
              | None => 0
              end).
  { intros id. subst writes. rewrite writesTo_tableNumberWrites.
    subst docs. unfold pendingOrdersQuery.
    by rewrite (count_key_map_to_list
                  (fun doc => isPendingOf deviceId (snd doc)) id store). }
  rewrite Hwrites, Hstore. split; [done|]. split; [|split; [|split]].
  - intros wr Hwr. by apply (tableNumberWrites_data _ docs).
  - intros id d Hd Hother. apply isPendingOf_false in Hother.
    assert (H0 : writesTo id writes = 0) by (by rewrite Hcount, Hd, Hother).
    split; [done|]. subst writes. rewrite lookup_after_writes.
    by rewrite (accepted_false answers id _ H0).
  - intros id Hnone.
    assert (H0 : writesTo id writes = 0) by (by rewrite Hcount, Hnone).
    subst writes. rewrite lookup_after_writes.
    by rewrite (accepted_false answers id _ H0).
  - intros id d Hd Hdev Hstatus.
    assert (Hp : isPendingOf deviceId d = true) by (by apply isPendingOf_true).
    assert (H1 : writesTo id writes = 1) by (by rewrite Hcount, Hd, Hp).
    split; [done|]. subst writes. rewrite lookup_after_writes.
    destruct (updateError answers id) as [e|] eqn:Herr.
    + rewrite (accepted_refused answers id); [done|]. by rewrite Herr.
    + rewrite (accepted_true answers id); [by rewrite Hd| |done].
      by rewrite H1.
Qed.

(** ** The type of the stored table number *)

Lemma parseDigits_not_digit (c : ascii) (rest : string) :
  isDecimalDigit c = false ->
  stripHexPrefix (String c rest) = (10%Z, String c rest)
  /\ parseDigits 10 (String c rest) None = None.
Proof.
  destruct c as [[] [] [] [] [] [] [] []]; try discriminate; intros _;
    (split; [by destruct rest|reflexivity]).
Qed.

Lemma parseInt_no_leading_integer (t : string) :
  hasNoLeadingInteger t = true -> parseInt t = PrimFloat.nan.
Proof.
  unfold hasNoLeadingInteger, parseInt.
  destruct (stripSign (trimStart t)) as [negative s1]. cbn [snd].
  destruct s1 as [|c rest]; [done|].
  rewrite negb_true_iff. intros Hc.
  destruct (parseDigits_not_digit c rest Hc) as [-> ->]. done.
Qed.

(** * Worked instances *)

(** C2 on the sample item: placed on a cart that holds it once, the
    espresso's line goes to quantity 2; placed on an empty cart, it makes
    one line of quantity 1. *)
Lemma handlePlaceOrder_instance :
  placeOrderUpdate espresso [] [CartItem.ofMenuItem espresso 1%float []] !! 0%nat
  = Some (CartItem.ofMenuItem espresso 2%float [])
  /\ placeOrderUpdate espresso [oatMilk] []
     = [CartItem.ofMenuItem espresso 1%float [oatMilk]].
Proof.
  split.
  - destruct (handlePlaceOrder_increments_or_appends espresso []
                [CartItem.ofMenuItem espresso 1%float []]) as [Hinc _].
    destruct Hinc as [_ Hline].
    + exists (CartItem.ofMenuItem espresso 1%float []). split; [by left|reflexivity].
    + exact (Hline 0%nat _ eq_refl).
  - destruct (handlePlaceOrder_increments_or_appends espresso [oatMilk] [])
      as (_ & Happ & _).
    destruct Happ as [Hone _]; [by intros line []|exact Hone].
Defined.

(** C5 on a cart of three lines: quantity 0 removes line "b" and keeps the
    two others; quantity 4 sets it. *)
Lemma handleUpdateQuantity_instance :
  updateQuantityUpdate "b" 0%float [] cartOfWholes
  = [lineWith "a" 120%float 2%float; lineWith "c" 40%float 3%float]
  /\ updateQuantityUpdate "b" 4%float [] cartOfWholes !! 1%nat
     = Some (lineWith "b" 85%float 4%float).
Proof.
  destruct (handleUpdateQuantity_removes_or_sets "b" 0%float [] cartOfWholes)
    as (Hremove & _ & _).
  destruct (handleUpdateQuantity_removes_or_sets "b" 4%float [] cartOfWholes)
    as (_ & Hset & _).
  split.
  - destruct (Hremove eq_refl) as (_ & -> & _). reflexivity.
  - destruct (Hset eq_refl) as [_ Hline]. exact (Hline 1%nat _ eq_refl).
Defined.

(** C9 on a cart of whole amounts: 120 x 2, 85 x 1 and 40 x 3 total 445 in
    either order. *)
Lemma cartTotal_reordering_instance :
  cartTotal (List.rev cartOfWholes) = cartTotal cartOfWholes
  /\ cartTotal cartOfWholes = 445%float.
Proof.
  destruct (cartTotal_reordering_of_whole_amounts cartOfWholes
              (List.rev cartOfWholes)) as [Hperm Hexact].
  - intros line [<- | [<- | [<- | []]]]; vm_compute; repeat split; congruence.
  - vm_compute. reflexivity.
  - apply Permutation_rev.
  - split; [exact Hperm|]. rewrite Hexact. reflexivity.
Defined.

(** C8 on the sample world with its cart emptied: nothing happens. *)
Lemma handleOrderNow_guard_instance :
  handleOrderNow "fresh-uuid" 1700000000000%float (DocAdded "o9") (fun w => w)
    (setCart (fun _ => []) sampleWorld)
  = setCart (fun _ => []) sampleWorld.
Proof.
  apply (handleOrderNow_guard_is_noop "fresh-uuid" 1700000000000%float
           (DocAdded "o9") (fun w => w) (setCart (fun _ => []) sampleWorld)).
  left. reflexivity.
Defined.

(** C3 on the sample world: the order is stored under "o9", the cart is
    emptied, and the order list holds "o9" once, whether or not the
    subscription delivered it first. *)
Lemma handleOrderNow_success_instance :
  let final :=
    handleOrderNow "fresh-uuid" 1700000000000%float (DocAdded "o9")
      (deliverSnapshot "dev-1") sampleWorld in
  cart final = [] /\ isSubmitting final = false
  /\ countId "o9" (orders final) = 1.
Proof.
  destruct (handleOrderNow_success "fresh-uuid" 1700000000000%float "o9"
              (deliverSnapshot "dev-1") sampleWorld)
    as (_ & _ & (Hcart & Hflag & _) & _ & (Hcount & _) & _);
    [discriminate|discriminate|reflexivity|].
  split; [exact Hcart|]. split; [exact Hflag|exact Hcount].
Defined.

(** C4 on the sample world: the cart and the order list stay, two errors
    are logged and the flag is lowered. *)
Lemma handleOrderNow_failure_instance :
  let final :=
    handleOrderNow "fresh-uuid" 1700000000000%float (AddDocFailed "unavailable")
      (fun w => w) sampleWorld in
  cart final = cart sampleWorld /\ orders final = orders sampleWorld
  /\ isSubmitting final = false /\ length (console final) = 2%nat.
Proof.
  destruct (handleOrderNow_failure "fresh-uuid" 1700000000000%float "unavailable"
              (fun w => w) sampleWorld)
    as ((_ & _ & _ & Hlog & _) & (Hcart & Horders & _ & _ & Hflag & _));
    [discriminate|discriminate|reflexivity|].
  split; [exact Hcart|]. split; [exact Horders|]. split; [exact Hflag|].
  cbv zeta. rewrite Hlog. reflexivity.
Defined.

(** C7 on the sample store: of the three orders only "o1", pending and of
    the device, is written to. *)
Lemma updateTableNumberInFirestore_instance :
  let result := updateTableNumberInFirestore allAccepted "7" "dev-1" sampleWorld in
  writesTo "o1" (writesOf result) = 1%nat
  /\ writesTo "o2" (writesOf result) = 0%nat
  /\ writesTo "o3" (writesOf result) = 0%nat
  /\ ordersCollection (worldAfter result) !! "o2" = Some (sampleOrder "dev-1" completed).
Proof.
  destruct (updateTableNumberInFirestore_writes allAccepted "7" "dev-1" sampleWorld
              eq_refl) as (Hcount & _ & Hother & _).
  split; [exact (Hcount "o1")|]. split; [exact (Hcount "o2")|].
  split; [exact (Hcount "o3")|].
  destruct (Hother "o2" (sampleOrder "dev-1" completed)) as [_ Hkept];
    [reflexivity|right; discriminate|exact Hkept].
Defined.

(** * Further properties of the page *)

(** ** The device id *)

(** X1: [getDeviceId] returns a stored id that is not empty and leaves the
    storage alone; otherwise it returns the fresh id and stores it.  Either
    way the storage then holds the id returned, the other keys are as
    before, and (the fresh id not being empty) every later call returns the
    same id and changes nothing. *)
Theorem getDeviceId_stable (uuid uuid' : string) (w : World) :
  uuid <> "" ->
  let deviceId := fst (getDeviceId uuid w) in
  let w1 := snd (getDeviceId uuid w) in
  deviceId <> ""
  /\ localStorage w1 !! "device_id" = Some deviceId
  /\ (forall key, key <> "device_id" -> localStorage w1 !! key = localStorage w !! key)
  /\ getDeviceId uuid' w1 = (deviceId, w1)
  /\ (forall stored, localStorage w !! "device_id" = Some stored -> stored <> "" ->
        deviceId = stored /\ w1 = w)
  /\ (localStorage w !! "device_id" = None \/ localStorage w !! "device_id" = Some "" ->
        deviceId = uuid).
Proof.
  intros Huuid. unfold getDeviceId.
  destruct (localStorage w !! "device_id") as [stored|] eqn:Hstored;
    [destruct (truthy stored) eqn:Htruthy|].
  - apply truthy_true in Htruthy. cbn [fst snd].
    rewrite Hstored, (proj2 (truthy_true stored) Htruthy).
    split_and!; try done.
    + by intros stored' [= <-] _.
    + intros [?|[= ->]]; done.
  - apply truthy_false in Htruthy. subst stored.
    cbn [fst snd setItem setLocalStorage localStorage].
    rewrite lookup_insert_eq, (proj2 (truthy_true uuid) Huuid).
    split_and!; try done.
    + intros key Hkey. by rewrite lookup_insert_ne.
    + by intros stored' [= <-] Hne.
  - cbn [fst snd setItem setLocalStorage localStorage].
    rewrite lookup_insert_eq, (proj2 (truthy_true uuid) Huuid).
    split_and!; try done.
    intros key Hkey. by rewrite lookup_insert_ne.
Qed.

(** ** White space *)

Lemma trimStart_empty (s : string) : trimStart s = "" <-> allWhiteSpace s = true.
Proof.
  induction s as [|c s IH]; simpl; [done|].
  destruct (isStrWhiteSpaceChar c); simpl; [done|]. split; discriminate.
Qed.

Lemma allWhiteSpace_rev_app (s1 s2 : string) :
  allWhiteSpace (String.rev_app s1 s2) = allWhiteSpace s1 && allWhiteSpace s2.
Proof.
  revert s2. induction s1 as [|c s1 IH]; intros s2; simpl; [done|].
  rewrite IH. simpl. by destruct (isStrWhiteSpaceChar c), (allWhiteSpace s1).
Qed.

Lemma allWhiteSpace_rev (s : string) :
  allWhiteSpace (String.rev s) = allWhiteSpace s.
Proof. unfold String.rev. rewrite allWhiteSpace_rev_app. simpl. apply andb_true_r. Qed.

Lemma allWhiteSpace_trimStart (s : string) :
  allWhiteSpace (trimStart s) = allWhiteSpace s.
Proof.
  induction s as [|c s IH]; simpl; [done|].
  destruct (isStrWhiteSpaceChar c) eqn:Hc; simpl; [done|]. by rewrite Hc.
Qed.

Lemma rev_empty (s : string) : String.rev s = "" <-> s = "".
Proof.
  split; [|by intros ->]. unfold String.rev.
  destruct s as [|c s]; [done|]. simpl.
  assert (forall s1 s2, String.rev_app s1 s2 = "" -> s2 = "") as Hrev.
  { induction s1 as [|c1 s1 IH]; simpl; [done|].
    intros s2 H. by apply IH in H. }
  intros H. by apply Hrev in H.
Qed.

(** [trim] leaves nothing exactly of the strings of white space. *)
Lemma trim_empty (s : string) : trim s = "" <-> allWhiteSpace s = true.
Proof.
  unfold trim. rewrite rev_empty, trimStart_empty, allWhiteSpace_rev.
  apply eq_iff_eq_true. by rewrite allWhiteSpace_trimStart.
Qed.

Lemma blank_guard (s : string) :
  negb (truthy (trim s)) = allWhiteSpace s.
Proof.
  unfold truthy. rewrite negb_involutive.
  destruct (allWhiteSpace s) eqn:Hs.
  - apply String.eqb_eq. by apply trim_empty.
  - apply String.eqb_neq. intros H%trim_empty. congruence.
Qed.

(** ** Confirming the table number: the whole handler *)

Lemma pendingOrdersQuery_In (deviceId id : string) (d : OrderData.t)
    (store : gmap string OrderData.t) :
  In (id, d) (pendingOrdersQuery deviceId store)
  <-> store !! id = Some d /\ isPendingOf deviceId d = true.
Proof.
  unfold pendingOrdersQuery. rewrite List.filter_In. cbn [snd].
  by rewrite <- list_elem_of_In, elem_of_map_to_list.
Qed.

Lemma firstError_None (answers : StoreAnswers) (writes : list Write) :
  firstError answers writes = None
  <-> forall wr, In wr writes -> updateError answers (write_doc wr) = None.
Proof.
  induction writes as [|wr writes IH]; simpl; [done|].
  destruct (updateError answers (write_doc wr)) as [e|] eqn:Herr.
  - split; [done|]. intros H. by rewrite <- (H wr (or_introl eq_refl)).
  - rewrite IH. split; [intros H wr' [<-|Hin]; auto|]. intros H wr' Hin. apply H. by right.
Qed.

Lemma firstError_Some (answers : StoreAnswers) (writes : list Write) (e : string) :
  firstError answers writes = Some e ->
  exists wr, In wr writes /\ updateError answers (write_doc wr) = Some e.
Proof.
  induction writes as [|wr writes IH]; simpl; [done|].
  destruct (updateError answers (write_doc wr)) as [e'|] eqn:Herr.
  - intros [= ->]. exists wr. by split; [left|].
  - intros (wr' & Hin & He)%IH. exists wr'. by split; [right|].
Qed.

Lemma tableNumberWrites_In (newTableNumber : string)
    (docs : list (string * OrderData.t)) (wr : Write) :
  In wr (tableNumberWrites newTableNumber docs)
  <-> exists doc, In doc docs
        /\ wr = mkWrite (fst doc) [("tableNumber", FString newTableNumber)].
Proof.
  unfold tableNumberWrites. rewrite List.in_map_iff.
  split; intros (doc & H1 & H2); exists doc; by split.
Qed.

(** [updateTableNumberInFirestore] touches the console and the store only. *)
Lemma updateTableNumberInFirestore_frame (answers : StoreAnswers)
    (newTableNumber deviceId : string) (w : World) :
  let w' := worldAfter (updateTableNumberInFirestore answers newTableNumber deviceId w) in
  cart w' = cart w /\ isSubmitting w' = isSubmitting w /\ orders w' = orders w
  /\ tableNumber w' = tableNumber w /\ showTableModal w' = showTableModal w
  /\ localStorage w' = localStorage w /\ alerts w' = alerts w.
Proof.
  unfold updateTableNumberInFirestore.
  destruct (readError answers); [done|]. by destruct (firstError _ _).
Qed.

(** X2: the updates of [updateTableNumberInFirestore] are not atomic.  When
    its query is answered, the function fails exactly when the store
    refuses the update of some pending order of the device, with the error
    of such an order; the pending orders whose update the store accepts
    carry the new table number all the same, and the refused ones keep
    theirs.  The error is logged once, and nothing is logged without one. *)
Theorem updateTableNumberInFirestore_partial_failure
    (answers : StoreAnswers) (newTableNumber deviceId : string) (w : World) :
  readError answers = None ->
  let result := updateTableNumberInFirestore answers newTableNumber deviceId w in
  let store := ordersCollection w in
  let store' := ordersCollection (worldAfter result) in
  (errorOf result = None
   <-> forall id d, store !! id = Some d -> isPendingOf deviceId d = true ->
         updateError answers id = None)
  /\ (forall e, errorOf result = Some e ->
        exists id d, store !! id = Some d /\ isPendingOf deviceId d = true
                     /\ updateError answers id = Some e)
  /\ (forall id d, store !! id = Some d -> isPendingOf deviceId d = true ->
        store' !! id
        = Some (match updateError answers id with
                | None => OrderData.withTableNumber (FString newTableNumber) d
                | Some _ => d
                end))
  /\ console (worldAfter result)
     = console w
       ++ match errorOf result with
          | Some e => [("Error updating table numbers:", e)]
          | None => []
          end.
Proof.
  intros Hread result store store'.
  set (docs := pendingOrdersQuery deviceId store).
  set (writes := tableNumberWrites newTableNumber docs).
  assert (Herror : errorOf result = firstError answers writes).
  { subst result. unfold updateTableNumberInFirestore. rewrite Hread.
    fold store docs writes. by destruct (firstError answers writes). }
  assert (Hstore : store'
            = List.fold_left (fun s wr => updateDoc answers wr s) writes store).
  { subst store' result. unfold updateTableNumberInFirestore. rewrite Hread.
    fold store docs writes. by destruct (firstError answers writes). }
  assert (Hconsole : console (worldAfter result)
            = console w ++ match firstError answers writes with
                           | Some e => [("Error updating table numbers:", e)]
                           | None => []
                           end).
  { subst result. unfold updateTableNumberInFirestore. rewrite Hread.
    fold store docs writes.
    destruct (firstError answers writes); cbn; [done|by rewrite app_nil_r]. }
  rewrite Herror, Hconsole. split_and!; [| | |done].
  - rewrite firstError_None. split.
    + intros Hall id d Hd Hp.
      apply (Hall (mkWrite id [("tableNumber", FString newTableNumber)])).
      apply tableNumberWrites_In. exists (id, d). split; [|done].
      by apply pendingOrdersQuery_In.
    + intros Hall wr ([id d] & Hin & ->)%tableNumberWrites_In.
      apply pendingOrdersQuery_In in Hin as [Hd Hp]. by apply (Hall id d).
  - intros e (wr & ([id d] & Hin & ->)%tableNumberWrites_In & He)%firstError_Some.
    apply pendingOrdersQuery_In in Hin as [Hd Hp]. by exists id, d.
  - intros id d Hd Hp. rewrite Hstore. subst writes.
    rewrite lookup_after_writes.
    destruct (updateError answers id) as [e|] eqn:Herr.
    + rewrite (accepted_refused answers id); [done|]. by rewrite Herr.
    + rewrite (accepted_true answers id); [by rewrite Hd| |done].
      rewrite writesTo_tableNumberWrites. subst docs. unfold pendingOrdersQuery.
      rewrite (count_key_map_to_list
                 (fun doc => isPendingOf deviceId (snd doc)) id store).
      fold store. rewrite Hd. cbn [snd]. by rewrite Hp.
Qed.

(** X3: [handleTableNumberSubmit] on a table number that is empty or made of
    white space only does nothing: no write to the storage, no update of an
    order, and the modal stays as it is. *)
Theorem handleTableNumberSubmit_blank
    (answers : StoreAnswers) (uuid : string) (w : World) :
  allWhiteSpace (tableNumber w) = true ->
  handleTableNumberSubmit answers uuid w = (w, []).
Proof.
  intros Hblank. unfold handleTableNumberSubmit. by rewrite blank_guard, Hblank.
Qed.

Lemma handleTableNumberSubmit_proceeds
    (answers : StoreAnswers) (uuid : string) (w : World) :
  allWhiteSpace (tableNumber w) = false ->
  handleTableNumberSubmit answers uuid w
  = let started := getDeviceId uuid (setItem "table_number" (tableNumber w) w) in
    match updateTableNumberInFirestore answers (tableNumber w) (fst started)
            (snd started) with
    | (w3, writes, None) => (setShowTableModal false w3, writes)
    | (w3, writes, Some e) =>
        (alert "Failed to update table number. Please try again."
           (console_error "Error updating table number:" e w3), writes)
    end.
Proof.
  intros Hblank. unfold handleTableNumberSubmit. rewrite blank_guard, Hblank.
  by destruct (getDeviceId uuid _).
Qed.

Lemma getDeviceId_storage_other (uuid key : string) (w : World) :
  key <> "device_id" ->
  localStorage (snd (getDeviceId uuid w)) !! key = localStorage w !! key.
Proof.
  intros Hkey. unfold getDeviceId.
  destruct (localStorage w !! "device_id") as [d|]; [destruct (truthy d)|];
    cbn [snd setItem setLocalStorage localStorage]; by rewrite ?lookup_insert_ne.
Qed.

Lemma getDeviceId_frame_modal (uuid : string) (w : World) :
  showTableModal (snd (getDeviceId uuid w)) = showTableModal w
  /\ alerts (snd (getDeviceId uuid w)) = alerts w.
Proof.
  unfold getDeviceId.
  destruct (localStorage w !! "device_id") as [d|]; [destruct (truthy d)|]; done.
Qed.

(** The storage after the handler has gone past its guard. *)
Lemma handleTableNumberSubmit_storage
    (answers : StoreAnswers) (uuid : string) (w : World) :
  allWhiteSpace (tableNumber w) = false ->
  localStorage (fst (handleTableNumberSubmit answers uuid w)) !! "table_number"
  = Some (tableNumber w).
Proof.
  intros Hblank. rewrite (handleTableNumberSubmit_proceeds _ _ _ Hblank). cbn zeta.
  set (started := getDeviceId uuid (setItem "table_number" (tableNumber w) w)).
  pose proof (updateTableNumberInFirestore_frame answers (tableNumber w)
                (fst started) (snd started)) as (_ & _ & _ & _ & _ & Hls & _).
  destruct (updateTableNumberInFirestore answers (tableNumber w) (fst started)
              (snd started)) as [[w3 writes] [e|]];
    cbn [worldAfter fst snd] in Hls |- *;
    cbn [alert console_error setShowTableModal localStorage]; rewrite Hls;
    subst started; rewrite getDeviceId_storage_other by done;
    cbn [setItem setLocalStorage localStorage]; apply lookup_insert_eq.
Qed.

(** X4: [handleTableNumberSubmit] on a table number that is not blank, with
    a store that answers the query and accepts every update: the table
    number is in the storage, every pending order of the device carries it
    (as a string), every other order is as before, the modal is closed, and
    no alert is shown. *)
Theorem handleTableNumberSubmit_accepted
    (answers : StoreAnswers) (uuid : string) (w : World) :
  allWhiteSpace (tableNumber w) = false ->
  readError answers = None ->
  (forall id, updateError answers id = None) ->
  let w' := fst (handleTableNumberSubmit answers uuid w) in
  let deviceId := fst (getDeviceId uuid w) in
  localStorage w' !! "table_number" = Some (tableNumber w)
  /\ showTableModal w' = false
  /\ alerts w' = alerts w
  /\ console w' = console w
  /\ (forall id d, ordersCollection w !! id = Some d ->
        ordersCollection w' !! id
        = Some (if isPendingOf deviceId d
                then OrderData.withTableNumber (FString (tableNumber w)) d
                else d))
  /\ (forall id, ordersCollection w !! id = None -> ordersCollection w' !! id = None).
Proof.
  intros Hblank Hread Hall w' deviceId.
  split; [by apply handleTableNumberSubmit_storage|].
  subst w'. rewrite (handleTableNumberSubmit_proceeds _ _ _ Hblank). cbn zeta.
  set (w1 := setItem "table_number" (tableNumber w) w).
  assert (Hdev : fst (getDeviceId uuid w1) = deviceId).
  { subst deviceId w1. unfold getDeviceId. cbn [setItem setLocalStorage localStorage].
    rewrite lookup_insert_ne by done.
    destruct (localStorage w !! "device_id") as [d|]; [by destruct (truthy d)|done]. }
  rewrite Hdev.
  destruct (getDeviceId_frame uuid w1) as (_ & _ & _ & _ & Hcon & Hcoll).
  destruct (getDeviceId_frame_modal uuid w1) as [_ Halerts].
  set (w2 := snd (getDeviceId uuid w1)) in *.
  assert (Hcoll' : ordersCollection w2 = ordersCollection w) by by rewrite Hcoll.
  unfold updateTableNumberInFirestore. rewrite Hread, Hcoll'.
  set (writes := tableNumberWrites (tableNumber w)
                   (pendingOrdersQuery deviceId (ordersCollection w))).
  assert (firstError answers writes = None) as ->
    by (apply firstError_None; intros; apply Hall).
  cbn [fst snd setShowTableModal setOrdersCollection showTableModal alerts
       console ordersCollection].
  assert (Hcount : forall id,
            writesTo id writes
            = match ordersCollection w !! id with
              | Some d => if isPendingOf deviceId d then 1 else 0
              | None => 0
              end).
  { intros id. subst writes. rewrite writesTo_tableNumberWrites.
    unfold pendingOrdersQuery.
    by rewrite (count_key_map_to_list
                  (fun doc => isPendingOf deviceId (snd doc)) id (ordersCollection w)). }
  assert (Hlookup : forall id,
            List.fold_left (fun s wr => updateDoc answers wr s) writes
              (ordersCollection w) !! id
            = if accepted answers id writes
              then OrderData.withTableNumber (FString (tableNumber w))
                     <$> ordersCollection w !! id
              else ordersCollection w !! id).
  { intros id. subst writes. apply lookup_after_writes. }
  rewrite Halerts, Hcon, ?Hcoll'. split_and!; try done.
  - intros id d Hd. rewrite Hlookup. destruct (isPendingOf deviceId d) eqn:Hp.
    + rewrite (accepted_true answers id); [by rewrite Hd| |by apply Hall].
      by rewrite Hcount, Hd, Hp.
    + rewrite (accepted_false answers id); [by rewrite Hd|].
      by rewrite Hcount, Hd, Hp.
  - intros id Hnone. rewrite Hlookup.
    rewrite (accepted_false answers id); [done|].
    by rewrite Hcount, Hnone.
Qed.

(** X5: [handleTableNumberSubmit] with a store that refuses the query: the
    table number has been written to the storage all the same, no order is
    updated, the modal stays as it is, the error is logged twice (by
    [updateTableNumberInFirestore] and by the handler) and one alert is
    shown. *)
Theorem handleTableNumberSubmit_refused
    (answers : StoreAnswers) (uuid error : string) (w : World) :
  allWhiteSpace (tableNumber w) = false ->
  readError answers = Some error ->
  let w' := fst (handleTableNumberSubmit answers uuid w) in
  snd (handleTableNumberSubmit answers uuid w) = []
  /\ localStorage w' !! "table_number" = Some (tableNumber w)
  /\ ordersCollection w' = ordersCollection w
  /\ showTableModal w' = showTableModal w
  /\ alerts w' = alerts w ++ ["Failed to update table number. Please try again."]
  /\ console w'
     = console w ++ [("Error updating table numbers:", error);
                     ("Error updating table number:", error)].
Proof.
  intros Hblank Hread w'.
  split; [|split; [by apply handleTableNumberSubmit_storage|]];
    subst w'; rewrite (handleTableNumberSubmit_proceeds _ _ _ Hblank); cbn zeta;
    set (w1 := setItem "table_number" (tableNumber w) w);
    destruct (getDeviceId_frame uuid w1) as (_ & _ & _ & _ & Hcon & Hcoll);
    destruct (getDeviceId_frame_modal uuid w1) as [Hmodal Halerts];
    unfold updateTableNumberInFirestore; rewrite Hread;
    cbn [fst snd alert console_error showTableModal alerts console ordersCollection];
    [done|].
  rewrite Hcon, Hcoll, Hmodal, Halerts. split_and!; try done.
  by rewrite <- app_assoc.
Qed.

(** X6: the table number survives a reload.  Once [handleTableNumberSubmit]
    has gone past its guard (the table number is not blank), a component
    mounted afresh on the storage it leaves, with no [table] parameter in the
    URL, takes that table number and opens no modal, whether or not the
    store accepted the updates. *)
Theorem table_number_survives_reload
    (answers : StoreAnswers) (uuid : string) (w : World)
    (store : gmap string OrderData.t) :
  allWhiteSpace (tableNumber w) = false ->
  let w' := fst (handleTableNumberSubmit answers uuid w) in
  let reloaded := resolveTable None (initialWorld (localStorage w') store) in
  tableNumber reloaded = tableNumber w /\ showTableModal reloaded = false.
Proof.
  intros Hblank w' reloaded. subst reloaded. unfold resolveTable.
  cbn [truthyOpt initialWorld localStorage]. subst w'.
  rewrite (handleTableNumberSubmit_storage _ _ _ Hblank). cbn [truthyOpt default].
  assert (truthy (tableNumber w) = true) as ->; [|done].
  apply truthy_true. intros Hempty. by rewrite Hempty in Hblank.
Qed.

(** X7: the effect that resolves the table number can run again without
    harm: running it twice on the same URL parameter leaves the same world
    as running it once. *)
Theorem resolveTable_idempotent (tableFromUrl : option string) (w : World) :
  resolveTable tableFromUrl (resolveTable tableFromUrl w)
  = resolveTable tableFromUrl w.
Proof.
  unfold resolveTable at 2.
  destruct (truthyOpt tableFromUrl) eqn:Hurl.
  - unfold resolveTable. rewrite Hurl. destruct w.
    unfold setShowTableModal, setItem, setLocalStorage, setTableNumber.
    cbn [cart isSubmitting orders isLoadingOrders tableNumber showTableModal
         localStorage console alerts ordersCollection].
    f_equal. apply insert_insert_eq.
  - destruct (truthyOpt (localStorage w !! "table_number")) eqn:Hsaved; [|
      unfold resolveTable; by rewrite Hurl, Hsaved].
    unfold resolveTable. rewrite Hurl.
    cbn [setShowTableModal setTableNumber localStorage]. by rewrite Hsaved.
Qed.

(** ** Submitting an order: one at a time, and found again after a reload *)

Lemma getDeviceId_reads (uuid stored : string) (w : World) :
  localStorage w !! "device_id" = Some stored -> stored <> "" ->
  getDeviceId uuid w = (stored, w).
Proof.
  intros Hstored Hne. unfold getDeviceId.
  by rewrite Hstored, (proj2 (truthy_true stored) Hne).
Qed.

Lemma getDeviceId_stored (uuid : string) (w : World) :
  uuid <> "" ->
  fst (getDeviceId uuid w) <> ""
  /\ localStorage (snd (getDeviceId uuid w)) !! "device_id"
     = Some (fst (getDeviceId uuid w)).
Proof.
  intros Huuid. unfold getDeviceId.
  destruct (localStorage w !! "device_id") as [stored|] eqn:Hstored;
    [destruct (truthy stored) eqn:Htruthy|];
    cbn [fst snd setItem setLocalStorage localStorage];
    rewrite ?lookup_insert_eq; try done.
  by apply truthy_true in Htruthy.
Qed.

(** X8: one submission at a time.  While [handleOrderNow] waits for the
    store the flag is up, and a further call (whatever its time stamp and
    whatever the store would answer) returns at the guard: it hands nothing
    to the store and changes nothing.  Once an accepted submission has
    finished, a further call does nothing either, the cart being empty. *)
Theorem handleOrderNow_single_flight
    (uuid : string) (now : number) (w : World) :
  cart w <> [] -> tableNumber w <> "" -> isSubmitting w = false ->
  let waiting := fst (handleOrderNow_call uuid now w) in
  isSubmitting waiting = true
  /\ cart waiting = cart w
  /\ (forall uuid' now' answer' during',
        snd (handleOrderNow_call uuid' now' waiting) = None
        /\ handleOrderNow uuid' now' answer' during' waiting = waiting)
  /\ (forall orderId during uuid' now' answer' during',
        let final := handleOrderNow uuid now (DocAdded orderId) during w in
        snd (handleOrderNow_call uuid' now' final) = None
        /\ handleOrderNow uuid' now' answer' during' final = final).
Proof.
  intros Hcart Htable Hsub waiting.
  assert (Hwaiting : isSubmitting waiting = true /\ cart waiting = cart w).
  { subst waiting. rewrite (handleOrderNow_call_passes _ _ w Hcart Hsub Htable).
    cbn [fst].
    by destruct (getDeviceId_frame uuid (setIsSubmitting true w))
      as (-> & -> & _). }
  destruct Hwaiting as [Hflag Hkept]. split_and!; try done.
  - intros uuid' now' answer' during'.
    unfold handleOrderNow, handleOrderNow_call.
    by rewrite (guard_blocks waiting (or_intror (or_intror Hflag))).
  - intros orderId during uuid' now' answer' during' final.
    assert (Hempty : cart final = []).
    { subst final. by rewrite (handleOrderNow_passes _ _ _ _ w Hcart Hsub Htable). }
    unfold handleOrderNow, handleOrderNow_call.
    by rewrite (guard_blocks final (or_introl Hempty)).
Qed.

(** X9: an order placed is found again after a reload.  The order carries
    the device id that [getDeviceId] leaves in the storage, so a component
    mounted afresh on the storage and the store left by an accepted
    submission reads the same device id (no new one is made), and the first
    snapshot of its subscription lists the new order exactly once. *)
Theorem order_listed_after_reload
    (uuid uuid' : string) (now : number) (orderId : string) (w : World) :
  uuid <> "" ->
  cart w <> [] -> tableNumber w <> "" -> isSubmitting w = false ->
  let final := handleOrderNow uuid now (DocAdded orderId) (fun w => w) w in
  let mounted := initialWorld (localStorage final) (ordersCollection final) in
  let deviceId := fst (getDeviceId uuid' mounted) in
  let listed := deliverSnapshot deviceId (snd (getDeviceId uuid' mounted)) in
  deviceId = OrderData.deviceId (newOrderOf uuid now w)
  /\ snd (getDeviceId uuid' mounted) = mounted
  /\ countId orderId (orders listed) = 1
  /\ isLoadingOrders listed = false.
Proof.
  intros Huuid Hcart Htable Hsub final mounted deviceId listed.
  set (started := getDeviceId uuid (setIsSubmitting true w)).
  assert (Hstorage : localStorage final = localStorage (snd started)).
  { subst final. rewrite (handleOrderNow_passes _ _ _ _ w Hcart Hsub Htable).
    by rewrite (worldAtAnswer_passes _ _ _ _ w Hcart Hsub Htable). }
  assert (Hstore : ordersCollection final
                   = <[orderId := newOrderOf uuid now w]> (ordersCollection w)).
  { subst final. rewrite (handleOrderNow_passes _ _ _ _ w Hcart Hsub Htable).
    cbn [saveOrder_settle handleOrderNow_settle setIsSubmitting setCart setOrders
         ordersCollection].
    by apply ordersCollection_sent. }
  destruct (getDeviceId_stored uuid (setIsSubmitting true w) Huuid) as [Hne Hheld].
  subst started. rewrite (getDeviceId_setIsSubmitting uuid true w) in Hne, Hheld.
  assert (Hread : getDeviceId uuid' mounted = (fst (getDeviceId uuid w), mounted)).
  { apply getDeviceId_reads; [|done]. subst mounted.
    cbn [initialWorld localStorage]. by rewrite Hstorage. }
  subst listed deviceId. rewrite Hread. cbn [fst snd]. split_and!; try done.
  cbn [deliverSnapshot onSnapshot_next orders setIsLoadingOrders setOrders].
  subst mounted. cbn [initialWorld ordersCollection]. rewrite Hstore.
  apply (countId_deviceOrdersQuery _ _ _ (newOrderOf uuid now w));
    [apply lookup_insert_eq|done].
Qed.

(** ** The live subscription *)

Lemma deviceOrdersQuery_In (deviceId id : string) (d : OrderData.t)
    (store : gmap string OrderData.t) :
  In (id, d) (deviceOrdersQuery deviceId store)
  <-> store !! id = Some d /\ OrderData.deviceId d = deviceId.
Proof.
  unfold deviceOrdersQuery. rewrite <- list_elem_of_In, merge_sort_Permutation.
  rewrite list_elem_of_In, List.filter_In. cbn [snd].
  by rewrite <- list_elem_of_In, elem_of_map_to_list, String.eqb_eq.
Qed.

(** X10: a snapshot replaces the order list by the orders of the device in
    the store: every order of the store with this device id is listed
    exactly once, under its document id and with its stored data, and no
    other order is listed, whatever the list held before; the loading flag
    is lowered and the cart is not touched.  Delivering the same snapshot
    again changes nothing, and an error of the subscription reported in
    between (logged, with the order list kept) does not change what the
    next snapshot lists. *)
Theorem deliverSnapshot_lists_device_orders (deviceId : string) (w : World) :
  let w' := deliverSnapshot deviceId w in
  (forall id,
     countId id (orders w')
     = match ordersCollection w !! id with
       | Some d => if String.eqb (OrderData.deviceId d) deviceId then 1 else 0
       | None => 0
       end)
  /\ (forall order,
        In order (orders w')
        <-> exists id,
              Order.id order = Some id
              /\ ordersCollection w !! id = Some (Order.data order)
              /\ OrderData.deviceId (Order.data order) = deviceId)
  /\ length (orders w')
     = length (List.filter
                 (fun doc => String.eqb (OrderData.deviceId (snd doc)) deviceId)
                 (map_to_list (ordersCollection w)))
  /\ isLoadingOrders w' = false
  /\ cart w' = cart w
  /\ ordersCollection w' = ordersCollection w
  /\ deliverSnapshot deviceId w' = w'
  /\ (forall error,
        orders (onSnapshot_error error w) = orders w
        /\ orders (deliverSnapshot deviceId (onSnapshot_error error w)) = orders w').
Proof.
  intros w'. subst w'. unfold deliverSnapshot, onSnapshot_next.
  cbn [orders isLoadingOrders cart ordersCollection setIsLoadingOrders setOrders].
  split_and!; try done.
  - intros id. rewrite countId_snapshotOrders. unfold deviceOrdersQuery.
    rewrite (filter_length_Permutation _ _ _ (merge_sort_Permutation _ _)).
    by rewrite (count_key_map_to_list
                  (fun doc => String.eqb (OrderData.deviceId (snd doc)) deviceId)
                  id (ordersCollection w)).
  - intros order. unfold snapshotOrders. rewrite List.in_map_iff. split.
    + intros ([id d] & <- & Hin). apply deviceOrdersQuery_In in Hin as [Hd Hdev].
      by exists id.
    + intros (id & Hid & Hd & Hdev). exists (id, Order.data order). split.
      * destruct order as [oid data]. cbn in Hid |- *. by rewrite Hid.
      * by apply deviceOrdersQuery_In.
  - unfold snapshotOrders, deviceOrdersQuery. rewrite List.length_map.
    apply Permutation_length, merge_sort_Permutation.
Qed.


(** ** The key of a cart line, read back *)

Lemma allNumberChars_app (a b : string) :
  allNumberChars (a +:+ b) = allNumberChars a && allNumberChars b.
Proof.
  induction a as [|c a IH]; [done|].
  rewrite append_cons. cbn [allNumberChars]. rewrite IH. apply andb_assoc.
Qed.

Lemma allNumberChars_substring (n m : nat) (s : string) :
  allNumberChars s = true -> allNumberChars (substring n m s) = true.
Proof.
  revert n m. induction s as [|c s IH]; intros n m; [by destruct n, m|].
  cbn [allNumberChars]. intros [Hc Hs]%andb_true_iff.
  destruct n as [|n]; [destruct m as [|m]|]; cbn [substring allNumberChars].
  - done.
  - by rewrite Hc, IH.
  - by apply IH.
Qed.

Lemma allNumberChars_zeros (n : nat) : allNumberChars (zeros n) = true.
Proof. induction n as [|n IH]; [done|]. cbn [zeros allNumberChars]. by rewrite IH. Qed.

Lemma allNumberChars_decimalOfZ (z : Z) : allNumberChars (decimalOfZ z) = true.
Proof.
  unfold decimalOfZ. generalize (N.to_uint (Z.to_N z)) as d. intros d.
  assert (H : allNumberChars (NilEmpty.string_of_uint d) = true).
  { induction d as [|d IH|d IH|d IH|d IH|d IH|d IH|d IH|d IH|d IH|d IH];
      [done|..]; cbn [NilEmpty.string_of_uint allNumberChars]; by rewrite IH. }
  by destruct d.
Qed.

Lemma allNumberChars_formatDigits (digits : string) (n : Z) :
  allNumberChars digits = true -> allNumberChars (formatDigits digits n) = true.
Proof.
  intros Hd. unfold formatDigits.
  repeat match goal with
         | |- context [if ?b then _ else _] => destruct b
         end;
    rewrite ?allNumberChars_app, ?allNumberChars_substring, ?allNumberChars_zeros,
      ?allNumberChars_decimalOfZ, ?Hd by done; done.
Qed.

Lemma allNumberChars_Number_toString (x : number) :
  allNumberChars (Number_toString x) = true.
Proof.
  unfold Number_toString. destruct (Prim2SF x) as [s|s| |s m e]; try done.
  - by destruct s.
  - destruct (shortestDigits m e) as [[digits t]|]; [|done].
    rewrite allNumberChars_app, allNumberChars_formatDigits
      by apply allNumberChars_decimalOfZ.
    by destruct s.
Qed.

(** A printed number has no brace, comma or quote in it. *)
Lemma allNumberChars_JSON_number (x : number) :
  allNumberChars (JSON_number x) = true.
Proof.
  unfold JSON_number. destruct (isFinite x); [|done].
  apply allNumberChars_Number_toString.
Qed.

Lemma String_tail (c c' : ascii) (a b : string) :
  String c a = String c' b -> a = b.
Proof. by intros [= _ ->]. Qed.

Lemma String_head (c c' : ascii) (a b : string) :
  String c a = String c' b -> c = c'.
Proof. by intros [= -> _]. Qed.

(** A printed number ends where the closing brace stands. *)
Lemma number_then_brace (n1 n2 rest1 rest2 : string) :
  allNumberChars n1 = true -> allNumberChars n2 = true ->
  n1 +:+ String "}" rest1 = n2 +:+ String "}" rest2 ->
  n1 = n2 /\ rest1 = rest2.
Proof.
  revert n2. induction n1 as [|c n1 IH]; intros [|c' n2];
    cbn [allNumberChars]; rewrite ?append_cons, ?append_nil.
  - intros _ _ Heq. by apply String_tail in Heq.
  - intros _ [Hc _]%andb_true_iff Heq. apply String_head in Heq. by subst c'.
  - intros [Hc _]%andb_true_iff _ Heq. apply String_head in Heq. by subst c.
  - intros [_ H1]%andb_true_iff [_ H2]%andb_true_iff Heq.
    pose proof (String_head _ _ _ _ Heq) as ->.
    apply String_tail in Heq. by destruct (IH n2 H1 H2 Heq) as [-> ->].
Qed.

Lemma stringifyOption_shape (o : SelectedOption.t) (tail : string) :
  stringifyOption o +:+ tail
  = String "{" (QuoteJSONString "id" +:+ String ":"
      (QuoteJSONString (SelectedOption.id o) +:+ String ","
        (QuoteJSONString "name" +:+ String ":"
          (QuoteJSONString (SelectedOption.name o) +:+ String ","
            (QuoteJSONString "price" +:+ String ":"
              (JSON_number (SelectedOption.price o) +:+ String "}" tail)))))).
Proof.
  unfold stringifyOption.
  generalize (JSON_number (SelectedOption.price o)) as price.
  generalize (QuoteJSONString (SelectedOption.id o)) as qid.
  generalize (QuoteJSONString (SelectedOption.name o)) as qname.
  generalize (QuoteJSONString "id") as kid.
  generalize (QuoteJSONString "name") as kname.
  generalize (QuoteJSONString "price") as kprice.
  intros. push_append. reflexivity.
Qed.

(** The serialization of an option, followed by any text, gives back the
    three fields and the text. *)
Lemma stringifyOption_prefix_free (o1 o2 : SelectedOption.t) (rest1 rest2 : string) :
  stringifyOption o1 +:+ rest1 = stringifyOption o2 +:+ rest2 ->
  optionFields o1 = optionFields o2 /\ rest1 = rest2.
Proof.
  rewrite !stringifyOption_shape. intros Heq.
  apply String_tail in Heq.
  apply QuoteJSONString_prefix_free in Heq as [_ Heq].
  apply String_tail in Heq.
  apply QuoteJSONString_prefix_free in Heq as [Hid Heq].
  apply String_tail in Heq.
  apply QuoteJSONString_prefix_free in Heq as [_ Heq].
  apply String_tail in Heq.
  apply QuoteJSONString_prefix_free in Heq as [Hname Heq].
  apply String_tail in Heq.
  apply QuoteJSONString_prefix_free in Heq as [_ Heq].
  apply String_tail in Heq.
  apply number_then_brace in Heq as [Hprice Hrest];
    [|apply allNumberChars_JSON_number..].
  unfold optionFields. by rewrite Hid, Hname, Hprice.
Qed.

Lemma stringifyOption_fields (o1 o2 : SelectedOption.t) :
  optionFields o1 = optionFields o2 -> stringifyOption o1 = stringifyOption o2.
Proof.
  unfold optionFields, stringifyOption. intros Heq.
  pose proof (f_equal (fun p => fst (fst p)) Heq) as Hid.
  pose proof (f_equal (fun p => snd (fst p)) Heq) as Hname.
  pose proof (f_equal snd Heq) as Hprice. cbn [fst snd] in Hid, Hname, Hprice.
  by rewrite Hid, Hname, Hprice.
Qed.

Lemma joinComma_cons_app (x : string) (rest : list string) (tail : string) :
  joinComma (x :: rest) +:+ tail
  = x +:+ match rest with
          | [] => tail
          | _ :: _ => String "," (joinComma rest +:+ tail)
          end.
Proof.
  destruct rest as [|y rest]; [done|].
  change (joinComma (x :: y :: rest)) with (x +:+ "," +:+ joinComma (y :: rest)).
  generalize (joinComma (y :: rest)) as j. intros j. by push_append.
Qed.

Lemma joinComma_fields (a b : list SelectedOption.t) :
  joinComma (List.map stringifyOption a) +:+ "]"
  = joinComma (List.map stringifyOption b) +:+ "]" ->
  List.map optionFields a = List.map optionFields b.
Proof.
  revert b. induction a as [|o1 a IH]; intros [|o2 b]; [done|..];
    cbn [List.map]; rewrite ?joinComma_cons_app.
  - cbn [joinComma]. rewrite append_nil, stringifyOption_shape.
    intros Heq. apply String_head in Heq. discriminate.
  - cbn [joinComma]. rewrite append_nil, stringifyOption_shape.
    intros Heq. apply String_head in Heq. discriminate.
  - intros [Hfields Hrest]%stringifyOption_prefix_free. rewrite Hfields. f_equal.
    destruct a as [|o1' a], b as [|o2' b]; cbn [List.map] in Hrest |- *.
    + done.
    + apply String_head in Hrest. discriminate.
    + apply String_head in Hrest. discriminate.
    + apply String_tail in Hrest. by apply (IH (o2' :: b)).
Qed.

(** Two selections serialize alike exactly when they list, in the same
    order, options of the same ids, names and printed prices. *)
Lemma JSON_stringify_fields (a b : list SelectedOption.t) :
  JSON_stringify a = JSON_stringify b
  <-> List.map optionFields a = List.map optionFields b.
Proof.
  unfold JSON_stringify. split.
  - generalize (joinComma_fields a b).
    generalize (joinComma (List.map stringifyOption a)) as ja.
    generalize (joinComma (List.map stringifyOption b)) as jb.
    intros jb ja Hfields. push_append. intros Heq.
    apply String_tail in Heq. by apply Hfields.
  - intros Heq.
    assert (List.map stringifyOption a = List.map stringifyOption b) as ->; [|done].
    revert b Heq. induction a as [|o1 a IH]; intros [|o2 b]; cbn [List.map];
      try done.
    intros Heq.
    pose proof (f_equal (fun l => List.hd (optionFields o1) l) Heq) as Hhd.
    pose proof (f_equal (@List.tl _) Heq) as Htl. cbn [List.hd List.tl] in Hhd, Htl.
    by rewrite (stringifyOption_fields o1 o2 Hhd), (IH b Htl).
Qed.

(** X11: what makes two orders the same cart line.  A line answers to an
    item id and a selection exactly when it has that item id and its
    selected options are, one by one and in the same order, options of the
    same id, the same name and the same printed price as those of the
    selection.  The printed price tells less than the price: 0 and -0 print
    alike, and so do NaN and the infinities. *)
Theorem sameLine_reads_option_fields
    (itemId : string) (selected : list SelectedOption.t) (line : CartItem.t) :
  (sameLine itemId selected line = true
   <-> CartItem.id line = itemId
       /\ List.map optionFields (CartItem.selectedOptions line)
          = List.map optionFields selected)
  /\ (sameLine itemId selected line = true ->
      length (CartItem.selectedOptions line) = length selected)
  /\ JSON_number PrimFloat.zero = JSON_number PrimFloat.neg_zero
  /\ JSON_number PrimFloat.nan = JSON_number PrimFloat.infinity
  /\ JSON_number PrimFloat.infinity = JSON_number PrimFloat.neg_infinity.
Proof.
  assert (Hkey : sameLine itemId selected line = true
                 <-> CartItem.id line = itemId
                     /\ List.map optionFields (CartItem.selectedOptions line)
                        = List.map optionFields selected).
  { unfold sameLine.
    by rewrite andb_true_iff, !String.eqb_eq, JSON_stringify_fields. }
  split; [done|]. split; [|by vm_compute].
  intros [_ Hfields]%Hkey. apply (f_equal (@length _)) in Hfields.
  by rewrite !List.length_map in Hfields.
Qed.

(** X12: no two lines of a cart the page can hold are the same order: two
    lines with the same item id whose selected options have the same ids,
    names and printed prices in the same order are one line. *)
Theorem reachableCart_lines_distinct (cart : Cart) (i j : nat) (a b : CartItem.t) :
  reachableCart cart ->
  cart !! i = Some a -> cart !! j = Some b ->
  CartItem.id a = CartItem.id b ->
  List.map optionFields (CartItem.selectedOptions a)
  = List.map optionFields (CartItem.selectedOptions b) ->
  i = j.
Proof.
  intros Hreach Ha Hb Hid Hfields.
  pose proof (reachableCart_keys_unique cart Hreach) as Hnodup.
  apply (proj1 (NoDup_alt _) Hnodup i j (lineKey a)).
  - change (List.map lineKey cart) with (lineKey <$> cart).
    by rewrite list_lookup_fmap, Ha.
  - change (List.map lineKey cart) with (lineKey <$> cart).
    rewrite list_lookup_fmap, Hb. cbn. unfold lineKey.
    by rewrite Hid, (proj2 (JSON_stringify_fields _ _) Hfields).
Qed.

(** ** Placing and changing, one after the other *)

Lemma sameLine_withQuantity (itemId : string) (selected : list SelectedOption.t)
    (q : number) (line : CartItem.t) :
  sameLine itemId selected (CartItem.withQuantity q line)
  = sameLine itemId selected line.
Proof. reflexivity. Qed.

Lemma filter_after_requantify (itemId : string) (selected : list SelectedOption.t)
    (f : CartItem.t -> number) (currentCart : Cart) :
  List.filter (fun line => negb (sameLine itemId selected line))
    (List.map (fun line => if sameLine itemId selected line
                           then CartItem.withQuantity (f line) line else line)
       currentCart)
  = List.filter (fun line => negb (sameLine itemId selected line)) currentCart.
Proof.
  induction currentCart as [|line rest IH]; [done|]. cbn [List.map List.filter].
  destruct (sameLine itemId selected line) eqn:Hline;
    [rewrite sameLine_withQuantity|]; rewrite Hline; cbn [negb]; by rewrite IH.
Qed.

(** X13: an order placed and taken back.  On a cart with no line for the
    item and the selection, [handlePlaceOrder] followed by
    [handleUpdateQuantity] with a quantity below 1 gives the cart back; on
    any cart, a quantity of 1 or more set after placing gives what setting
    it at once gives, a line appended by the placing apart. *)
Theorem place_then_update
    (item : MenuItem.t) (selected : list SelectedOption.t) (newQuantity : number)
    (currentCart : Cart) :
  let key := sameLine (MenuItem.id item) selected in
  let placed := placeOrderUpdate item selected currentCart in
  ((forall line, In line currentCart -> key line = false) ->
     (newQuantity <? 1)%float = true ->
     updateQuantityUpdate (MenuItem.id item) newQuantity selected placed
     = currentCart)
  /\ ((forall line, In line currentCart -> key line = false) ->
      (newQuantity <? 1)%float = false ->
      updateQuantityUpdate (MenuItem.id item) newQuantity selected placed
      = currentCart ++ [CartItem.ofMenuItem item newQuantity selected])
  /\ ((exists line, In line currentCart /\ key line = true) ->
      updateQuantityUpdate (MenuItem.id item) newQuantity selected placed
      = updateQuantityUpdate (MenuItem.id item) newQuantity selected currentCart).
Proof.
  intros key placed. subst key placed. split_and!.
  - intros Hno Hlt. unfold placeOrderUpdate, updateQuantityUpdate.
    rewrite (find_key_None _ _ _ Hno), Hlt, List.filter_app.
    rewrite (filter_key_id _ _ _ Hno). cbn [List.filter].
    rewrite sameLine_ofMenuItem. cbn [negb]. apply app_nil_r.
  - intros Hno Hge. unfold placeOrderUpdate, updateQuantityUpdate.
    rewrite (find_key_None _ _ _ Hno), Hge, List.map_app.
    rewrite (map_key_id _ _ _ _ Hno). cbn [List.map].
    by rewrite sameLine_ofMenuItem.
  - intros Hex. unfold placeOrderUpdate.
    destruct (find_key_Some _ _ _ Hex) as [found ->].
    unfold updateQuantityUpdate. destruct (newQuantity <? 1)%float.
    + apply filter_after_requantify.
    + rewrite List.map_map. apply List.map_ext. intros line.
      destruct (sameLine (MenuItem.id item) selected line) eqn:Hline;
        [by rewrite sameLine_withQuantity, Hline|by rewrite Hline].
Qed.

(** X14: the last quantity set is the one that counts.  Setting a quantity
    twice is setting it once; a quantity set after one that did not remove
    the line replaces it; and after a removal a further change of the same
    line finds nothing to change. *)
Theorem handleUpdateQuantity_last_wins
    (itemId : string) (first second : number)
    (selected : list SelectedOption.t) (currentCart : Cart) :
  let update q := updateQuantityUpdate itemId q selected in
  update second (update second currentCart) = update second currentCart
  /\ ((first <? 1)%float = false ->
      update second (update first currentCart) = update second currentCart)
  /\ ((first <? 1)%float = true ->
      update second (update first currentCart) = update first currentCart).
Proof.
  intros update. subst update.
  assert (Hset : forall q, (q <? 1)%float = false ->
            updateQuantityUpdate itemId second selected
              (updateQuantityUpdate itemId q selected currentCart)
            = updateQuantityUpdate itemId second selected currentCart).
  { intros q Hq. unfold updateQuantityUpdate at 2. rewrite Hq.
    unfold updateQuantityUpdate. destruct (second <? 1)%float.
    - apply (filter_after_requantify itemId selected (fun _ => q)).
    - rewrite List.map_map. apply List.map_ext. intros line.
      destruct (sameLine itemId selected line) eqn:Hline;
        [by rewrite sameLine_withQuantity, Hline|by rewrite Hline]. }
  assert (Hremoved : forall q, (q <? 1)%float = true ->
            updateQuantityUpdate itemId second selected
              (updateQuantityUpdate itemId q selected currentCart)
            = updateQuantityUpdate itemId q selected currentCart).
  { intros q Hq. unfold updateQuantityUpdate at 2 3. rewrite Hq.
    assert (Hno : forall line,
              In line (List.filter (fun item => negb (sameLine itemId selected item))
                         currentCart) ->
              sameLine itemId selected line = false).
    { intros line [_ Hk]%List.filter_In. by apply negb_true_iff. }
    unfold updateQuantityUpdate. destruct (second <? 1)%float.
    - by apply filter_key_id.
    - by apply map_key_id. }
  split_and!; [|exact (Hset first)|exact (Hremoved first)].
  destruct (second <? 1)%float eqn:Hsecond; [by apply Hremoved|by apply Hset].
Qed.

(** ** The total after a first order *)

Section TimesOne.
Local Open Scope Z_scope.

(** Multiplying a double by 1 gives the double back, whatever it is. *)
Lemma mul_one_r (x : number) : (x * 1)%float = x.
Proof.
apply Prim2SF_inj. rewrite mul_spec.
change (Prim2SF 1%float) with (S754_finite false 4503599627370496 (-52)).
pose proof (Prim2SF_valid x) as Hvalid.
destruct (Prim2SF x) as [s|s| |s m e]; cbn [SF64mul SFmul];
  rewrite ?xorb_false_r; try done.
cbn [SpecFloat.valid_binary] in Hvalid. unfold bounded in Hvalid.
apply andb_true_iff in Hvalid as [Hcanon He%Z.leb_le].
assert (Hm : (m * 4503599627370496)%positive = Pos.iter xO m 52%positive).
{ apply Pos2Z.inj. rewrite Zpos_iter_xO, Pos2Z.inj_mul. reflexivity. }
rewrite Hm.
replace e with ((e + -52) + Zpos 52) in Hcanon, He |- * at 2 by lia.
by apply binary_round_aux_shift.
Qed.
End TimesOne.

(** X15: a first order adds its price.  Placing an item for which the cart
    has no line sends the total up by the price of the item (added as
    doubles are), whatever was selected: the prices of the selected options
    do not come into it. *)
Theorem cartTotal_after_first_order
    (item : MenuItem.t) (selected : list SelectedOption.t) (currentCart : Cart) :
  (forall line, In line currentCart ->
     sameLine (MenuItem.id item) selected line = false) ->
  cartTotal (placeOrderUpdate item selected currentCart)
  = (cartTotal currentCart + MenuItem.price item)%float.
Proof.
  intros Hno. unfold placeOrderUpdate. rewrite (find_key_None _ _ _ Hno).
  rewrite cartTotal_snoc. unfold lineAmount.
  cbn [CartItem.ofMenuItem CartItem.price CartItem.quantity].
  by rewrite mul_one_r.
Qed.

(** ** The same order placed again and again *)

(** X22: the same order placed [n] times on an empty cart makes one line of
    quantity [n], for every [n] from 1 up to [2^53 - 1]: the quantity counts
    the orders exactly.  At [2^53] it counts no more: adding 1 gives [2^53]
    again. *)
Theorem handlePlaceOrder_counts
    (item : MenuItem.t) (selected : list SelectedOption.t) (n : nat) :
  (1 <= n)%nat -> (Z.of_nat n < 2 ^ 53)%Z ->
  Nat.iter n (placeOrderUpdate item selected) []
  = [CartItem.ofMenuItem item (Z2Number (Z.of_nat n)) selected]
  /\ (Z2Number (2 ^ 53) + 1)%float = Z2Number (2 ^ 53).
Proof.
  intros Hn Hbound. split; [|reflexivity].
  induction n as [|n IH]; [lia|]. destruct n as [|n]; [reflexivity|].
  change (Nat.iter (S (S n)) (placeOrderUpdate item selected) [])
    with (placeOrderUpdate item selected
            (Nat.iter (S n) (placeOrderUpdate item selected) [])).
  rewrite IH by lia. unfold placeOrderUpdate. cbn [List.find List.map].
  rewrite sameLine_ofMenuItem.
  cbn [CartItem.withQuantity CartItem.ofMenuItem CartItem.quantity CartItem.id
       CartItem.name CartItem.price CartItem.category CartItem.imageUrl
       CartItem.options CartItem.selectedOptions].
  change 1%float with (Z2Number 1). rewrite Z2Number_add by lia.
  by replace (Z.of_nat (S (S n))) with (Z.of_nat (S n) + 1)%Z by lia.
Qed.

(** ** The catalogue and the category filter *)


(** X17: the category filter.  A click on a category selects it, a click on
    the selected category clears the selection, so that two clicks on one
    category clear whatever was selected and three clicks do what one
    does.  The items shown are the items of the selected category, in
    the order of the catalogue, and all the items when no category (or one
    with an empty id) is selected; after a click and a second click on the
    same category every item is shown. *)
Theorem category_filter
    (categoryId : string) (selectedCategory : option string)
    (menuItems : list MenuItem.t) :
  let click := handleCategoryClick categoryId in
  click (Some categoryId) = None
  /\ (selectedCategory <> Some categoryId -> click selectedCategory = Some categoryId)
  /\ click (click (click selectedCategory)) = click selectedCategory
  /\ (categoryId <> "" ->
      forall item,
        In item (filteredMenuItems (Some categoryId) menuItems)
        <-> In item menuItems /\ MenuItem.category item = categoryId)
  /\ filteredMenuItems selectedCategory menuItems `sublist_of` menuItems
  /\ filteredMenuItems None menuItems = menuItems
  /\ filteredMenuItems (Some "") menuItems = menuItems
  /\ filteredMenuItems selectedCategory (filteredMenuItems selectedCategory menuItems)
     = filteredMenuItems selectedCategory menuItems
  /\ (selectedCategory <> Some categoryId ->
      filteredMenuItems (click (click selectedCategory)) menuItems = menuItems).
Proof.
  intros click. subst click.
  assert (Hclick : forall selected, selected <> Some categoryId ->
            handleCategoryClick categoryId selected = Some categoryId).
  { intros [selected|] Hne; [|done]. unfold handleCategoryClick.
    destruct (String.eqb_spec selected categoryId) as [->|_]; done. }
  assert (Hclear : handleCategoryClick categoryId (Some categoryId) = None).
  { unfold handleCategoryClick. by rewrite String.eqb_refl. }
  split_and!; [done|by apply Hclick| | | |done|done| |].
  - destruct (decide (selectedCategory = Some categoryId)) as [->|Hne].
    + by rewrite !Hclear, (Hclick None), Hclear.
    + by rewrite (Hclick _ Hne), Hclear, (Hclick None).
  - intros Hne item. unfold filteredMenuItems.
    cbn [truthyOpt default]. rewrite (proj2 (truthy_true categoryId) Hne).
    by rewrite List.filter_In, String.eqb_eq.
  - unfold filteredMenuItems. destruct (truthyOpt selectedCategory); [|done].
    induction menuItems as [|item rest IH]; [done|]. cbn [List.filter].
    destruct (String.eqb _ _); [by apply sublist_skip|by apply sublist_cons].
  - unfold filteredMenuItems. destruct (truthyOpt selectedCategory); [|done].
    induction menuItems as [|item rest IH]; [done|]. cbn [List.filter].
    destruct (String.eqb _ _) eqn:Hitem; [|done].
    cbn [List.filter]. by rewrite Hitem, IH.
  - intros Hne. by rewrite (Hclick _ Hne), Hclear.
Qed.

Lemma find_first {A : Type} (f : A -> bool) (l : list A) (x : A) :
  List.find f l = Some x
  <-> exists before after,
        l = before ++ x :: after
        /\ (forall y, In y before -> f y = false) /\ f x = true.
Proof.
  split.
  - induction l as [|y l IH]; [done|]. cbn [List.find].
    destruct (f y) eqn:Hy.
    + intros [= ->]. exists [], l. by split_and!.
    + intros (before & after & -> & Hbefore & Hx)%IH.
      exists (y :: before), after. split_and!; [done| |done].
      intros z [<-|Hz]; [done|by apply Hbefore].
  - intros (before & after & -> & Hbefore & Hx).
    induction before as [|y before IH]; cbn [app List.find].
    + by rewrite Hx.
    + rewrite (Hbefore y) by (by left). apply IH.
      intros z Hz. apply Hbefore. by right.
Qed.

(** X18: the price of the option a checked box places is the price of the
    first option of the item with the same id, whatever comes after it in
    the list: the price of the option itself when the ids of the item's
    options are distinct, and possibly that of another option when they
    are not.  It is the default 0 only for an item with no option list or
    with no option of that id, so never for an option that the item
    lists. *)
Theorem optionPrice_of_listed_option (item : MenuItem.t) (option : OptionSpec.t) :
  (MenuItem.options item = None -> optionPrice item option = 0%float)
  /\ (forall options : list OptionSpec.t,
        MenuItem.options item = Some options ->
        (forall before first after,
           options = before ++ first :: after ->
           (forall opt, In opt before -> OptionSpec.id opt <> OptionSpec.id option) ->
           OptionSpec.id first = OptionSpec.id option ->
           optionPrice item option = OptionSpec.price first
           /\ SelectedOption.price (selectedOptionOf item option)
              = OptionSpec.price first)
        /\ ((forall opt, In opt options -> OptionSpec.id opt <> OptionSpec.id option) ->
            optionPrice item option = 0%float)
        /\ (In option options ->
            exists before first after,
              options = before ++ first :: after
              /\ (forall opt, In opt before ->
                    OptionSpec.id opt <> OptionSpec.id option)
              /\ OptionSpec.id first = OptionSpec.id option
              /\ optionPrice item option = OptionSpec.price first)
        /\ (In option options -> NoDup (List.map OptionSpec.id options) ->
            optionPrice item option = OptionSpec.price option)).
Proof.
  split; [by unfold optionPrice; intros ->|].
  intros options Hoptions.
  set (sameId := fun opt => String.eqb (OptionSpec.id opt) (OptionSpec.id option)).
  assert (Hprice : optionPrice item option
                   = match List.find sameId options with
                     | Some opt => OptionSpec.price opt
                     | None => 0%float
                     end)
    by (unfold optionPrice; by rewrite Hoptions).
  assert (Hfirst : forall before first after,
            options = before ++ first :: after ->
            (forall opt, In opt before -> OptionSpec.id opt <> OptionSpec.id option) ->
            OptionSpec.id first = OptionSpec.id option ->
            optionPrice item option = OptionSpec.price first).
  { intros before first after Hsplit Hbefore Hid.
    assert (List.find sameId options = Some first) as Hfind.
    { apply find_first. exists before, after. split_and!; [done| |].
      - intros opt Hopt. by apply String.eqb_neq, Hbefore.
      - by apply String.eqb_eq. }
    by rewrite Hprice, Hfind. }
  assert (Hlisted : In option options ->
            exists before first after,
              options = before ++ first :: after
              /\ (forall opt, In opt before ->
                    OptionSpec.id opt <> OptionSpec.id option)
              /\ OptionSpec.id first = OptionSpec.id option
              /\ optionPrice item option = OptionSpec.price first).
  { intros Hin. destruct (List.find sameId options) as [first|] eqn:Hfind.
    - apply find_first in Hfind as Hsplit.
      destruct Hsplit as (before & after & Hsplit & Hbefore & Hid).
      exists before, first, after. split_and!; [done| | |exact Hprice].
      + intros opt Hopt. by apply String.eqb_neq, Hbefore.
      + by apply String.eqb_eq.
    - apply (List.find_none _ _ Hfind) in Hin. subst sameId. cbn in Hin.
      by rewrite String.eqb_refl in Hin. }
  split_and!.
  - intros before first after Hsplit Hbefore Hid.
    unfold selectedOptionOf. cbn [SelectedOption.price]. split; by eapply Hfirst.
  - intros Hnone. rewrite Hprice.
    destruct (List.find sameId options) as [opt|] eqn:Hfind; [|done].
    apply List.find_some in Hfind as [Hin Hid%String.eqb_eq]. by apply Hnone in Hin.
  - exact Hlisted.
  - intros Hin Hnodup.
    destruct (Hlisted Hin) as (before & first & after & Hsplit & Hbefore & Hid & ->).
    f_equal. subst options. rewrite List.map_app in Hnodup. cbn [List.map] in Hnodup.
    apply List.in_app_or in Hin as [Hin|[->|Hin]]; [by apply Hbefore in Hin|done|].
    exfalso. apply NoDup_app in Hnodup as (_ & _ & Hnodup).
    apply NoDup_cons in Hnodup as [Hnot _]. apply Hnot. rewrite Hid.
    apply list_elem_of_In, List.in_map_iff. by exists option.
Qed.

(** ** Merging a saved order into the list *)

(** X19: merging a saved order into the order list twice is merging it
    once, the list merged into is kept as it is at the end of the result,
    and at most one order is added. *)
Theorem mergeOrder_idempotent
    (newOrder : OrderData.t) (orderId : string) (prevOrders : list Order.t) :
  let merged := mergeOrder newOrder orderId prevOrders in
  mergeOrder newOrder orderId merged = merged
  /\ (forall other, mergeOrder other orderId merged = merged)
  /\ (merged = prevOrders \/ merged = Order.mk (Some orderId) newOrder :: prevOrders)
  /\ List.existsb (hasId orderId) merged = true.
Proof.
  intros merged.
  assert (Hhas : List.existsb (hasId orderId) merged = true).
  { subst merged. unfold mergeOrder.
    destruct (List.existsb (hasId orderId) prevOrders) eqn:Hex; [done|].
    cbn [List.existsb]. by rewrite hasId_mk. }
  split_and!; try done.
  - unfold mergeOrder at 1. by rewrite Hhas.
  - intros other. unfold mergeOrder at 1. by rewrite Hhas.
  - subst merged. unfold mergeOrder.
    destruct (List.existsb (hasId orderId) prevOrders); [by left|by right].
Qed.

(** ** Paying an order (the order history) *)

Lemma SFeqb_refl_finite (s : bool) (m : positive) (e : Z) :
  SFeqb (S754_finite s m e) (S754_finite s m e) = true.
Proof.
  unfold SFeqb. cbn [SFcompare]. rewrite Z.compare_refl.
  change (PosDef.Pos.compare_cont Eq m m) with (Pos.compare m m).
  rewrite Pos.compare_refl. by destruct s.
Qed.

(** The numbers that count as false in a condition are 0, -0 and NaN. *)
Lemma truthyNumber_false (x : number) :
  truthyNumber x = false
  <-> x = PrimFloat.zero \/ x = PrimFloat.neg_zero \/ x = PrimFloat.nan.
Proof.
  split; [|by intros [-> | [-> | ->]]].
  unfold truthyNumber, PrimFloat.is_nan. rewrite !FloatAxioms.eqb_spec.
  change (Prim2SF 0%float) with (S754_zero false).
  pose proof (SF2Prim_Prim2SF x) as Hx.
  destruct (Prim2SF x) as [s|s| |s m e].
  - intros _. destruct s; cbn in Hx; auto.
  - by destruct s.
  - intros _. right; right. done.
  - rewrite SFeqb_refl_finite. by destruct s.
Qed.

(** X20: the payment dialogue of the order history.  Choosing an order
    opens the modal on it and closing the modal forgets it, whatever was
    selected before; the total shown is the total of the chosen order
    unless that total is 0, -0 or NaN, in which case it is 0, and it is 0
    when no order is chosen, so that it is never NaN.  Submitting a payment
    logs one message naming the order and the method when an order with an
    id that is not empty is chosen, and nothing else; it leaves the modal
    open and the order chosen, and after the modal is closed it does
    nothing at all. *)
Theorem payment_dialogue (order : Order.t) (method : string) (h : History) :
  let chosen := handlePaymentClick order h in
  let total := OrderData.total (Order.data order) in
  selectedOrder chosen = Some order
  /\ showPaymentModal chosen = true
  /\ handleCloseModal chosen = handleCloseModal h
  /\ handleCloseModal (handleCloseModal h) = handleCloseModal h
  /\ PrimFloat.is_nan (orderTotal chosen) = false
  /\ (truthyNumber total = true -> orderTotal chosen = total)
  /\ (total = PrimFloat.zero \/ total = PrimFloat.neg_zero \/ total = PrimFloat.nan ->
      orderTotal chosen = 0%float)
  /\ (total <> PrimFloat.zero -> total <> PrimFloat.neg_zero ->
      total <> PrimFloat.nan -> orderTotal chosen = total)
  /\ orderTotal (handleCloseModal h) = 0%float
  /\ (forall id, Order.id order = Some id -> id <> "" ->
        historyLog (handlePaymentSubmit method chosen)
        = historyLog h
          ++ ["Payment processed for order " +:+ id +:+ " with " +:+ method])
  /\ (Order.id order = None \/ Order.id order = Some "" ->
      handlePaymentSubmit method chosen = chosen)
  /\ selectedOrder (handlePaymentSubmit method chosen) = Some order
  /\ showPaymentModal (handlePaymentSubmit method chosen) = true
  /\ handlePaymentSubmit method (handleCloseModal h) = handleCloseModal h.
Proof.
  intros chosen total. subst chosen.
  assert (Htotal : orderTotal (handlePaymentClick order h)
                   = if truthyNumber total then total else 0%float) by done.
  split_and!; try done.
  - rewrite Htotal. destruct (truthyNumber total) eqn:Htruthy; [|done].
    unfold truthyNumber in Htruthy.
    apply negb_true_iff, orb_false_iff in Htruthy as [_ Hnan]. exact Hnan.
  - rewrite Htotal. by intros ->.
  - intros Hfalsy%truthyNumber_false. by rewrite Htotal, Hfalsy.
  - intros H0 Hneg Hnan. rewrite Htotal.
    destruct (truthyNumber total) eqn:Htruthy; [done|].
    apply truthyNumber_false in Htruthy as [?|[?|?]]; done.
  - intros id Hid Hne. unfold handlePaymentSubmit, handlePaymentClick.
    cbn [selectedOrder historyLog showPaymentModal].
    by rewrite Hid, (proj2 (truthy_true id) Hne).
  - unfold handlePaymentSubmit, handlePaymentClick. cbn [selectedOrder].
    by intros [-> | ->].
  - unfold handlePaymentSubmit, handlePaymentClick. cbn [selectedOrder].
    destruct (Order.id order) as [id|]; [|done]. by destruct (truthy id).
  - unfold handlePaymentSubmit, handlePaymentClick. cbn [selectedOrder].
    destruct (Order.id order) as [id|]; [|done]. by destruct (truthy id).
Qed.

(** ** The table number as a number *)

Lemma digitValue_not_digit (c : ascii) :
  isDecimalDigit c = false -> digitValue 10 c = None.
Proof. destruct c as [[] [] [] [] [] [] [] []]; try discriminate; reflexivity. Qed.

Lemma parseDigits_stop (rest : string) (acc : option Z) :
  endsNumeral rest = true -> parseDigits 10 rest acc = acc.
Proof.
  destruct rest as [|c rest]; [done|]. cbn [endsNumeral parseDigits].
  rewrite negb_true_iff, !orb_false_iff. intros [[Hc _] _].
  by rewrite (digitValue_not_digit c Hc).
Qed.

Lemma parseDigits_acc (d : Decimal.uint) (acc : positive) (rest : string) :
  endsNumeral rest = true ->
  parseDigits 10 (NilEmpty.string_of_uint d +:+ rest) (Some (Zpos acc))
  = Some (Zpos (Pos.of_uint_acc d acc)).
Proof.
  intros Hrest. revert acc.
  induction d as [|d IH|d IH|d IH|d IH|d IH|d IH|d IH|d IH|d IH|d IH]; intros acc;
    cbn [NilEmpty.string_of_uint Pos.of_uint_acc];
    rewrite ?append_cons, ?append_nil; [by apply parseDigits_stop|..];
    cbn [parseDigits];
    match goal with
    | |- context [digitValue 10 ?c] =>
        let v := eval vm_compute in (digitValue 10 c) in
        change (digitValue 10 c) with v
    end;
    cbn [default from_option]; rewrite <- IH; do 2 f_equal; unfold id; lia.
Qed.

Lemma parseDigits_leading (d : Decimal.uint) (rest : string) :
  endsNumeral rest = true ->
  parseDigits 10 (NilEmpty.string_of_uint d +:+ rest) (Some 0%Z)
  = Some (Z.of_N (N.of_uint d)).
Proof.
  intros Hrest.
  induction d as [|d IH|d IH|d IH|d IH|d IH|d IH|d IH|d IH|d IH|d IH];
    cbn [NilEmpty.string_of_uint N.of_uint Pos.of_uint];
    rewrite ?append_cons, ?append_nil; [by apply parseDigits_stop|..];
    cbn [parseDigits];
    match goal with
    | |- context [digitValue 10 ?c] =>
        let v := eval vm_compute in (digitValue 10 c) in
        change (digitValue 10 c) with v
    end;
    cbn [default from_option]; unfold id; [exact IH|..];
    match goal with
    | |- parseDigits _ _ (Some ?z) = _ =>
        let v := eval vm_compute in z in change z with v
    end;
    by rewrite parseDigits_acc.
Qed.

Lemma to_uint_not_Nil (n : N) : N.to_uint n <> Decimal.Nil.
Proof.
  intros Hnil. pose proof (DecimalN.Unsigned.of_to n) as Hback.
  rewrite Hnil in Hback. cbn in Hback. subst n. discriminate.
Qed.

Lemma trimStart_allWhiteSpace (ws s : string) :
  allWhiteSpace ws = true -> trimStart (ws +:+ s) = trimStart s.
Proof.
  induction ws as [|c ws IH]; [done|]. cbn [allWhiteSpace].
  intros [Hc Hws]%andb_true_iff. rewrite append_cons. cbn [trimStart].
  rewrite Hc. by apply IH.
Qed.

(** A numeral starts with a digit: nothing is trimmed from it, it has no
    sign and no hexadecimal prefix. *)
Lemma numeral_front (d : Decimal.uint) (rest : string) :
  d <> Decimal.Nil -> endsNumeral rest = true ->
  let s := NilEmpty.string_of_uint d +:+ rest in
  trimStart s = s /\ stripSign s = (false, s) /\ stripHexPrefix s = (10%Z, s)
  /\ parseDigits 10 s None = parseDigits 10 s (Some 0%Z).
Proof.
  intros Hd Hrest.
  assert (Hhex : forall c0 c1 tail,
            Ascii.eqb c1 "x" || Ascii.eqb c1 "X" = false ->
            stripHexPrefix (String c0 (String c1 tail))
            = (10%Z, String c0 (String c1 tail))).
  { intros c0 c1 tail Hc1. cbn [stripHexPrefix]. by rewrite Hc1, andb_false_r. }
  destruct d as [|d|d|d|d|d|d|d|d|d|d]; [done|..];
    cbn [NilEmpty.string_of_uint]; rewrite append_cons; cbn zeta;
    (split; [reflexivity|]); (split; [reflexivity|]); (split; [|reflexivity]);
    (destruct d as [|d|d|d|d|d|d|d|d|d|d]; cbn [NilEmpty.string_of_uint];
     rewrite ?append_cons, ?append_nil; [|by apply Hhex..]);
    (destruct rest as [|c rest]; [reflexivity|]);
    cbn [endsNumeral] in Hrest; apply negb_true_iff in Hrest;
    apply Hhex; apply orb_false_iff in Hrest as [[_ Hx]%orb_false_iff HX];
    by rewrite Hx, HX.
Qed.

Lemma parseInt_numeral (n : Z) (ws rest : string) :
  (0 <= n)%Z -> allWhiteSpace ws = true -> endsNumeral rest = true ->
  parseInt (ws +:+ decimalOfZ n +:+ rest) = Z2Number n.
Proof.
  intros Hn Hws Hrest. unfold parseInt, decimalOfZ.
  rewrite (trimStart_allWhiteSpace _ _ Hws).
  pose proof (to_uint_not_Nil (Z.to_N n)) as Hd.
  pose proof (DecimalN.Unsigned.of_to (Z.to_N n)) as Hback.
  set (d := N.to_uint (Z.to_N n)) in *.
  assert (NilZero.string_of_uint d = NilEmpty.string_of_uint d) as ->
    by (by destruct d).
  destruct (numeral_front d rest Hd Hrest) as (-> & -> & -> & ->).
  rewrite (parseDigits_leading d rest Hrest), Hback, Z2N.id by done.
  destruct (Z.eqb_spec n 0) as [->|_]; reflexivity.
Qed.

Lemma decimalOfZ_not_empty (n : Z) (rest : string) : decimalOfZ n +:+ rest <> "".
Proof.
  unfold decimalOfZ. pose proof (to_uint_not_Nil (Z.to_N n)) as Hd.
  by destruct (N.to_uint (Z.to_N n)).
Qed.

(** X21: a table number typed as a numeral.  When the table number is the
    decimal numeral of a natural number [n] of at most 20 digits, with
    white space before it or not, and followed by nothing or by text that
    does not go on with a digit (nor with [x] or [X]), [parseInt] reads the
    double nearest to [n], and that number is the table number of the order
    [handleOrderNow] hands to the store.  Text after the numeral is dropped
    silently.  (Past 20 digits an implementation may read the further
    digits as zeros.) *)
Theorem tableNumber_numeral
    (n : Z) (ws rest uuid : string) (now : number) (w : World) :
  (0 <= n < 10 ^ 20)%Z -> allWhiteSpace ws = true -> endsNumeral rest = true ->
  tableNumber w = ws +:+ decimalOfZ n +:+ rest ->
  cart w <> [] -> isSubmitting w = false ->
  parseInt (tableNumber w) = Z2Number n
  /\ exists newOrder,
       snd (handleOrderNow_call uuid now w) = Some newOrder
       /\ OrderData.tableNumber newOrder = FNumber (Z2Number n).
Proof.
  intros Hn Hws Hrest Htable Hcart Hsub.
  assert (Hparse : parseInt (tableNumber w) = Z2Number n)
    by (rewrite Htable; apply parseInt_numeral; [lia|done..]).
  split; [done|]. exists (newOrderOf uuid now w).
  rewrite (handleOrderNow_call_passes uuid now w Hcart Hsub).
  - split; [done|]. unfold newOrderOf. cbn [OrderData.tableNumber].
    by rewrite Hparse.
  - rewrite Htable. destruct ws as [|c ws]; [|done]. rewrite append_nil.
    apply decimalOfZ_not_empty.
Qed.

(** ** The stored table number: a string or a number *)

Section NeverNaN.
Local Open Scope Z_scope.

Lemma shr_1_nonneg (mrs : shr_record) : 0 <= shr_m mrs -> 0 <= shr_m (shr_1 mrs).
Proof.
destruct mrs as [m r s]. cbn [shr_m]. intros Hm.
destruct m as [|[p|p|]|p]; cbn; lia.
Qed.

Lemma iter_shr_1_nonneg (p : positive) (mrs : shr_record) :
0 <= shr_m mrs -> 0 <= shr_m (SpecFloat.iter_pos shr_1 p mrs).
Proof.
rewrite iter_pos_iter. revert mrs.
induction p as [|p IH] using Pos.peano_ind; intros mrs Hm.
- by apply shr_1_nonneg.
- rewrite Pos.iter_succ. by apply shr_1_nonneg, IH.
Qed.

Lemma shr_fexp_nonneg (m e : Z) (l : location) :
0 <= m -> 0 <= shr_m (fst (shr_fexp prec emax m e l)).
Proof.
intros Hm. unfold shr_fexp, shr.
assert (H0 : 0 <= shr_m (shr_record_of_loc m l))
  by (destruct l as [|[]]; exact Hm).
destruct (fexp prec emax (Zdigits2 m + e) - e); cbn [fst]; try done.
by apply iter_shr_1_nonneg.
Qed.

Lemma round_nearest_even_nonneg (m : Z) (l : location) :
0 <= m -> 0 <= round_nearest_even m l.
Proof.
intros Hm. unfold round_nearest_even.
destruct l as [|[]]; try done; [destruct (IntDef.Z.even m)|]; lia.
Qed.

Lemma binary_round_aux_not_nan (s : bool) (m e : Z) (l : location) :
0 <= m -> binary_round_aux prec emax s m e l <> S754_nan.
Proof.
intros Hm. unfold binary_round_aux.
pose proof (shr_fexp_nonneg m e l Hm) as H1.
destruct (shr_fexp prec emax m e l) as [mrs' e']. cbn [fst] in H1.
pose proof (shr_fexp_nonneg _ e' loc_Exact
              (round_nearest_even_nonneg _ (loc_of_shr_record mrs') H1)) as H2.
destruct (shr_fexp prec emax _ e' loc_Exact) as [mrs'' e'']. cbn [fst] in H2.
destruct (shr_m mrs'') as [|p|p]; [done| |lia].
by destruct (e'' <=? emax - prec).
Qed.

Lemma binary_round_not_nan (s : bool) (m : positive) (e : Z) :
binary_round prec emax s m e <> S754_nan.
Proof.
unfold binary_round. destruct (shl_align m e _) as [mz ez].
by apply binary_round_aux_not_nan.
Qed.

Lemma binary_normalize_not_nan (m e : Z) (szero : bool) :
binary_normalize prec emax m e szero <> S754_nan.
Proof.
destruct m as [|m|m]; cbn [binary_normalize]; [done|..];
  apply binary_round_not_nan.
Qed.

Lemma Prim2SF_nan (x : number) : Prim2SF x = S754_nan <-> x = PrimFloat.nan.
Proof.
split; [|by intros ->]. intros Hx. by apply Prim2SF_inj.
Qed.

(** The Number value of an integer is never NaN. *)
Lemma Z2Number_not_nan (z : Z) : Z2Number z <> PrimFloat.nan.
Proof.
unfold Z2Number.
pose proof (binary_normalize_not_nan z 0 false) as Hr.
destruct (binary_normalize prec emax z 0 false) as [[]|[]| |s m e];
  [done..| |]; [done|].
cbn [SF2Prim].
set (pm := of_uint63 _).
assert (Hf : Z.ldexp pm e <> PrimFloat.nan).
{ rewrite <- Prim2SF_nan, Z_ldexp_spec.
  assert (Hpm : Prim2SF pm <> S754_nan)
    by (subst pm; rewrite of_uint63_spec; apply binary_normalize_not_nan).
  destruct (Prim2SF pm) as [| | |sx mx ex]; try done.
  apply binary_round_not_nan. }
destruct s; [|done].
rewrite <- Prim2SF_nan, opp_spec. rewrite <- Prim2SF_nan in Hf.
by destruct (Prim2SF (Z.ldexp pm e)).
Qed.
End NeverNaN.

Lemma parseDigits_Some (radix : Z) (rest : string) (acc : Z) :
  parseDigits radix rest (Some acc) <> None.
Proof.
  revert acc. induction rest as [|c rest IH]; intros acc; cbn [parseDigits]; [done|].
  destruct (digitValue radix c); [apply IH|done].
Qed.

(** [parseInt] gives NaN exactly when it finds no integer at the front. *)
Lemma parseInt_nan_iff (t : string) :
  parseInt t = PrimFloat.nan <-> noIntegerAtFront t = true.
Proof.
  unfold parseInt, noIntegerAtFront.
  destruct (stripSign (trimStart t)) as [negative s1]. cbn [snd].
  destruct (stripHexPrefix s1) as [radix s2].
  destruct s2 as [|c rest]; [done|]. cbn [parseDigits].
  destruct (digitValue radix c) as [d|]; [|done].
  pose proof (parseDigits_Some radix rest (radix * default 0%Z None + d)) as Hsome.
  destruct (parseDigits radix rest _) as [mathInt|]; [|done].
  split; [|done]. intros Hnan. exfalso.
  destruct (mathInt =? 0)%Z; [by destruct negative|].
  by apply Z2Number_not_nan in Hnan.
Qed.

(** C10, as stated, fails: the table string "12abc" is not empty and not
    numeric, yet the order submitted at that table stores the number 12,
    which is not NaN. *)
Lemma tableNumber_12abc_is_stored_as_12 :
  let w := setTableNumber "12abc" sampleWorld in
  allDecimalDigits "12abc" = false
  /\ "12abc" <> ""
  /\ parseInt "12abc" = 12%float
  /\ exists newOrder,
       snd (handleOrderNow_call "fresh-uuid" 1700000000000%float w) = Some newOrder
       /\ OrderData.tableNumber newOrder = FNumber 12%float
       /\ OrderData.tableNumber newOrder <> FNumber PrimFloat.nan.
Proof.
  split; [reflexivity|]. split; [discriminate|]. split; [reflexivity|].
  eexists. split; [reflexivity|]. split; [reflexivity|].
  intros Heq.
  pose proof (f_equal (fun v => match v with
                                | FNumber x => x
                                | FString _ => PrimFloat.zero
                                end) Heq) as Hnan.
  change (parseInt "12abc" = PrimFloat.nan) in Hnan.
  apply parseInt_nan_iff in Hnan. discriminate Hnan.
Qed.

(** C10, amended: for a table string [t], [updateTableNumberInFirestore],
    when its query is answered, issues for every pending order of the
    device one update, which carries [t] itself, a string, as the
    [tableNumber]; every update it issues is of this form, and an order
    whose update the store accepts holds the string [t] afterwards.  The
    order [handleOrderNow] builds, and the store then holds, has the number
    [parseInt t] as its [tableNumber].  The two are values of different
    types.  The number is NaN exactly when [t], after its leading white
    space, an optional sign and an optional [0x], does not go on with a
    digit; so it is NaN for a [t] with no decimal digit at its front, and
    for a [t] that starts with a numeral of at most 20 digits, followed by
    text or not, it is the double nearest to the numeral, not NaN.  The
    update stores [t] unchanged in every case. *)
Theorem tableNumber_string_versus_number (t : string) :
  (forall (answers : StoreAnswers) (deviceId : string) (w : World)
          (id : string) (d : OrderData.t),
     readError answers = None ->
     ordersCollection w !! id = Some d -> isPendingOf deviceId d = true ->
     let result := updateTableNumberInFirestore answers t deviceId w in
     In (mkWrite id [("tableNumber", FString t)]) (writesOf result)
     /\ writesTo id (writesOf result) = 1
     /\ (updateError answers id = None ->
         exists d',
           ordersCollection (worldAfter result) !! id = Some d'
           /\ d' = OrderData.withTableNumber (FString t) d
           /\ OrderData.tableNumber d' = FString t))
  /\ (forall (answers : StoreAnswers) (deviceId : string) (w : World) (wr : Write),
        In wr (writesOf (updateTableNumberInFirestore answers t deviceId w)) ->
        write_data wr = [("tableNumber", FString t)]
        /\ forall d, OrderData.tableNumber (applyData (write_data wr) d) = FString t)
  /\ (forall (answers : StoreAnswers) (uuid : string) (w : World) (wr : Write),
        tableNumber w = t ->
        In wr (snd (handleTableNumberSubmit answers uuid w)) ->
        write_data wr = [("tableNumber", FString t)])
  /\ (forall (uuid : string) (now : number) (orderId : string) (w : World),
        cart w <> [] -> isSubmitting w = false -> tableNumber w = t -> t <> "" ->
        exists newOrder,
          snd (handleOrderNow_call uuid now w) = Some newOrder
          /\ OrderData.tableNumber newOrder = FNumber (parseInt t)
          /\ ordersCollection
               (worldAtAnswer uuid now (DocAdded orderId) (fun w => w) w) !! orderId
             = Some newOrder
          /\ (noIntegerAtFront t = true ->
              OrderData.tableNumber newOrder = FNumber PrimFloat.nan)
          /\ (noIntegerAtFront t = false ->
              OrderData.tableNumber newOrder <> FNumber PrimFloat.nan))
  /\ (forall x : number, FString t <> FNumber x)
  /\ (parseInt t = PrimFloat.nan <-> noIntegerAtFront t = true)
  /\ (hasNoLeadingInteger t = true -> parseInt t = PrimFloat.nan)
  /\ (forall (n : Z) (ws rest : string),
        (0 <= n < 10 ^ 20)%Z -> allWhiteSpace ws = true -> endsNumeral rest = true ->
        t = ws +:+ decimalOfZ n +:+ rest ->
        parseInt t = Z2Number n /\ parseInt t <> PrimFloat.nan).
Proof.
  assert (Hwrites : forall answers deviceId w wr,
            In wr (writesOf (updateTableNumberInFirestore answers t deviceId w)) ->
            write_data wr = [("tableNumber", FString t)]).
  { intros answers deviceId w wr. unfold updateTableNumberInFirestore.
    destruct (readError answers); [done|].
    destruct (firstError _ _); cbn [writesOf fst snd];
      apply tableNumberWrites_data. }
  split_and!.
  - intros answers deviceId w id d Hread Hd Hp result.
    set (store := ordersCollection w).
    set (docs := pendingOrdersQuery deviceId store).
    set (writes := tableNumberWrites t docs).
    assert (Hof : writesOf result = writes).
    { subst result. unfold updateTableNumberInFirestore. rewrite Hread.
      fold store docs writes. by destruct (firstError answers writes). }
    assert (Hstore : ordersCollection (worldAfter result)
              = List.fold_left (fun s wr => updateDoc answers wr s) writes store).
    { subst result. unfold updateTableNumberInFirestore. rewrite Hread.
      fold store docs writes. by destruct (firstError answers writes). }
    assert (Hone : writesTo id writes = 1).
    { subst writes. rewrite writesTo_tableNumberWrites. subst docs.
      unfold pendingOrdersQuery.
      rewrite (count_key_map_to_list
                 (fun doc => isPendingOf deviceId (snd doc)) id store).
      fold store in Hd. rewrite Hd. cbn [snd]. by rewrite Hp. }
    rewrite Hof, Hstore. split_and!; [|done|].
    + subst writes. apply tableNumberWrites_In. exists (id, d). split; [|done].
      by apply pendingOrdersQuery_In.
    + intros Hok. eexists. split; [|done].
      unfold writes at 1. rewrite lookup_after_writes. fold writes.
      rewrite (accepted_true answers id writes); [|by rewrite Hone|done].
      fold store in Hd. by rewrite Hd.
  - intros answers deviceId w wr Hwr.
    rewrite (Hwrites _ _ _ _ Hwr). by split.
  - intros answers uuid w wr Ht. unfold handleTableNumberSubmit.
    destruct (negb (truthy (trim (tableNumber w)))); [done|].
    destruct (getDeviceId uuid _) as [deviceId w2].
    pose proof (Hwrites answers deviceId w2 wr) as Hw.
    rewrite Ht.
    destruct (updateTableNumberInFirestore answers t deviceId w2)
      as [[w3 writes] [e|]]; exact Hw.
  - intros uuid now orderId w Hcart Hsub Ht Hne. subst t.
    exists (newOrderOf uuid now w).
    rewrite (handleOrderNow_call_passes uuid now w Hcart Hsub Hne).
    rewrite (ordersCollection_sent uuid now orderId w Hcart Hsub Hne).
    split_and!; [done|done|apply lookup_insert_eq| |].
    + intros Hnan%parseInt_nan_iff. cbn. by rewrite Hnan.
    + intros Hnot Heq.
      pose proof (f_equal (fun v => match v with
                                    | FNumber x => x
                                    | FString _ => PrimFloat.zero
                                    end) Heq) as Hnan.
      change (parseInt (tableNumber w) = PrimFloat.nan) in Hnan.
      apply parseInt_nan_iff in Hnan. congruence.
  - discriminate.
  - apply parseInt_nan_iff.
  - apply parseInt_no_leading_integer.
  - intros n ws rest Hn Hws Hrest ->.
    rewrite (parseInt_numeral n ws rest) by (lia || done).
    split; [done|]. apply Z2Number_not_nan.
Qed.

(** C10 on the sample customer and the table string "abc": the pending
    order "o1" gets one update and holds the string "abc" afterwards, while
    an order submitted at that table stores NaN. *)
Lemma tableNumber_instance :
  let result := updateTableNumberInFirestore allAccepted "abc" "dev-1" sampleWorld in
  writesTo "o1" (writesOf result) = 1%nat
  /\ ordersCollection (worldAfter result) !! "o1"
     = Some (OrderData.withTableNumber (FString "abc") (sampleOrder "dev-1" pending))
  /\ parseInt "abc" = PrimFloat.nan
  /\ exists newOrder,
       snd (handleOrderNow_call "fresh-uuid" 1700000000000%float
              (setTableNumber "abc" sampleWorld))
       = Some newOrder
       /\ OrderData.tableNumber newOrder = FNumber PrimFloat.nan.
Proof.
  destruct (tableNumber_string_versus_number "abc")
    as (Hupdate & _ & _ & Hsubmit & _ & _ & Hnan & _).
  destruct (Hupdate allAccepted "dev-1" sampleWorld "o1" (sampleOrder "dev-1" pending)
              eq_refl eq_refl eq_refl) as (_ & Hone & Hheld).
  destruct (Hheld eq_refl) as (d' & Hd' & -> & _).
  split; [exact Hone|]. split; [exact Hd'|]. split; [exact (Hnan eq_refl)|].
  destruct (Hsubmit "fresh-uuid" 1700000000000%float "o9"
              (setTableNumber "abc" sampleWorld))
    as (newOrder & Hcall & _ & _ & Hstored & _);
    [discriminate|reflexivity|reflexivity|discriminate|].
  exists newOrder. split; [exact Hcall|exact (Hstored eq_refl)].
Defined.

(** ** Worked instances of the further properties *)

(** X1 on a fresh browser: the new id is returned, stored, and returned
    again by the next call. *)
Lemma getDeviceId_stable_instance :
  let w := initialWorld ∅ ∅ in
  fst (getDeviceId "fresh-uuid" w) = "fresh-uuid"
  /\ getDeviceId "other-uuid" (snd (getDeviceId "fresh-uuid" w))
     = ("fresh-uuid", snd (getDeviceId "fresh-uuid" w)).
Proof.
  destruct (getDeviceId_stable "fresh-uuid" "other-uuid" (initialWorld ∅ ∅))
    as (_ & _ & _ & Hagain & _ & Hfresh); [discriminate|].
  split; [apply Hfresh; left; reflexivity|exact Hagain].
Defined.

(** X2 on a device with two pending orders, the update of "o1" refused:
    "o4" carries the new table number, "o1" does not, and the function
    fails. *)
Lemma updateTableNumberInFirestore_partial_failure_instance :
  let result :=
    updateTableNumberInFirestore (refusing "o1" "denied") "7" "dev-1" busyWorld in
  ordersCollection (worldAfter result) !! "o4"
  = Some (OrderData.withTableNumber (FString "7") (sampleOrder "dev-1" pending))
  /\ ordersCollection (worldAfter result) !! "o1" = Some (sampleOrder "dev-1" pending)
  /\ errorOf result <> None.
Proof.
  destruct (updateTableNumberInFirestore_partial_failure (refusing "o1" "denied")
              "7" "dev-1" busyWorld eq_refl) as (Hnone & _ & Hstore & _).
  split; [exact (Hstore "o4" (sampleOrder "dev-1" pending) eq_refl eq_refl)|].
  split; [exact (Hstore "o1" (sampleOrder "dev-1" pending) eq_refl eq_refl)|].
  intros Herror.
  pose proof (proj1 Hnone Herror "o1" (sampleOrder "dev-1" pending) eq_refl eq_refl)
    as Hrefused.
  discriminate Hrefused.
Defined.

(** X3 on a table number of two spaces. *)
Lemma handleTableNumberSubmit_blank_instance :
  let w := setTableNumber "  " sampleWorld in
  handleTableNumberSubmit allAccepted "fresh-uuid" w = (w, []).
Proof.
  apply (handleTableNumberSubmit_blank allAccepted "fresh-uuid"
           (setTableNumber "  " sampleWorld)).
  reflexivity.
Defined.

(** X4 on the sample customer, who reopens the modal and moves to table 7:
    the modal closes, the storage holds "7" and the pending order "o1"
    carries the string "7". *)
Lemma handleTableNumberSubmit_accepted_instance :
  let w := handleTableNumberClick (setTableNumber "7" sampleWorld) in
  let w' := fst (handleTableNumberSubmit allAccepted "fresh-uuid" w) in
  showTableModal w = true
  /\ showTableModal w' = false
  /\ localStorage w' !! "table_number" = Some "7"
  /\ ordersCollection w' !! "o1"
     = Some (OrderData.withTableNumber (FString "7") (sampleOrder "dev-1" pending))
  /\ ordersCollection w' !! "o3" = Some (sampleOrder "dev-2" pending).
Proof.
  destruct (handleTableNumberSubmit_accepted allAccepted "fresh-uuid"
              (handleTableNumberClick (setTableNumber "7" sampleWorld)))
    as (Hstorage & Hmodal & _ & _ & Hstore & _); [reflexivity..|].
  split; [reflexivity|]. split; [exact Hmodal|]. split; [exact Hstorage|].
  split; [exact (Hstore "o1" (sampleOrder "dev-1" pending) eq_refl)|].
  exact (Hstore "o3" (sampleOrder "dev-2" pending) eq_refl).
Defined.

(** X5 on the sample customer with the store out of reach. *)
Lemma handleTableNumberSubmit_refused_instance :
  let w := handleTableNumberClick (setTableNumber "7" sampleWorld) in
  let w' := fst (handleTableNumberSubmit (unreachable "offline") "fresh-uuid" w) in
  localStorage w' !! "table_number" = Some "7"
  /\ showTableModal w' = true
  /\ alerts w' = ["Failed to update table number. Please try again."]
  /\ length (console w') = 2%nat.
Proof.
  destruct (handleTableNumberSubmit_refused (unreachable "offline") "fresh-uuid"
              "offline" (handleTableNumberClick (setTableNumber "7" sampleWorld)))
    as (_ & Hstorage & _ & Hmodal & Halerts & Hconsole); [reflexivity..|].
  split; [exact Hstorage|]. split; [exact Hmodal|]. split; [exact Halerts|].
  cbv zeta. rewrite Hconsole. reflexivity.
Defined.

(** X6 on the same failed change of table: the next visit starts at table
    7 with no modal. *)
Lemma table_number_survives_reload_instance :
  let w := setTableNumber "7" sampleWorld in
  let w' := fst (handleTableNumberSubmit (unreachable "offline") "fresh-uuid" w) in
  let reloaded := resolveTable None (initialWorld (localStorage w') sampleStore) in
  tableNumber reloaded = "7" /\ showTableModal reloaded = false.
Proof.
  exact (table_number_survives_reload (unreachable "offline") "fresh-uuid"
           (setTableNumber "7" sampleWorld) sampleStore eq_refl).
Defined.

(** X8 on the sample customer: a second click while the first waits does
    nothing. *)
Lemma handleOrderNow_single_flight_instance :
  let waiting := fst (handleOrderNow_call "fresh-uuid" 1700000000000%float sampleWorld) in
  isSubmitting waiting = true
  /\ handleOrderNow "second-uuid" 1700000000001%float (DocAdded "o10") (fun w => w)
       waiting
     = waiting.
Proof.
  destruct (handleOrderNow_single_flight "fresh-uuid" 1700000000000%float sampleWorld)
    as (Hflag & _ & Hsecond & _); [discriminate|discriminate|reflexivity|].
  split; [exact Hflag|].
  exact (proj2 (Hsecond "second-uuid" 1700000000001%float (DocAdded "o10")
                  (fun w => w))).
Defined.

(** X9 on the sample customer: after a reload the order "o9" is listed
    once, under the device id "dev-1". *)
Lemma order_listed_after_reload_instance :
  let final :=
    handleOrderNow "fresh-uuid" 1700000000000%float (DocAdded "o9") (fun w => w)
      sampleWorld in
  let mounted := initialWorld (localStorage final) (ordersCollection final) in
  fst (getDeviceId "other-uuid" mounted) = "dev-1"
  /\ countId "o9"
       (orders (deliverSnapshot (fst (getDeviceId "other-uuid" mounted))
                  (snd (getDeviceId "other-uuid" mounted))))
     = 1%nat.
Proof.
  destruct (order_listed_after_reload "fresh-uuid" "other-uuid" 1700000000000%float
              "o9" sampleWorld)
    as (Hdevice & _ & Hcount & _); [discriminate|discriminate|discriminate|reflexivity|].
  split; [exact Hdevice|exact Hcount].
Defined.

(** X11 on the sample item: a line with oat milk answers to a selection of
    oat milk with one option. *)
Lemma sameLine_reads_option_fields_instance :
  sameLine "espresso" [oatMilk] (CartItem.ofMenuItem espresso 1%float [oatMilk]) = true
  /\ length (CartItem.selectedOptions (CartItem.ofMenuItem espresso 1%float [oatMilk]))
     = 1%nat.
Proof.
  destruct (sameLine_reads_option_fields "espresso" [oatMilk]
              (CartItem.ofMenuItem espresso 1%float [oatMilk])) as (Hkey & Hlength & _).
  assert (Hsame : sameLine "espresso" [oatMilk]
                    (CartItem.ofMenuItem espresso 1%float [oatMilk]) = true)
    by (apply Hkey; split; reflexivity).
  split; [exact Hsame|exact (Hlength Hsame)].
Defined.

(** X12 on a cart with the espresso plain and with oat milk: the line with
    oat milk is found at one place only. *)
Lemma reachableCart_lines_distinct_instance :
  let cart := placeOrderUpdate espresso [oatMilk] (placeOrderUpdate espresso [] []) in
  reachableCart cart
  /\ cart !! 1%nat = Some (CartItem.ofMenuItem espresso 1%float [oatMilk])
  /\ 1%nat = 1%nat.
Proof.
  assert (Hreach : reachableCart
            (placeOrderUpdate espresso [oatMilk] (placeOrderUpdate espresso [] [])))
    by (do 2 apply reachable_place; apply reachable_empty).
  split; [exact Hreach|]. split; [reflexivity|].
  exact (reachableCart_lines_distinct _ 1%nat 1%nat
           (CartItem.ofMenuItem espresso 1%float [oatMilk])
           (CartItem.ofMenuItem espresso 1%float [oatMilk])
           Hreach eq_refl eq_refl eq_refl eq_refl).
Defined.

(** X13 on the cart of three lines: an espresso placed and taken back
    leaves the three lines. *)
Lemma place_then_update_instance :
  updateQuantityUpdate "espresso" 0%float []
    (placeOrderUpdate espresso [] cartOfWholes)
  = cartOfWholes.
Proof.
  destruct (place_then_update espresso [] 0%float cartOfWholes) as (Hback & _).
  apply Hback; [|reflexivity].
  intros line [<- | [<- | [<- | []]]]; reflexivity.
Defined.

(** X14 on the cart of three lines: 4 then 2 is 2. *)
Lemma handleUpdateQuantity_last_wins_instance :
  updateQuantityUpdate "b" 2%float []
    (updateQuantityUpdate "b" 4%float [] cartOfWholes)
  = updateQuantityUpdate "b" 2%float [] cartOfWholes.
Proof.
  destruct (handleUpdateQuantity_last_wins "b" 4%float 2%float [] cartOfWholes)
    as (_ & Hset & _).
  exact (Hset eq_refl).
Defined.

(** X15 on the cart of three lines (445 in all): an espresso with oat milk
    makes it 565. *)
Lemma cartTotal_after_first_order_instance :
  cartTotal (placeOrderUpdate espresso [oatMilk] cartOfWholes) = 565%float.
Proof.
  rewrite (cartTotal_after_first_order espresso [oatMilk] cartOfWholes).
  - reflexivity.
  - intros line [<- | [<- | [<- | []]]]; reflexivity.
Defined.


(** X17 on the sample item: with "coffee" selected the espresso is shown,
    and a click on "coffee" while "pastry" is selected selects "coffee". *)
Lemma category_filter_instance :
  In espresso (filteredMenuItems (Some "coffee") [espresso])
  /\ handleCategoryClick "coffee" (Some "pastry") = Some "coffee".
Proof.
  destruct (category_filter "coffee" (Some "pastry") [espresso])
    as (_ & Hselect & _ & Hshown & _).
  split; [|apply Hselect; discriminate].
  apply Hshown; [discriminate|]. split; [by left|reflexivity].
Defined.

(** X18 on the sample item: the box of oat milk places an option of 20;
    on an item with two options under one id, the box of the second places
    the price of the first. *)
Lemma optionPrice_of_listed_option_instance :
  optionPrice espresso oatOption = 20%float
  /\ optionPrice twoPrices dearOption = 1%float.
Proof.
  split.
  - destruct (optionPrice_of_listed_option espresso oatOption) as [_ Hsome].
    destruct (Hsome [oatOption; OptionSpec.mk "soy" "Soy milk" false None 15%float]
                eq_refl) as (_ & _ & _ & Hown).
    apply Hown; [by left|].
    apply NoDup_cons. split; [|apply NoDup_singleton].
    intros Hin%list_elem_of_singleton. discriminate Hin.
  - destruct (optionPrice_of_listed_option twoPrices dearOption) as [_ Hsome].
    destruct (Hsome [cheapOption; dearOption] eq_refl) as (Hfirst & _).
    destruct (Hfirst [] cheapOption [dearOption] eq_refl) as [Hprice _];
      [by intros opt []|reflexivity|exact Hprice].
Defined.

(** X20 on a completed order of 240: the modal shows 240 and a payment by
    GCash is logged once; on an order whose total is NaN the modal shows 0. *)
Lemma payment_dialogue_instance :
  let order := Order.mk (Some "o2") (sampleOrder "dev-1" completed) in
  let chosen := handlePaymentClick order (mkHistory None false []) in
  orderTotal chosen = 240%float
  /\ historyLog (handlePaymentSubmit "gcash" chosen)
     = ["Payment processed for order o2 with gcash"]
  /\ orderTotal (handlePaymentClick brokenOrder (mkHistory None false [])) = 0%float.
Proof.
  destruct (payment_dialogue (Order.mk (Some "o2") (sampleOrder "dev-1" completed))
              "gcash" (mkHistory None false []))
    as (_ & _ & _ & _ & _ & _ & _ & Htotal & _ & Hlog & _).
  destruct (payment_dialogue brokenOrder "gcash" (mkHistory None false []))
    as (_ & _ & _ & _ & _ & _ & Hzero & _).
  split; [apply Htotal; discriminate|].
  split; [exact (Hlog "o2" eq_refl ltac:(discriminate))|].
  apply Hzero. right. right. reflexivity.
Defined.

(** X21 on the sample customer, at table "5": the order carries the number
    5. *)
Lemma tableNumber_numeral_instance :
  parseInt (tableNumber sampleWorld) = 5%float.
Proof.
  destruct (tableNumber_numeral 5 "" "" "fresh-uuid" 1700000000000%float sampleWorld)
    as [Hparse _]; [lia|reflexivity|reflexivity|reflexivity|discriminate|reflexivity|].
  exact Hparse.
Defined.

(** X22 on the sample item: three espressos with oat milk make one line of
    quantity 3. *)
Lemma handlePlaceOrder_counts_instance :
  Nat.iter 3 (placeOrderUpdate espresso [oatMilk]) []
  = [CartItem.ofMenuItem espresso 3%float [oatMilk]].
Proof.
  destruct (handlePlaceOrder_counts espresso [oatMilk] 3) as [Hline _];
    [lia|reflexivity|].
  exact Hline.
Defined.
